(** * Newsroom polling: the per-poll Durable Object, its index and its routes

    A shallow embedding of
    - [packages/embed-worker/src/durable-objects/PollVoteCounter.ts]
      (the actor: SQLite tables, request handlers, subscriber set),
    - [packages/shared/src/constants.ts] and [schemas.ts]
      (constraints, error codes, request schemas),
    - [packages/embed-worker/src/lib/fingerprint.ts] and
      [packages/embed-worker/src/routes/vote.ts] (public vote route),
    - [packages/cms-worker/src/routes/polls.ts] (admin routes).

    Conventions.  A SQLite table is the list of its rows in rowid order.
    Column names carry a one-letter prefix of their table ([p_], [a_], [v_],
    [i_]) because Rocq record fields share one name space.  A JavaScript
    string is a [string]; [String.length] stands for [.length].  Timestamps
    ([Date.now()]) are integers; row counts are natural numbers; the
    percentage is an IEEE binary64 number, as every JavaScript number is.
    [crypto.randomUUID()] and [Date.now()] are inputs of a request ([Env]). *)

From Stdlib Require Import List String Ascii ZArith Arith Bool Lia.
From Stdlib Require Import Floats Uint63.
From Stdlib Require Import Sorting.Sorted Sorting.Permutation.
Import ListNotations.
Local Open Scope string_scope.
Local Open Scope list_scope.

Set Implicit Arguments.

(** ** shared/src/constants.ts *)

Module POLL_CONSTRAINTS.
Definition QUESTION_MIN_LENGTH : nat := 1.
Definition QUESTION_MAX_LENGTH : nat := 500.
Definition ANSWER_MIN_LENGTH : nat := 1.
Definition ANSWER_MAX_LENGTH : nat := 200.
Definition MIN_ANSWERS : nat := 2.
Definition MAX_ANSWERS : nat := 10.
End POLL_CONSTRAINTS.

Inductive ERROR_CODES : Set :=
| POLL_NOT_FOUND
| POLL_NOT_PUBLISHED
| POLL_CLOSED
| POLL_IMMUTABLE
| DUPLICATE_VOTE
| INVALID_ANSWER
| VALIDATION_ERROR
| UNAUTHORIZED
| INTERNAL_ERROR.

(** [POLL_STATUS]: the three values the [status] column ever holds. *)
Inductive Status : Set := draft | published | closed.

Definition Status_eqb (a b : Status) : bool :=
  match a, b with
  | draft, draft | published, published | closed, closed => true
  | _, _ => false
  end.

(** ** Rows of the four tables of [ensureSchema] and [ensureIndexSchema] *)

Record PollData : Set := mkPollData {
  p_id : string;
  p_question : string;
  p_status : Status;
  p_created_at : Z;
  p_updated_at : Z;
  p_published_at : option Z;
  p_closed_at : option Z;
  p_reset_count : nat
}.

Record AnswerData : Set := mkAnswerData {
  a_id : string;
  a_answer_text : string;
  a_display_order : nat
}.

Record VoteRow : Set := mkVoteRow {
  v_id : string;
  v_answer_id : string;
  v_voter_fingerprint : string;
  v_voted_at : Z
}.

Record IndexRow : Set := mkIndexRow {
  i_poll_id : string;
  i_created_at : Z
}.

Record SqlStorage : Set := mkSql {
  poll : list PollData;
  answers : list AnswerData;
  votes : list VoteRow;
  poll_index : list IndexRow
}.

(** ** The statements the handlers execute

    An [INSERT] into a table with a [PRIMARY KEY] fails (the driver throws)
    when the key is already there: those return [option]. *)

Module Sql.

Definition empty : SqlStorage := mkSql [] [] [] [].

(** [SELECT ... FROM poll LIMIT 1] then [.toArray()[0]] *)
Definition select_poll_limit_1 (db : SqlStorage) : option PollData :=
  hd_error (poll db).

(** [INSERT INTO poll (id, question, status, created_at, updated_at)]:
    the other columns take their defaults, [NULL] and [0]. *)
Definition insert_poll (id question : string) (st : Status) (created updated : Z)
           (db : SqlStorage) : option SqlStorage :=
  if existsb (fun r => String.eqb (p_id r) id) (poll db) then None
  else Some (mkSql (poll db ++ [mkPollData id question st created updated None None 0])
                   (answers db) (votes db) (poll_index db)).

(** [UPDATE poll SET ...] has no [WHERE]: every row is rewritten. *)
Definition update_poll (f : PollData -> PollData) (db : SqlStorage) : SqlStorage :=
  mkSql (map f (poll db)) (answers db) (votes db) (poll_index db).

Definition set_question (question : string) (now : Z) (r : PollData) : PollData :=
  mkPollData (p_id r) question (p_status r) (p_created_at r) now
             (p_published_at r) (p_closed_at r) (p_reset_count r).

Definition set_updated_at (now : Z) (r : PollData) : PollData :=
  mkPollData (p_id r) (p_question r) (p_status r) (p_created_at r) now
             (p_published_at r) (p_closed_at r) (p_reset_count r).

Definition set_published (now : Z) (r : PollData) : PollData :=
  mkPollData (p_id r) (p_question r) published (p_created_at r) now
             (Some now) (p_closed_at r) (p_reset_count r).

Definition set_closed (now : Z) (r : PollData) : PollData :=
  mkPollData (p_id r) (p_question r) closed (p_created_at r) now
             (p_published_at r) (Some now) (p_reset_count r).

Definition bump_reset_count (now : Z) (r : PollData) : PollData :=
  mkPollData (p_id r) (p_question r) (p_status r) (p_created_at r) now
             (p_published_at r) (p_closed_at r) (p_reset_count r + 1).

Definition delete_from_poll (db : SqlStorage) : SqlStorage :=
  mkSql [] (answers db) (votes db) (poll_index db).

Definition delete_from_answers (db : SqlStorage) : SqlStorage :=
  mkSql (poll db) [] (votes db) (poll_index db).

Definition delete_from_votes (db : SqlStorage) : SqlStorage :=
  mkSql (poll db) (answers db) [] (poll_index db).

(** [INSERT INTO answers (id, answer_text, display_order)] *)
Definition insert_answer (id text : string) (order : nat) (db : SqlStorage)
  : option SqlStorage :=
  if existsb (fun r => String.eqb (a_id r) id) (answers db) then None
  else Some (mkSql (poll db) (answers db ++ [mkAnswerData id text order])
                   (votes db) (poll_index db)).

(** [SELECT id FROM answers WHERE id = ?] then [.toArray()[0]] *)
Definition select_answer (id : string) (db : SqlStorage) : option AnswerData :=
  find (fun r => String.eqb (a_id r) id) (answers db).

(** [SELECT ... FROM votes WHERE voter_fingerprint = ?] then [.toArray()[0]] *)
Definition select_vote (fingerprint : string) (db : SqlStorage) : option VoteRow :=
  find (fun r => String.eqb (v_voter_fingerprint r) fingerprint) (votes db).

(** [INSERT INTO votes (id, answer_id, voter_fingerprint, voted_at)] *)
Definition insert_vote (id answer fingerprint : string) (now : Z) (db : SqlStorage)
  : option SqlStorage :=
  if existsb (fun r => String.eqb (v_id r) id) (votes db) then None
  else Some (mkSql (poll db) (answers db)
                   (votes db ++ [mkVoteRow id answer fingerprint now])
                   (poll_index db)).

(** [ORDER BY a.display_order]: insertion sort, stable on ties. *)
Fixpoint insert_by_order (r : AnswerData) (l : list AnswerData) : list AnswerData :=
  match l with
  | [] => [r]
  | x :: l' =>
      if (a_display_order r <=? a_display_order x)%nat then r :: l
      else x :: insert_by_order r l'
  end.

Definition order_by_display_order (l : list AnswerData) : list AnswerData :=
  fold_right insert_by_order [] l.

(** [COUNT(v.id)] of the group of answer [a] in
    [answers a LEFT JOIN votes v ON v.answer_id = a.id GROUP BY a.id] *)
Definition count_votes (answer : string) (db : SqlStorage) : nat :=
  List.length (filter (fun v => String.eqb (v_answer_id v) answer) (votes db)).

(** The joined, grouped and ordered query of [handleGet], [getVoteCounts]
    and [getVoteCountsData]: one row per answer ([a.id] is the primary key
    of [answers], so every group holds one answer). *)
Definition answers_with_counts (db : SqlStorage) : list (AnswerData * nat) :=
  map (fun a => (a, count_votes (a_id a) db))
      (order_by_display_order (answers db)).

(** [ORDER BY created_at DESC]: insertion sort, newest first, stable on ties. *)
Fixpoint insert_newest_first (r : IndexRow) (l : list IndexRow) : list IndexRow :=
  match l with
  | [] => [r]
  | x :: l' =>
      if (i_created_at x <=? i_created_at r)%Z then r :: l
      else x :: insert_newest_first r l'
  end.

(** [SELECT poll_id FROM poll_index ORDER BY created_at DESC] *)
Definition select_index (db : SqlStorage) : list IndexRow :=
  fold_right insert_newest_first [] (poll_index db).

(** [INSERT OR IGNORE INTO poll_index (poll_id, created_at)] *)
Definition insert_or_ignore_index (id : string) (now : Z) (db : SqlStorage)
  : SqlStorage :=
  if existsb (fun r => String.eqb (i_poll_id r) id) (poll_index db) then db
  else mkSql (poll db) (answers db) (votes db)
             (poll_index db ++ [mkIndexRow id now]).

(** [DELETE FROM poll_index WHERE poll_id = ?] *)
Definition delete_index (id : string) (db : SqlStorage) : SqlStorage :=
  mkSql (poll db) (answers db) (votes db)
        (filter (fun r => negb (String.eqb (i_poll_id r) id)) (poll_index db)).

End Sql.

(** ** Responses

    [Response.json(body, { status })]: the status and the JSON body.  The
    body shapes are the ones the handlers build. *)

(** JavaScript [Number(n)] of a row count. *)
Definition Number (n : nat) : float :=
  PrimFloat.of_uint63 (Uint63.of_Z (Z.of_nat n)).

(** One element of [answers] in [handleGet] ([VoteCount]). *)
Record VoteCount : Set := mkVoteCount {
  answer_id : string;
  answer_text : string;
  display_order : nat;
  votes_of : nat;
  percentage : float
}.

(** [PollWithAnswers]: the poll row spread, [answers] and [totalVotes]. *)
Record PollWithAnswers : Set := mkPollWithAnswers {
  poll_row : PollData;
  answers_of : list VoteCount;
  totalVotes : nat
}.

(** One element of [answers] in [getVoteCounts] and [getVoteCountsData]. *)
Record AnswerCount : Set := mkAnswerCount {
  answerId : string;
  ac_votes : nat;
  ac_percentage : float
}.

Record VoteCounts : Set := mkVoteCounts {
  vc_totalVotes : nat;
  vc_answers : list AnswerCount
}.

Inductive Json : Set :=
| JError (error : string)                 (* { error } *)
| JCreated (id : string)                  (* { success: true, id } *)
| JPoll (p : PollWithAnswers)
| JDeleted                                (* { success: true, deleted: true } *)
| JCounts (c : VoteCounts)                (* { totalVotes, answers } *)
| JCheckVoted (hasVoted : bool) (answer : option string)
| JIndex (pollIds : list string)          (* { pollIds } *)
| JSuccess                                (* { success: true } *)
| JEventStream                            (* the readable side of an SSE stream *)
| JText (text : string).                  (* new Response('Not found') *)

Record Response : Set := mkResponse {
  r_status : nat;
  r_body : Json
}.

(** [response.ok] *)
Definition ok (r : Response) : bool :=
  (200 <=? r_status r)%nat && (r_status r <=? 299)%nat.

(** ** The actor and its requests *)

(** What a request reads from the platform: [Date.now()], the [n]-th call of
    [crypto.randomUUID()], and whether a write to the connection with a given
    id is rejected. *)
Record Env : Type := mkEnv {
  now : Z;
  randomUUID : nat -> string;
  write_fails : string -> bool
}.

(** [PollVoteCounter]: the SQLite storage and the set of SSE connections
    (kept as the list of connection ids, in insertion order). *)
Record PollVoteCounter : Set := mkDO {
  sql : SqlStorage;
  connections : list string
}.

Definition fresh : PollVoteCounter := mkDO Sql.empty [].

(** A handler either returns or throws; both leave a state behind: what was
    written before a throw stays written. *)
Inductive Completion (A : Type) : Type :=
| Return (a : A)
| Throw (what : string).
Arguments Throw {A} what.

Definition DO (A : Type) : Type := PollVoteCounter -> Completion A * PollVoteCounter.

Definition ret {A} (a : A) : DO A := fun s => (Return a, s).

Definition bind {A B} (m : DO A) (k : A -> DO B) : DO B :=
  fun s => match m s with
           | (Return a, s') => k a s'
           | (Throw e, s') => (Throw e, s')
           end.

Declare Scope do_scope.
Delimit Scope do_scope with DO.
Notation "x <- m ;; k" := (bind m (fun x => k))
  (at level 61, m at next level, right associativity) : do_scope.
Notation "m ;; k" := (bind m (fun _ => k))
  (at level 61, right associativity) : do_scope.
Local Open Scope do_scope.

(** [this.sql.exec(...)] reading rows *)
Definition query {A} (q : SqlStorage -> A) : DO A :=
  fun s => (Return (q (sql s)), s).

(** [this.sql.exec(...)] of a statement that cannot fail *)
Definition exec (stmt : SqlStorage -> SqlStorage) : DO unit :=
  fun s => (Return tt, mkDO (stmt (sql s)) (connections s)).

(** [this.sql.exec(...)] of an [INSERT] under a primary key *)
Definition exec_insert (stmt : SqlStorage -> option SqlStorage) : DO unit :=
  fun s => match stmt (sql s) with
           | Some db => (Return tt, mkDO db (connections s))
           | None => (Throw "UNIQUE constraint failed", s)
           end.

Definition json (status : nat) (body : Json) : DO Response :=
  ret (mkResponse status body).

(** ** The handlers of [PollVoteCounter], in the order of the source *)

(** The insert loop shared by [handleCreate] and [handleUpdate]:
    [for (let i = 0; i < answers.length; i++)], the [i]-th iteration drawing
    the [i]-th UUID of the request. *)
Fixpoint insert_answers (env : Env) (i : nat) (texts : list string) : DO unit :=
  match texts with
  | [] => ret tt
  | text :: rest =>
      let answerId := randomUUID env i in
      exec_insert (Sql.insert_answer answerId text i) ;;
      insert_answers env (S i) rest
  end.

Definition handleCreate (env : Env) (id question : string) (answers : list string)
  : DO Response :=
  existing <- query Sql.select_poll_limit_1 ;;
  match existing with
  | Some _ => json 400 (JError "Poll already exists in this DO")
  | None =>
      exec_insert (Sql.insert_poll id question draft (now env) (now env)) ;;
      insert_answers env 0 answers ;;
      json 200 (JCreated id)
  end.

(** [totalVotes > 0 ? (Number(a.votes) / totalVotes) * 100 : 0] *)
Definition percentage_of (votes totalVotes : nat) : float :=
  if (0 <? totalVotes)%nat
  then (Number votes / Number totalVotes * 100)%float
  else 0%float.

(** [answersWithCounts.reduce((sum, a) => sum + Number(a.votes), 0)] *)
Definition sum_votes (rows : list (AnswerData * nat)) : nat :=
  fold_left (fun sum a => sum + snd a) rows 0.

Definition handleGet : DO Response :=
  pollRow <- query Sql.select_poll_limit_1 ;;
  match pollRow with
  | None => json 404 (JError "Poll not found")
  | Some poll =>
      answersWithCounts <- query Sql.answers_with_counts ;;
      let totalVotes := sum_votes answersWithCounts in
      let answers :=
        map (fun a => mkVoteCount (a_id (fst a)) (a_answer_text (fst a))
                                  (a_display_order (fst a)) (snd a)
                                  (percentage_of (snd a) totalVotes))
            answersWithCounts in
      json 200 (JPoll (mkPollWithAnswers poll answers totalVotes))
  end.

Definition handleUpdate (env : Env) (question : option string)
           (answers : option (list string)) : DO Response :=
  pollRow <- query Sql.select_poll_limit_1 ;;
  match pollRow with
  | None => json 404 (JError "Poll not found")
  | Some row =>
      if negb (Status_eqb (p_status row) draft)
      then json 400 (JError "Can only update draft polls")
      else
        match question with
        | Some q => exec (Sql.update_poll (Sql.set_question q (now env)))
        | None => ret tt
        end ;;
        match answers with
        | Some texts =>
            exec Sql.delete_from_answers ;;
            insert_answers env 0 texts ;;
            exec (Sql.update_poll (Sql.set_updated_at (now env)))
        | None => ret tt
        end ;;
        handleGet
  end.

Definition handlePublish (env : Env) : DO Response :=
  pollRow <- query Sql.select_poll_limit_1 ;;
  match pollRow with
  | None => json 404 (JError "Poll not found")
  | Some row =>
      if negb (Status_eqb (p_status row) draft)
      then json 400 (JError "Poll is not in draft status")
      else
        exec (Sql.update_poll (Sql.set_published (now env))) ;;
        handleGet
  end.

Definition handleClose (env : Env) : DO Response :=
  pollRow <- query Sql.select_poll_limit_1 ;;
  match pollRow with
  | None => json 404 (JError "Poll not found")
  | Some row =>
      if negb (Status_eqb (p_status row) published)
      then json 400 (JError "Poll is not published")
      else
        exec (Sql.update_poll (Sql.set_closed (now env))) ;;
        handleGet
  end.

Definition handleDelete : DO Response :=
  pollRow <- query Sql.select_poll_limit_1 ;;
  match pollRow with
  | None => json 404 (JError "Poll not found")
  | Some _ =>
      exec Sql.delete_from_votes ;;
      exec Sql.delete_from_answers ;;
      exec Sql.delete_from_poll ;;
      json 200 JDeleted
  end.

Definition handleReset (env : Env) : DO Response :=
  pollRow <- query Sql.select_poll_limit_1 ;;
  match pollRow with
  | None => json 404 (JError "Poll not found")
  | Some _ =>
      exec Sql.delete_from_votes ;;
      exec (Sql.update_poll (Sql.bump_reset_count (now env))) ;;
      handleGet
  end.

Definition getVoteCountsData (db : SqlStorage) : VoteCounts :=
  let answersWithCounts := Sql.answers_with_counts db in
  let totalVotes := sum_votes answersWithCounts in
  let answers :=
    map (fun a => mkAnswerCount (a_id (fst a)) (snd a)
                                (percentage_of (snd a) totalVotes))
        answersWithCounts in
  mkVoteCounts totalVotes answers.

Definition getVoteCounts : DO Response :=
  counts <- query getVoteCountsData ;;
  json 200 (JCounts counts).

(** [broadcastUpdate]: every connection is written the [vote-update] event;
    the ones whose write is rejected are collected and deleted afterwards.
    The SQL storage is only read. *)
Definition broadcastUpdate (env : Env) : DO unit :=
  fun s => (Return tt,
            mkDO (sql s) (filter (fun conn => negb (write_fails env conn))
                                 (connections s))).

Definition handleVote (env : Env) (answerId voterFingerprint : string)
  : DO Response :=
  pollRow <- query Sql.select_poll_limit_1 ;;
  match pollRow with
  | None => json 404 (JError "Poll not found")
  | Some row =>
      let status := p_status row in
      if Status_eqb status draft then json 400 (JError "Poll not published")
      else if Status_eqb status closed then json 400 (JError "Poll is closed")
      else
        answerRow <- query (Sql.select_answer answerId) ;;
        match answerRow with
        | None => json 400 (JError "Invalid answer")
        | Some _ =>
            existingVote <- query (Sql.select_vote voterFingerprint) ;;
            match existingVote with
            | Some _ => json 409 (JError "Already voted")
            | None =>
                let voteId := randomUUID env 0 in
                exec_insert (Sql.insert_vote voteId answerId voterFingerprint
                                             (now env)) ;;
                broadcastUpdate env ;;
                getVoteCounts
            end
        end
  end.

Definition handleCheckVoted (voterFingerprint : string) : DO Response :=
  existingVote <- query (Sql.select_vote voterFingerprint) ;;
  json 200 (JCheckVoted (match existingVote with Some _ => true | None => false end)
                        (option_map v_answer_id existingVote)).

(** [handleSSE]: the connection is added, the current counts are written to
    it, and it is taken out again when that first write is rejected. *)
Definition handleSSE (env : Env) : DO Response :=
  fun s =>
    let connectionId := randomUUID env 0 in
    let added := connections s ++ [connectionId] in
    let kept :=
      if write_fails env connectionId
      then filter (fun conn => negb (String.eqb conn connectionId)) added
      else added in
    (Return (mkResponse 200 JEventStream), mkDO (sql s) kept).

(** The [abort] listener and a rejected keep-alive write: the connection is
    deleted from the set. *)
Definition disconnect (connectionId : string) (s : PollVoteCounter) : PollVoteCounter :=
  mkDO (sql s) (filter (fun conn => negb (String.eqb conn connectionId))
                       (connections s)).

Definition handleGetIndex : DO Response :=
  rows <- query Sql.select_index ;;
  let pollIds := map i_poll_id rows in
  json 200 (JIndex pollIds).

Definition handleAddToIndex (env : Env) (pollId : string) : DO Response :=
  exec (Sql.insert_or_ignore_index pollId (now env)) ;;
  json 200 JSuccess.

Definition handleRemoveFromIndex (pollId : string) : DO Response :=
  exec (Sql.delete_index pollId) ;;
  json 200 JSuccess.

(** The body of a request to the actor, by [url.pathname]. *)
Inductive Request : Set :=
| create (id question : string) (answers : list string)
| get
| update (question : option string) (answers : option (list string))
| publish
| close
| delete
| reset
| vote (answerId voterFingerprint : string)
| check_voted (voterFingerprint : string)
| stream
| get_index
| add_to_index (pollId : string)
| remove_from_index (pollId : string)
| other_path.

Definition fetch (env : Env) (request : Request) : DO Response :=
  match request with
  | create id question answers => handleCreate env id question answers
  | get => handleGet
  | update question answers => handleUpdate env question answers
  | publish => handlePublish env
  | close => handleClose env
  | delete => handleDelete
  | reset => handleReset env
  | vote answerId voterFingerprint => handleVote env answerId voterFingerprint
  | check_voted voterFingerprint => handleCheckVoted voterFingerprint
  | stream => handleSSE env
  | get_index => handleGetIndex
  | add_to_index pollId => handleAddToIndex env pollId
  | remove_from_index pollId => handleRemoveFromIndex pollId
  | other_path => ret (mkResponse 404 (JText "Not found"))
  end.

(** What happens to an actor: a request is served, or a subscriber leaves. *)
Inductive Event : Type :=
| Fetch (env : Env) (request : Request)
| Disconnect (connectionId : string).

Definition step (s : PollVoteCounter) (e : Event) : PollVoteCounter :=
  match e with
  | Fetch env request => snd (fetch env request s)
  | Disconnect connectionId => disconnect connectionId s
  end.

(** The actor after a history of events, oldest first. *)
Definition run (s : PollVoteCounter) (history : list Event) : PollVoteCounter :=
  fold_left step history s.

(** An example environment: the clock reads [t], the [n]-th UUID is the tag
    followed by the character of code [48 + n], and no write is rejected. *)
Definition env_at (t : Z) (tag : string) : Env :=
  mkEnv t (fun n => String.append tag (String (ascii_of_nat (48 + n)) "")) (fun _ => false).

(** ** Invariants of the storage *)

(** [published_at] and [closed_at] follow the status. *)
Definition stamps_ok (row : PollData) : Prop :=
  (p_published_at row <> None <->
   p_status row = published \/ p_status row = closed) /\
  (p_closed_at row <> None <-> p_status row = closed).

Record Inv (db : SqlStorage) : Prop := mkInv {
  inv_single : (List.length (poll db) <= 1)%nat;
  inv_no_poll : poll db = [] -> votes db = [] /\ answers db = [];
  inv_draft : forall row, In row (poll db) -> p_status row = draft -> votes db = [];
  inv_fk : forall v, In v (votes db) ->
                     exists a, In a (answers db) /\ a_id a = v_answer_id v;
  inv_answer_key : NoDup (map a_id (answers db));
  inv_vote_key : NoDup (map v_id (votes db));
  inv_dedup : NoDup (map v_voter_fingerprint (votes db));
  inv_stamps : forall row, In row (poll db) -> stamps_ok row;
  inv_index_key : NoDup (map i_poll_id (poll_index db))
}.

(** ** routes/vote.ts, [handleVote]: what the public route answers *)

(** One element of [answers] in [transformPollResponse]. *)
Record ApiAnswer : Set := mkApiAnswer {
  aa_id : string;
  aa_text : string;
  aa_order : nat;
  aa_votes : nat;
  aa_percentage : float
}.

(** The object [transformPollResponse] builds from a poll projection. *)
Record ApiPoll : Set := mkApiPoll {
  ap_id : string;
  ap_question : string;
  ap_status : Status;
  ap_created_at : Z;
  ap_updated_at : Z;
  ap_published_at : option Z;
  ap_closed_at : option Z;
  ap_totalVotes : nat;
  ap_answers : list ApiAnswer
}.

Inductive ApiJson : Set :=
| AError (error : string) (code : option ERROR_CODES)
| AVoted (result : option VoteCounts)   (* { success: true, totalVotes, answers } *)
| AMessage (message : string)           (* { success: true, message } *)
| APoll (p : option ApiPoll).           (* [None]: every field [undefined] *)

Record ApiResponse : Set := mkApi {
  api_status : nat;
  api_body : ApiJson
}.

(** [errorResponse(error, status, code)] of lib/utils.ts *)
Definition errorResponse (error : string) (status : nat) (code : ERROR_CODES)
  : ApiResponse :=
  mkApi status (AError error (Some code)).

(** [error.error] of a parsed body *)
Definition error_of (body : Json) : option string :=
  match body with
  | JError e => Some e
  | _ => None
  end.

Definition is_error (body : Json) (message : string) : bool :=
  match error_of body with
  | Some e => String.eqb e message
  | None => false
  end.

(** Lines 52 to 81 of routes/vote.ts: the reply built from the actor's
    response. *)
Definition vote_reply (doResponse : Response) : ApiResponse :=
  if negb (ok doResponse) then
    if (r_status doResponse =? 404)%nat
    then errorResponse "Poll not found" 404 POLL_NOT_FOUND
    else if (r_status doResponse =? 409)%nat
    then errorResponse "Already voted" 409 DUPLICATE_VOTE
    else if is_error (r_body doResponse) "Poll not published"
    then errorResponse "Poll not published" 403 POLL_NOT_PUBLISHED
    else if is_error (r_body doResponse) "Poll is closed"
    then errorResponse "Poll is closed" 403 POLL_CLOSED
    else if is_error (r_body doResponse) "Invalid answer"
    then errorResponse "Invalid answer ID" 400 INVALID_ANSWER
    else errorResponse "Failed to record vote" 500 INTERNAL_ERROR
  else
    mkApi 200 (AVoted (match r_body doResponse with
                       | JCounts c => Some c
                       | _ => None
                       end)).

(** ** The errors of the actor, by the names the specification gives them *)

Definition NotFound : Response := mkResponse 404 (JError "Poll not found").
Definition AlreadyExists : Response :=
  mkResponse 400 (JError "Poll already exists in this DO").
Definition InvalidState_vote : Response := mkResponse 400 (JError "Poll not published").
Definition InvalidState_update : Response :=
  mkResponse 400 (JError "Can only update draft polls").
Definition InvalidState_publish : Response :=
  mkResponse 400 (JError "Poll is not in draft status").
Definition InvalidState_close : Response := mkResponse 400 (JError "Poll is not published").
Definition PollClosed : Response := mkResponse 400 (JError "Poll is closed").
Definition InvalidAnswer : Response := mkResponse 400 (JError "Invalid answer").
Definition DuplicateVote : Response := mkResponse 409 (JError "Already voted").

(** The state a vote leaves when it is accepted. *)
Definition accept_vote (env : Env) (answerId voterFingerprint : string)
           (s : PollVoteCounter) : PollVoteCounter :=
  mkDO (mkSql (poll (sql s)) (answers (sql s))
              (votes (sql s) ++
               [mkVoteRow (randomUUID env 0) answerId voterFingerprint (now env)])
              (poll_index (sql s)))
       (filter (fun conn => negb (write_fails env conn)) (connections s)).

(** ** A small history used to exercise the handlers

    A poll with the answers A and B is created at time 1 and published at
    time 2; the fingerprint fp1 votes for A at time 3. *)
Definition one_vote_history : list Event :=
  [ Fetch (env_at 1 "a") (create "p" "Q?" ["A"; "B"]);
    Fetch (env_at 2 "x") publish;
    Fetch (env_at 3 "v") (vote "a0" "fp1") ].

Definition one_vote : PollVoteCounter := run fresh one_vote_history.

Definition one_vote_row : PollData :=
  mkPollData "p" "Q?" published 1 2 (Some 2%Z) None 0.

(** ** Sequences of votes *)

(** One call of [vote]: what the request reads from the platform, the answer
    and the fingerprint. *)
Record VoteCall : Type := mkVoteCall {
  call_env : Env;
  call_answer : string;
  call_fingerprint : string
}.

(** A request is accepted when it returns a success status. *)
Definition accepted (c : Completion Response) : bool :=
  match c with
  | Return r => ok r
  | Throw _ => false
  end.

(** The calls are served one after the other; the fingerprints of the
    accepted ones are collected, oldest first. *)
Fixpoint vote_all (calls : list VoteCall) (s : PollVoteCounter)
  : list string * PollVoteCounter :=
  match calls with
  | [] => ([], s)
  | c :: rest =>
      let (r, s') := handleVote (call_env c) (call_answer c) (call_fingerprint c) s in
      let (acc, s'') := vote_all rest s' in
      (if accepted r then call_fingerprint c :: acc else acc, s'')
  end.

Definition fingerprints (s : PollVoteCounter) : list string :=
  map v_voter_fingerprint (votes (sql s)).

(** ** The lifecycle *)

(** The position of a status on the line draft, published, closed. *)
Definition rank (st : Status) : nat :=
  match st with
  | draft => 0
  | published => 1
  | closed => 2
  end.

(** The one request that removes the poll. *)
Definition is_delete (e : Event) : bool :=
  match e with
  | Fetch _ delete => true
  | _ => false
  end.

(** The actor after [publish] and after [close] went through. *)
Definition published_at_now (env : Env) (s : PollVoteCounter) : PollVoteCounter :=
  mkDO (Sql.update_poll (Sql.set_published (now env)) (sql s)) (connections s).

Definition closed_at_now (env : Env) (s : PollVoteCounter) : PollVoteCounter :=
  mkDO (Sql.update_poll (Sql.set_closed (now env)) (sql s)) (connections s).

(** ** shared/src/schemas.ts *)

Record CreatePollRequest : Set := mkCreatePollRequest {
  question : string;
  answers_in : list string
}.

(** [z.string().min(lo).max(hi)] *)
Definition string_min_max (lo hi : nat) (text : string) : bool :=
  (lo <=? String.length text)%nat && (String.length text <=? hi)%nat.

(** [new Set(answers).size === answers.length] *)
Definition unique_answers (answers : list string) : bool :=
  (List.length (nodup string_dec answers) =? List.length answers)%nat.

(** [createPollSchema.safeParse(body).success] on a body of the right
    shape: every check of the schema passes. *)
Definition createPollSchema (body : CreatePollRequest) : bool :=
  string_min_max POLL_CONSTRAINTS.QUESTION_MIN_LENGTH
                 POLL_CONSTRAINTS.QUESTION_MAX_LENGTH (question body)
  && forallb (string_min_max POLL_CONSTRAINTS.ANSWER_MIN_LENGTH
                             POLL_CONSTRAINTS.ANSWER_MAX_LENGTH) (answers_in body)
  && (POLL_CONSTRAINTS.MIN_ANSWERS <=? List.length (answers_in body))%nat
  && (List.length (answers_in body) <=? POLL_CONSTRAINTS.MAX_ANSWERS)%nat
  && unique_answers (answers_in body).

(** ** cms-worker/src/routes/polls.ts *)

(** The namespace [POLL_COUNTER]: [idFromName(name)] and [get] reach the one
    actor of that name, created empty on first use. *)
Definition Namespace : Set := string -> PollVoteCounter.

Definition no_actors : Namespace := fun _ => fresh.

Definition put (ns : Namespace) (name : string) (s : PollVoteCounter) : Namespace :=
  fun n => if String.eqb n name then s else ns n.

(** [callDO]: [stub.fetch] of a request to the actor named [pollId]. *)
Definition callDO (ns : Namespace) (pollId : string) (env : Env) (request : Request)
  : Completion Response * Namespace :=
  let (c, s') := fetch env request (ns pollId) in
  (c, put ns pollId s').

Definition POLL_INDEX_KEY : string := "poll-index".

Definition addToPollIndex (ns : Namespace) (env : Env) (pollId : string)
  : Completion Response * Namespace :=
  callDO ns POLL_INDEX_KEY env (add_to_index pollId).

Definition removeFromPollIndex (ns : Namespace) (env : Env) (pollId : string)
  : Completion Response * Namespace :=
  callDO ns POLL_INDEX_KEY env (remove_from_index pollId).

Definition transformPollResponse (poll : Json) : option ApiPoll :=
  match poll with
  | JPoll p =>
      Some (mkApiPoll (p_id (poll_row p)) (p_question (poll_row p))
                      (p_status (poll_row p)) (p_created_at (poll_row p))
                      (p_updated_at (poll_row p)) (p_published_at (poll_row p))
                      (p_closed_at (poll_row p)) (totalVotes p)
                      (map (fun a => mkApiAnswer (answer_id a) (answer_text a)
                                                 (display_order a) (votes_of a)
                                                 (percentage a))
                           (answers_of p)))
  | _ => None
  end.

(** [(error as any).error || fallback] *)
Definition error_or (body : Json) (fallback : string) : string :=
  match error_of body with
  | Some e => if String.eqb e "" then fallback else e
  | None => fallback
  end.

(** [handleCreatePoll].  [body] is [None] when [c.req.json()] throws; [env]
    is what the route reads itself, [doEnv k] what the actor reads while it
    serves the [k]-th [stub.fetch] of the route. *)
Definition handleCreatePoll (ns : Namespace) (env : Env) (doEnv : nat -> Env)
           (body : option CreatePollRequest) : Completion ApiResponse * Namespace :=
  match body with
  | None => (Return (errorResponse "Invalid JSON" 400 VALIDATION_ERROR), ns)
  | Some data =>
      if negb (createPollSchema data)
      then (Return (errorResponse "Validation failed" 400 VALIDATION_ERROR), ns)
      else
        let pollId := randomUUID env 0 in
        match callDO ns pollId (doEnv 0)
                     (create pollId (question data) (answers_in data)) with
        | (Throw e, ns1) => (Throw e, ns1)
        | (Return response, ns1) =>
            if negb (ok response)
            then (Return (errorResponse (error_or (r_body response)
                                                  "Failed to create poll")
                                        (r_status response) INTERNAL_ERROR), ns1)
            else
              match addToPollIndex ns1 (doEnv 1) pollId with
              | (Throw e, ns2) => (Throw e, ns2)
              | (Return _, ns2) =>
                  match callDO ns2 pollId (doEnv 2) get with
                  | (Throw e, ns3) => (Throw e, ns3)
                  | (Return pollResponse, ns3) =>
                      (Return (mkApi 201 (APoll (transformPollResponse
                                                   (r_body pollResponse)))), ns3)
                  end
              end
        end
  end.

(** [handleDeletePoll] *)
Definition handleDeletePoll (ns : Namespace) (doEnv : nat -> Env) (pollId : string)
  : Completion ApiResponse * Namespace :=
  match callDO ns pollId (doEnv 0) delete with
  | (Throw e, ns1) => (Throw e, ns1)
  | (Return response, ns1) =>
      if negb (ok response)
      then
        if (r_status response =? 404)%nat
        then (Return (errorResponse "Poll not found" 404 POLL_NOT_FOUND), ns1)
        else (Return (errorResponse "Failed to delete poll" 500 INTERNAL_ERROR), ns1)
      else
        match removeFromPollIndex ns1 (doEnv 1) pollId with
        | (Throw e, ns2) => (Throw e, ns2)
        | (Return _, ns2) =>
            (Return (mkApi 200 (AMessage "Poll deleted successfully")), ns2)
        end
  end.

(** Example environments of a route: the [k]-th call to an actor reads the
    clock at [t + k] and draws UUIDs tagged with the letter of code [97 + k]. *)
Definition doEnv_at (t : Z) (k : nat) : Env :=
  env_at (t + Z.of_nat k) (String (ascii_of_nat (97 + k)) "").

(** ** Creation, in the words of the specification *)

(** The structural constraints of [create]: question of 1 to 500 characters,
    every answer of 1 to 200 characters, answers pairwise distinct by exact
    text, 2 to 10 answers. *)
Definition valid_create (q : string) (texts : list string) : Prop :=
  (1 <= String.length q <= 500) /\
  (forall a, In a texts -> 1 <= String.length a <= 200) /\
  NoDup texts /\
  (2 <= List.length texts <= 10).

(** The reply is an error carrying the code VALIDATION_ERROR. *)
Definition is_validation_error (c : Completion ApiResponse) : bool :=
  match c with
  | Return (mkApi _ (AError _ (Some VALIDATION_ERROR))) => true
  | _ => false
  end.

(** The rows the insert loop adds for [texts], starting at index [i]. *)
Fixpoint new_answers (env : Env) (i : nat) (texts : list string) : list AnswerData :=
  match texts with
  | [] => []
  | text :: rest => mkAnswerData (randomUUID env i) text i :: new_answers env (S i) rest
  end.

(** ** The index actor *)

(** The two writes of the index, with the time the actor reads while it
    serves an addition. *)
Inductive IndexOp : Set :=
| addToIndex (pollId : string) (time : Z)
| removeFromIndex (pollId : string).

Definition index_event (op : IndexOp) : Event :=
  match op with
  | addToIndex pollId time => Fetch (env_at time "") (add_to_index pollId)
  | removeFromIndex pollId => Fetch (env_at 0 "") (remove_from_index pollId)
  end.

(** [listIndex()]: the [pollIds] of the response of [/get-index]. *)
Definition listIndex (s : PollVoteCounter) : list string :=
  match fst (handleGetIndex s) with
  | Return (mkResponse _ (JIndex pollIds)) => pollIds
  | _ => []
  end.

(** The identifiers present after a sequence of writes, in the order in
    which they were added: an addition of an identifier that is present
    changes nothing, a removal takes the identifier out, and an identifier
    added again after its removal goes to the end. *)
Fixpoint present_after (ops : list IndexOp) (present : list string) : list string :=
  match ops with
  | [] => present
  | addToIndex pollId _ :: rest =>
      present_after rest
        (if existsb (fun x => String.eqb x pollId) present then present
         else present ++ [pollId])
  | removeFromIndex pollId :: rest =>
      present_after rest (filter (fun x => negb (String.eqb x pollId)) present)
  end.

Definition insertion_order (ops : list IndexOp) : list string :=
  present_after ops [].

(** The clock strictly advances from one addition to the next, starting
    after [t]. *)
Fixpoint clock_advances (t : Z) (ops : list IndexOp) : Prop :=
  match ops with
  | [] => True
  | addToIndex _ time :: rest => (t < time)%Z /\ clock_advances time rest
  | removeFromIndex _ :: rest => clock_advances t rest
  end.

(** Newest first: no row is older than a row that follows it. *)
Definition newer_or_same (a b : IndexRow) : Prop :=
  (i_created_at b <= i_created_at a)%Z.

(** The rows of the index after a sequence of writes. *)
Definition index_write (table : list IndexRow) (op : IndexOp) : list IndexRow :=
  match op with
  | addToIndex pollId time =>
      if existsb (fun r => String.eqb (i_poll_id r) pollId) table then table
      else table ++ [mkIndexRow pollId time]
  | removeFromIndex pollId =>
      filter (fun r => negb (String.eqb (i_poll_id r) pollId)) table
  end.

(** Every vote points to an answer of the poll. *)
Definition votes_reference_answers (db : SqlStorage) : Prop :=
  Forall (fun v => In (v_answer_id v) (map a_id (answers db))) (votes db).

(** A draft that was just created, before anything else happened. *)
Definition draft_history : list Event :=
  [ Fetch (env_at 1 "a") (create "p" "Q?" ["A"; "B"]) ].

(** ** embed-worker: lib/fingerprint.ts and routes/vote.ts *)

(** What the vote route reads of an HTTP request: two headers and the JSON
    body, [None] when [c.req.json()] throws.  The embed page sends
    [{ answerId, clientId }]. *)
Record VoteBody : Set := mkVoteBody {
  body_answerId : string;
  body_clientId : option string
}.

Record HttpRequest : Set := mkHttpRequest {
  CF_Connecting_IP : option string;
  User_Agent : option string;
  json_body : option VoteBody
}.

(** [VoteRequest] of shared/src/types.ts: what [voteRequestSchema] yields. *)
Record VoteRequest : Set := mkVoteRequest {
  vr_answerId : string
}.

(** [request.headers.get(name) || 'unknown'] *)
Definition or_unknown (header : option string) : string :=
  match header with
  | Some value => if String.eqb value "" then "unknown" else value
  | None => "unknown"
  end.

(** A template literal prints an [undefined] value as the word. *)
Definition template (value : option string) : string :=
  match value with
  | Some text => text
  | None => "undefined"
  end.

Definition hex_digit (n : N) : ascii :=
  if (n <? 10)%N then ascii_of_N (48 + n) else ascii_of_N (87 + n).

(** [b.toString(16)] *)
Definition toString16 (b : Byte.byte) : string :=
  let n := Byte.to_N b in
  if (n <? 16)%N then String (hex_digit n) ""
  else String (hex_digit (n / 16)) (String (hex_digit (n mod 16)) "").

(** [text.padStart(2, '0')] *)
Definition padStart2 (text : string) : string :=
  match String.length text with
  | 0 => "00"
  | 1 => String.append "0" text
  | _ => text
  end.

(** [bytes.map(b => b.toString(16).padStart(2, '0')).join('')] *)
Definition hex (bytes : list Byte.byte) : string :=
  String.concat "" (map (fun b => padStart2 (toString16 b)) bytes).

(** ** SHA-256 (FIPS 180-4), what [crypto.subtle.digest('SHA-256', _)]
    computes; words are 32-bit numbers kept below [2^32]. *)

Module SHA256.

Definition mod32 (x : N) : N := N.land x 0xffffffff.

Definition add32 (x y : N) : N := mod32 (x + y).

Definition rotr (n x : N) : N :=
  N.lor (N.shiftr x n) (mod32 (N.shiftl x (32 - n))).

Definition Ch (x y z : N) : N :=
  N.lxor (N.land x y) (N.land (N.lxor x 0xffffffff) z).

Definition Maj (x y z : N) : N :=
  N.lxor (N.land x y) (N.lxor (N.land x z) (N.land y z)).

Definition Sigma0 (x : N) : N := N.lxor (rotr 2 x) (N.lxor (rotr 13 x) (rotr 22 x)).
Definition Sigma1 (x : N) : N := N.lxor (rotr 6 x) (N.lxor (rotr 11 x) (rotr 25 x)).
Definition sigma0 (x : N) : N := N.lxor (rotr 7 x) (N.lxor (rotr 18 x) (N.shiftr x 3)).
Definition sigma1 (x : N) : N := N.lxor (rotr 17 x) (N.lxor (rotr 19 x) (N.shiftr x 10)).

(** The first 32 bits of the fractional parts of the cube roots of the first
    64 primes, in decimal. *)
Definition K : list N :=
  [
    1116352408; 1899447441; 3049323471; 3921009573; 961987163; 1508970993;
    2453635748; 2870763221; 3624381080; 310598401; 607225278; 1426881987;
    1925078388; 2162078206; 2614888103; 3248222580; 3835390401; 4022224774;
    264347078; 604807628; 770255983; 1249150122; 1555081692; 1996064986;
    2554220882; 2821834349; 2952996808; 3210313671; 3336571891; 3584528711;
    113926993; 338241895; 666307205; 773529912; 1294757372; 1396182291;
    1695183700; 1986661051; 2177026350; 2456956037; 2730485921; 2820302411;
    3259730800; 3345764771; 3516065817; 3600352804; 4094571909; 275423344;
    430227734; 506948616; 659060556; 883997877; 958139571; 1322822218;
    1537002063; 1747873779; 1955562222; 2024104815; 2227730452; 2361852424;
    2428436474; 2756734187; 3204031479; 3329325298 ]%N.

(** The eight working variables, and the hash value between blocks. *)
Record State : Set := mkState {
  va : N; vb : N; vc : N; vd : N; ve : N; vf : N; vg : N; vh : N
}.

Definition H0 : State :=
  mkState 0x6a09e667 0xbb67ae85 0x3c6ef372 0xa54ff53a
          0x510e527f 0x9b05688c 0x1f83d9ab 0x5be0cd19.

(** The message followed by the bit 1, zeros up to 56 modulo 64 bytes, and
    its length in bits on 8 bytes, most significant first. *)
Definition big_endian (width : nat) (x : N) : list N :=
  map (fun i => N.land (N.shiftr x (8 * N.of_nat i)) 0xff) (rev (seq 0 width)).

Definition pad (message : list N) : list N :=
  let l := List.length message in
  message ++ [0x80%N] ++ repeat 0%N ((119 - l mod 64) mod 64)
          ++ big_endian 8 (8 * N.of_nat l).

(** The 32-bit words of a block, four bytes each, most significant first. *)
Fixpoint words (bytes : list N) : list N :=
  match bytes with
  | b3 :: b2 :: b1 :: b0 :: rest =>
      N.lor (N.shiftl b3 24) (N.lor (N.shiftl b2 16) (N.lor (N.shiftl b1 8) b0))
      :: words rest
  | _ => []
  end.

(** The message schedule: [n] more words after the ones of [w]. *)
Fixpoint extend (n : nat) (w : list N) : list N :=
  match n with
  | O => w
  | S n' =>
      let t := List.length w in
      extend n' (w ++ [add32 (add32 (sigma1 (nth (t - 2) w 0%N)) (nth (t - 7) w 0%N))
                             (add32 (sigma0 (nth (t - 15) w 0%N))
                                    (nth (t - 16) w 0%N))])
  end.

Definition round (s : State) (kw : N * N) : State :=
  let T1 := add32 (add32 (add32 (vh s) (Sigma1 (ve s)))
                         (add32 (Ch (ve s) (vf s) (vg s)) (fst kw))) (snd kw) in
  let T2 := add32 (Sigma0 (va s)) (Maj (va s) (vb s) (vc s)) in
  mkState (add32 T1 T2) (va s) (vb s) (vc s) (add32 (vd s) T1) (ve s) (vf s) (vg s).

Definition compress (h : State) (block : list N) : State :=
  let s := fold_left round (combine K (extend 48 (words block))) h in
  mkState (add32 (va h) (va s)) (add32 (vb h) (vb s)) (add32 (vc h) (vc s))
          (add32 (vd h) (vd s)) (add32 (ve h) (ve s)) (add32 (vf h) (vf s))
          (add32 (vg h) (vg s)) (add32 (vh h) (vh s)).

Fixpoint blocks (n : nat) (bytes : list N) (h : State) : State :=
  match n with
  | O => h
  | S n' => blocks n' (skipn 64 bytes) (compress h (firstn 64 bytes))
  end.

Definition byte_of (x : N) : Byte.byte :=
  match Byte.of_N x with
  | Some b => b
  | None => Byte.x00
  end.

Definition digest (message : list Byte.byte) : list Byte.byte :=
  let padded := pad (map Byte.to_N message) in
  let h := blocks (List.length padded / 64) padded H0 in
  map byte_of (big_endian 4 (va h) ++ big_endian 4 (vb h) ++ big_endian 4 (vc h)
               ++ big_endian 4 (vd h) ++ big_endian 4 (ve h) ++ big_endian 4 (vf h)
               ++ big_endian 4 (vg h) ++ big_endian 4 (vh h)).

End SHA256.

Module VoteRoute.

Section Platform.

(** [crypto.subtle.digest('SHA-256', bytes)], a function of the platform. *)
Variable SHA_256 : list Byte.byte -> list Byte.byte.

(** [z.string().uuid()], a check of the zod library. *)
Variable uuid : string -> bool.

(** [generateFingerprint] of lib/fingerprint.ts: one parameter, the request. *)
Definition generateFingerprint (request : HttpRequest) : string :=
  let ip := or_unknown (CF_Connecting_IP request) in
  let userAgent := or_unknown (User_Agent request) in
  let data := String.append ip (String.append ":" userAgent) in
  let hashBuffer := SHA_256 (list_byte_of_string data) in
  hex hashBuffer.

(** The other [generateFingerprint] found in the repository, with a second
    parameter [clientId]. *)
Definition generateFingerprint_clientId (request : HttpRequest)
           (clientId : option string) : string :=
  let ip := or_unknown (CF_Connecting_IP request) in
  let data := String.append ip (String.append ":" (template clientId)) in
  let hashBuffer := SHA_256 (list_byte_of_string data) in
  hex hashBuffer.

(** [voteRequestSchema.safeParse(body)]: the schema declares [answerId]
    only, and a zod object keeps the declared keys only. *)
Definition voteRequestSchema (body : VoteBody) : option VoteRequest :=
  if uuid (body_answerId body) then Some (mkVoteRequest (body_answerId body))
  else None.

(** [const { answerId, clientId } = validation.data]: the parsed object has
    no [clientId]. *)
Definition clientId_of (data : VoteRequest) : option string := None.

(** [handleVote] of routes/vote.ts, for either [generateFingerprint]
    ([generate]); a call with one argument too many ignores it. *)
Definition handleVote (generate : HttpRequest -> option string -> string)
           (ns : Namespace) (env : Env) (pollId : string) (request : HttpRequest)
  : Completion ApiResponse * Namespace :=
  match json_body request with
  | None => (Return (errorResponse "Invalid JSON" 400 VALIDATION_ERROR), ns)
  | Some body =>
      match voteRequestSchema body with
      | None =>
          (Return (errorResponse "Invalid request body" 400 VALIDATION_ERROR), ns)
      | Some data =>
          let answerId := vr_answerId data in
          let clientId := clientId_of data in
          let voterFingerprint := generate request clientId in
          match callDO ns pollId env (vote answerId voterFingerprint) with
          | (Throw e, ns1) => (Throw e, ns1)
          | (Return doResponse, ns1) => (Return (vote_reply doResponse), ns1)
          end
      end
  end.

(** The route as deployed with lib/fingerprint.ts. *)
Definition handleVote_ip_userAgent :=
  handleVote (fun request _ => generateFingerprint request).

(** The route with the two-parameter [generateFingerprint]. *)
Definition handleVote_ip_clientId := handleVote generateFingerprint_clientId.

End Platform.

End VoteRoute.

(** The fingerprints of a sequence of calls that are not in [seen] yet, each
    at its first occurrence. *)
Fixpoint first_votes (seen : list string) (calls : list VoteCall) : list string :=
  match calls with
  | [] => []
  | c :: rest =>
      if in_dec string_dec (call_fingerprint c) seen
      then first_votes seen rest
      else call_fingerprint c :: first_votes (seen ++ [call_fingerprint c]) rest
  end.

(** The poll is open for votes. *)
Definition is_published (s : PollVoteCounter) : Prop :=
  exists row, Sql.select_poll_limit_1 (sql s) = Some row /\ p_status row = published.

(** Three calls against the poll of [one_vote_history]: fp1 again, then fp2
    twice. *)
Definition three_calls : list VoteCall :=
  [ mkVoteCall (env_at 4 "k") "a0" "fp1";
    mkVoteCall (env_at 5 "l") "a1" "fp2";
    mkVoteCall (env_at 6 "m") "a0" "fp2" ].

(** ** Reading the answers of [check-voted] *)

(** [hasVoted] and [answerId] of the response of [/check-voted]. *)
Definition checkVoted (fp : string) (s : PollVoteCounter) : bool * option string :=
  match fst (handleCheckVoted fp s) with
  | Return (mkResponse _ (JCheckVoted hasVoted answer)) => (hasVoted, answer)
  | _ => (false, None)
  end.

(** ** Counting resets *)

Definition is_reset (e : Event) : bool :=
  match e with
  | Fetch _ reset => true
  | _ => false
  end.

(** The number of [reset] requests in a history. *)
Definition resets (history : list Event) : nat :=
  List.length (filter is_reset history).

(** ** The order of the answers *)

(** [display_order] numbers the answer rows from 0 in rowid order. *)
Definition orders_from_zero (db : SqlStorage) : Prop :=
  map a_display_order (answers db) = seq 0 (List.length (answers db)).

(** ** The subscribers *)



(** The history of [one_vote] followed by [close]. *)
Definition closed_poll : PollVoteCounter :=
  run one_vote [Fetch (env_at 4 "c") close].

(** ** cms-worker/src/routes/polls.ts, the other admin routes *)

(** [UpdatePollRequest] of shared/src/types.ts. *)
Record UpdatePollRequest : Set := mkUpdatePollRequest {
  u_question : option string;
  u_answers : option (list string)
}.

(** [updatePollSchema.safeParse(body).success]: each field, when present,
    meets the constraints of creation, and one of them is present. *)
Definition updatePollSchema (body : UpdatePollRequest) : bool :=
  match u_question body with
  | Some q => string_min_max POLL_CONSTRAINTS.QUESTION_MIN_LENGTH
                             POLL_CONSTRAINTS.QUESTION_MAX_LENGTH q
  | None => true
  end
  && match u_answers body with
     | Some texts =>
         forallb (string_min_max POLL_CONSTRAINTS.ANSWER_MIN_LENGTH
                                 POLL_CONSTRAINTS.ANSWER_MAX_LENGTH) texts
         && (POLL_CONSTRAINTS.MIN_ANSWERS <=? List.length texts)%nat
         && (List.length texts <=? POLL_CONSTRAINTS.MAX_ANSWERS)%nat
         && unique_answers texts
     | None => true
     end
  && match u_question body, u_answers body with
     | None, None => false
     | _, _ => true
     end.

(** [getPollIndex]: the identifiers the index actor lists, [[]] when the
    request fails. *)
Definition getPollIndex (ns : Namespace) (env : Env) : list string * Namespace :=
  match callDO ns POLL_INDEX_KEY env get_index with
  | (Return response, ns1) =>
      (if ok response
       then match r_body response with
            | JIndex pollIds => pollIds
            | _ => []
            end
       else [], ns1)
  | (Throw _, ns1) => ([], ns1)
  end.

(** [handleGetPoll] of the admin API *)
Definition handleGetPoll (ns : Namespace) (doEnv : nat -> Env) (pollId : string)
  : Completion ApiResponse * Namespace :=
  match callDO ns pollId (doEnv 0) get with
  | (Throw e, ns1) => (Throw e, ns1)
  | (Return response, ns1) =>
      if negb (ok response)
      then
        if (r_status response =? 404)%nat
        then (Return (errorResponse "Poll not found" 404 POLL_NOT_FOUND), ns1)
        else (Return (errorResponse "Failed to get poll" 500 INTERNAL_ERROR), ns1)
      else (Return (mkApi 200 (APoll (transformPollResponse (r_body response)))), ns1)
  end.

(** [handleUpdatePoll]; [body] is [None] when [c.req.json()] throws. *)
Definition handleUpdatePoll (ns : Namespace) (doEnv : nat -> Env) (pollId : string)
           (body : option UpdatePollRequest) : Completion ApiResponse * Namespace :=
  match body with
  | None => (Return (errorResponse "Invalid JSON" 400 VALIDATION_ERROR), ns)
  | Some data =>
      if negb (updatePollSchema data)
      then (Return (errorResponse "Validation failed" 400 VALIDATION_ERROR), ns)
      else
        match callDO ns pollId (doEnv 0)
                     (update (u_question data) (u_answers data)) with
        | (Throw e, ns1) => (Throw e, ns1)
        | (Return response, ns1) =>
            if negb (ok response)
            then
              if (r_status response =? 404)%nat
              then (Return (errorResponse "Poll not found" 404 POLL_NOT_FOUND), ns1)
              else if is_error (r_body response) "Can only update draft polls"
              then (Return (errorResponse "Cannot modify published poll" 403
                                          POLL_IMMUTABLE), ns1)
              else (Return (errorResponse "Failed to update poll" 500
                                          INTERNAL_ERROR), ns1)
            else (Return (mkApi 200 (APoll (transformPollResponse
                                              (r_body response)))), ns1)
        end
  end.

(** [handlePublishPoll] *)
Definition handlePublishPoll (ns : Namespace) (doEnv : nat -> Env) (pollId : string)
  : Completion ApiResponse * Namespace :=
  match callDO ns pollId (doEnv 0) publish with
  | (Throw e, ns1) => (Throw e, ns1)
  | (Return response, ns1) =>
      if negb (ok response)
      then
        if (r_status response =? 404)%nat
        then (Return (errorResponse "Poll not found" 404 POLL_NOT_FOUND), ns1)
        else if is_error (r_body response) "Poll is not in draft status"
        then (Return (errorResponse "Poll is not in draft status" 400
                                    VALIDATION_ERROR), ns1)
        else (Return (errorResponse "Failed to publish poll" 500 INTERNAL_ERROR), ns1)
      else (Return (mkApi 200 (APoll (transformPollResponse (r_body response)))), ns1)
  end.

(** [handleClosePoll] *)
Definition handleClosePoll (ns : Namespace) (doEnv : nat -> Env) (pollId : string)
  : Completion ApiResponse * Namespace :=
  match callDO ns pollId (doEnv 0) close with
  | (Throw e, ns1) => (Throw e, ns1)
  | (Return response, ns1) =>
      if negb (ok response)
      then
        if (r_status response =? 404)%nat
        then (Return (errorResponse "Poll not found" 404 POLL_NOT_FOUND), ns1)
        else if is_error (r_body response) "Poll is not published"
        then (Return (errorResponse "Poll is not published" 400 VALIDATION_ERROR), ns1)
        else (Return (errorResponse "Failed to close poll" 500 INTERNAL_ERROR), ns1)
      else (Return (mkApi 200 (APoll (transformPollResponse (r_body response)))), ns1)
  end.

(** [handleResetPoll] *)
Definition handleResetPoll (ns : Namespace) (doEnv : nat -> Env) (pollId : string)
  : Completion ApiResponse * Namespace :=
  match callDO ns pollId (doEnv 0) reset with
  | (Throw e, ns1) => (Throw e, ns1)
  | (Return response, ns1) =>
      if negb (ok response)
      then
        if (r_status response =? 404)%nat
        then (Return (errorResponse "Poll not found" 404 POLL_NOT_FOUND), ns1)
        else (Return (errorResponse "Failed to reset poll" 500 INTERNAL_ERROR), ns1)
      else (Return (mkApi 200 (APoll (transformPollResponse (r_body response)))), ns1)
  end.

(** The status a reply of the admin API shows, when it shows a poll. *)
Definition shown_status (c : Completion ApiResponse) : option Status :=
  match c with
  | Return (mkApi _ (APoll (Some p))) => Some (ap_status p)
  | _ => None
  end.

(** The error code of a reply, when it is an error. *)
Definition error_code (c : Completion ApiResponse) : option (nat * ERROR_CODES) :=
  match c with
  | Return (mkApi status (AError _ (Some code))) => Some (status, code)
  | _ => None
  end.

(** Two namespaces hold the same actors. *)
Definition same_actors (ns ns' : Namespace) : Prop :=
  forall name, ns' name = ns name.


(** ** embed-worker/src/routes/poll.ts and stream.ts: the public reads *)

Module EmbedRoutes.

(** The object [handleGetPoll] of the public API builds. *)
Record PublicPoll : Set := mkPublicPoll {
  pp_id : string;
  pp_question : string;
  pp_status : Status;
  pp_created_at : Z;
  pp_updated_at : Z;
  pp_published_at : option Z;
  pp_closed_at : option Z;
  pp_reset_count : nat;
  pp_totalVotes : nat;
  pp_answers : list ApiAnswer
}.

Inductive Reply : Set :=
| RError (error : string) (status : nat) (code : ERROR_CODES)  (* errorResponse *)
| RPoll (p : PublicPoll)                    (* jsonResponse(response), 200 *)
| RPassed (status : nat) (text : Json)      (* the actor's error, passed through *)
| REventStream                              (* 200, text/event-stream *)
| RHtml (pollId : string).                  (* 200, generateEmbedHTML(pollId) *)

(** [handleGetPoll] of routes/poll.ts.  [poll.reset_count || 0] is the
    stored count; a body without [answers] makes [.map] throw. *)
Definition handleGetPoll (ns : Namespace) (env : Env) (pollId : string)
  : Completion Reply * Namespace :=
  match callDO ns pollId env get with
  | (Throw e, ns1) => (Throw e, ns1)
  | (Return doResponse, ns1) =>
      if negb (ok doResponse)
      then
        if (r_status doResponse =? 404)%nat
        then (Return (RError "Poll not found" 404 POLL_NOT_FOUND), ns1)
        else (Return (RError "Failed to get poll" 500 INTERNAL_ERROR), ns1)
      else
        match r_body doResponse with
        | JPoll p =>
            if Status_eqb (p_status (poll_row p)) draft
            then (Return (RError "Poll not published" 403 POLL_NOT_PUBLISHED), ns1)
            else
              (Return (RPoll (mkPublicPoll
                 (p_id (poll_row p)) (p_question (poll_row p))
                 (p_status (poll_row p)) (p_created_at (poll_row p))
                 (p_updated_at (poll_row p)) (p_published_at (poll_row p))
                 (p_closed_at (poll_row p)) (p_reset_count (poll_row p))
                 (totalVotes p)
                 (map (fun a => mkApiAnswer (answer_id a) (answer_text a)
                                            (display_order a) (votes_of a)
                                            (percentage a))
                      (answers_of p)))), ns1)
        | _ => (Throw "TypeError", ns1)
        end
  end.

(** [handleStream] of routes/stream.ts: the request goes to the actor's
    [/stream] at once. *)
Definition handleStream (ns : Namespace) (env : Env) (pollId : string)
  : Completion Reply * Namespace :=
  match callDO ns pollId env stream with
  | (Throw e, ns1) => (Throw e, ns1)
  | (Return response, ns1) =>
      if negb (ok response)
      then (Return (RPassed (r_status response) (r_body response)), ns1)
      else (Return REventStream, ns1)
  end.


(** [handleEmbed] of routes/embed.ts: the page of the widget, served after
    the same reading of the poll. *)
Definition handleEmbed (ns : Namespace) (env : Env) (pollId : string)
  : Completion Reply * Namespace :=
  match callDO ns pollId env get with
  | (Throw e, ns1) => (Throw e, ns1)
  | (Return checkResponse, ns1) =>
      if negb (ok checkResponse)
      then
        if (r_status checkResponse =? 404)%nat
        then (Return (RError "Poll not found" 404 POLL_NOT_FOUND), ns1)
        else (Return (RError "Failed to get poll" 500 INTERNAL_ERROR), ns1)
      else
        let is_draft := match r_body checkResponse with
                        | JPoll p => Status_eqb (p_status (poll_row p)) draft
                        | _ => false
                        end in
        if is_draft
        then (Return (RError "Poll not published" 403 POLL_NOT_PUBLISHED), ns1)
        else (Return (RHtml pollId), ns1)
  end.


End EmbedRoutes.

(** ** cms-worker/src/index.ts: the routes of one poll *)

Inductive PollRoute : Set :=
| GET_poll                                           (* GET /api/polls/:pollId *)
| PUT_poll (body : option UpdatePollRequest)         (* PUT /api/polls/:pollId *)
| DELETE_poll                                        (* DELETE /api/polls/:pollId *)
| POST_publish                                       (* POST .../publish *)
| POST_close                                         (* POST .../close *)
| POST_reset.                                        (* POST .../reset *)

Definition route (r : PollRoute) (ns : Namespace) (doEnv : nat -> Env)
           (pollId : string) : Completion ApiResponse * Namespace :=
  match r with
  | GET_poll => handleGetPoll ns doEnv pollId
  | PUT_poll body => handleUpdatePoll ns doEnv pollId body
  | DELETE_poll => handleDeletePoll ns doEnv pollId
  | POST_publish => handlePublishPoll ns doEnv pollId
  | POST_close => handleClosePoll ns doEnv pollId
  | POST_reset => handleResetPoll ns doEnv pollId
  end.

(** [app.onError]: an exception of a handler becomes a reply. *)
Definition onError (c : Completion ApiResponse) : ApiResponse :=
  match c with
  | Return response => response
  | Throw _ => mkApi 500 (AError "Internal server error" None)
  end.

Definition app (r : PollRoute) (ns : Namespace) (doEnv : nat -> Env)
           (pollId : string) : ApiResponse * Namespace :=
  let (c, ns') := route r ns doEnv pollId in (onError c, ns').

(** The body of the request, if the route reads one, passes its schema. *)
Definition valid_body (r : PollRoute) : bool :=
  match r with
  | PUT_poll (Some data) => updatePollSchema data
  | PUT_poll None => false
  | _ => true
  end.

(** ** [handleListPolls] of cms-worker/src/routes/polls.ts *)

(** The query string: the parameters that are present, as texts. *)
Record ListQuery : Set := mkListQuery {
  q_status : option string;
  q_limit : option string;
  q_offset : option string
}.

(** [pollStatusSchema]: the enumeration of the three status names. *)
Definition pollStatusSchema (text : string) : option Status :=
  if String.eqb text "draft" then Some draft
  else if String.eqb text "published" then Some published
  else if String.eqb text "closed" then Some closed
  else None.

(** One element of [polls] in the reply of [handleListPolls]. *)
Record PollSummary : Set := mkPollSummary {
  ps_id : string;
  ps_question : string;
  ps_status : Status;
  ps_totalVotes : nat;
  ps_createdAt : Z;
  ps_publishedAt : option Z;
  ps_closedAt : option Z
}.

Record PollList : Set := mkPollList {
  pl_polls : list PollSummary;
  pl_total : nat;
  pl_limit : nat;
  pl_offset : nat
}.

Inductive ListReply : Set :=
| LError (error : string) (status : nat) (code : ERROR_CODES)
| LPolls (list : PollList).

(** [pollIds.map(async ...)] then [.filter(Boolean)]: the polls of the
    actors that answer [/get] with success, in the order of [pollIds]; the
    [k]-th call reads [doEnv k].  The body of a successful answer to [/get]
    is a poll ([handleGet]). *)
Fixpoint get_polls (ns : Namespace) (doEnv : nat -> Env) (k : nat)
         (pollIds : list string) : list PollWithAnswers * Namespace :=
  match pollIds with
  | [] => ([], ns)
  | pollId :: rest =>
      let (c, ns1) := callDO ns pollId (doEnv k) get in
      let (polls, ns2) := get_polls ns1 doEnv (S k) rest in
      (match c with
       | Return response =>
           if ok response
           then match r_body response with
                | JPoll p => p :: polls
                | _ => polls
                end
           else polls
       | Throw _ => polls
       end, ns2)
  end.

(** [sort((a, b) => b.created_at - a.created_at)]: newest first, polls of
    the same time in their former order. *)
Fixpoint insert_poll_newest_first (p : PollWithAnswers) (l : list PollWithAnswers)
  : list PollWithAnswers :=
  match l with
  | [] => [p]
  | x :: l' =>
      if (p_created_at (poll_row x) <=? p_created_at (poll_row p))%Z then p :: l
      else x :: insert_poll_newest_first p l'
  end.

Definition sort_newest_first (l : list PollWithAnswers) : list PollWithAnswers :=
  fold_right insert_poll_newest_first [] l.

(** [slice(offset, offset + limit)] *)
Definition slice {A} (offset limit : nat) (l : list A) : list A :=
  firstn limit (skipn offset l).

Definition summary (p : PollWithAnswers) : PollSummary :=
  mkPollSummary (p_id (poll_row p)) (p_question (poll_row p))
                (p_status (poll_row p)) (totalVotes p)
                (p_created_at (poll_row p)) (p_published_at (poll_row p))
                (p_closed_at (poll_row p)).

Section ListPolls.

(** [Number(text)] of the language, when the number is an integer. *)
Variable Number_integer : string -> option Z.

(** [z.coerce.number().int()] with a lower and an upper bound, and a
    default for a missing parameter. *)
Definition coerce_int (lo : Z) (hi : option Z) (default : nat)
           (param : option string) : option nat :=
  match param with
  | None => Some default
  | Some text =>
      match Number_integer text with
      | Some n =>
          if (lo <=? n)%Z && match hi with Some h => (n <=? h)%Z | None => true end
          then Some (Z.to_nat n)
          else None
      | None => None
      end
  end.

(** [pollListQuerySchema.safeParse(queryParams)] *)
Definition pollListQuerySchema (q : ListQuery)
  : option (option Status * nat * nat) :=
  match q_status q with
  | Some text =>
      match pollStatusSchema text, coerce_int 1 (Some 100%Z) 50 (q_limit q),
            coerce_int 0 None 0 (q_offset q) with
      | Some status, Some limit, Some offset => Some (Some status, limit, offset)
      | _, _, _ => None
      end
  | None =>
      match coerce_int 1 (Some 100%Z) 50 (q_limit q),
            coerce_int 0 None 0 (q_offset q) with
      | Some limit, Some offset => Some (None, limit, offset)
      | _, _ => None
      end
  end.

Definition handleListPolls (ns : Namespace) (doEnv : nat -> Env) (q : ListQuery)
  : ListReply * Namespace :=
  match pollListQuerySchema q with
  | None => (LError "Invalid query parameters" 400 VALIDATION_ERROR, ns)
  | Some (status, limit, offset) =>
      let (pollIds, ns1) := getPollIndex ns (doEnv 0) in
      let (allPolls, ns2) := get_polls ns1 doEnv 1 pollIds in
      let filteredPolls :=
        sort_newest_first
          match status with
          | Some wanted =>
              filter (fun p => Status_eqb (p_status (poll_row p)) wanted) allPolls
          | None => allPolls
          end in
      let paginatedPolls := slice offset limit filteredPolls in
      (LPolls (mkPollList (map summary paginatedPolls)
                          (List.length filteredPolls) limit offset), ns2)
  end.

End ListPolls.

(** The polls stored by the actors named in [pollIds], in that order. *)
Definition stored_polls (ns : Namespace) (pollIds : list string)
  : list PollWithAnswers :=
  flat_map (fun pollId =>
              match fst (handleGet (ns pollId)) with
              | Return (mkResponse _ (JPoll p)) => [p]
              | _ => []
              end) pollIds.

(** The identifiers the index actor holds, newest first. *)
Definition indexed (ns : Namespace) : list string :=
  listIndex (ns POLL_INDEX_KEY).

(** Newest first, by the time of creation. *)
Definition newest_first (polls : list PollSummary) : Prop :=
  StronglySorted (fun a b => (ps_createdAt b <= ps_createdAt a)%Z) polls.

(** The polls a status filter keeps. *)
Definition wanted (status : option Status) (p : PollWithAnswers) : bool :=
  match status with
  | Some st => Status_eqb (p_status (poll_row p)) st
  | None => true
  end.

(** A namespace with one poll, created through the admin API. *)
Definition one_poll : Namespace :=
  snd (handleCreatePoll no_actors (env_at 0 "p") (doEnv_at 1)
                        (Some (mkCreatePollRequest "Q?" ["A"; "B"]))).

(** The requests that write the table [poll_index]. *)
Definition writes_index (request : Request) : bool :=
  match request with
  | add_to_index _ | remove_from_index _ => true
  | _ => false
  end.

(** ** Reading a hexadecimal text back *)

Definition hex_value (c : ascii) : N :=
  let n := N_of_ascii c in
  if (n <? 58)%N then (n - 48)%N else (n - 87)%N.

Definition lower_hex (c : ascii) : bool :=
  let n := N_of_ascii c in
  ((48 <=? n)%N && (n <=? 57)%N) || ((97 <=? n)%N && (n <=? 102)%N).

(** Two characters make one byte. *)
Fixpoint unhex (text : string) : list Byte.byte :=
  match text with
  | String c1 (String c2 rest) =>
      match Byte.of_N (16 * hex_value c1 + hex_value c2) with
      | Some b => b :: unhex rest
      | None => []
      end
  | _ => []
  end.

(** What [generateFingerprint] of lib/fingerprint.ts hashes: [data]. *)
Definition fingerprint_data (request : HttpRequest) : list Byte.byte :=
  list_byte_of_string
    (String.append (or_unknown (CF_Connecting_IP request))
                   (String.append ":" (or_unknown (User_Agent request)))).

(** ** The times the actor records *)

(** At time [t]: the poll was created, then published, then closed, and
    last written, in that order and not after [t]; every vote was cast
    after the publication, not after [t], and before the closing. *)
Definition times_ok (t : Z) (db : SqlStorage) : Prop :=
  forall row, In row (poll db) ->
    (p_created_at row <= p_updated_at row <= t)%Z /\
    (forall p, p_published_at row = Some p ->
               (p_created_at row <= p <= p_updated_at row)%Z) /\
    (forall c, p_closed_at row = Some c ->
               (c <= p_updated_at row)%Z /\
               exists p, p_published_at row = Some p /\ (p <= c)%Z) /\
    (forall v, In v (votes db) ->
               (v_voted_at v <= t)%Z /\
               (exists p, p_published_at row = Some p /\ (p <= v_voted_at v)%Z) /\
               (forall c, p_closed_at row = Some c -> (v_voted_at v <= c)%Z)).

(** The clock of the requests of a history never goes back, from [t] on. *)
Fixpoint in_time_order (t : Z) (history : list Event) : Prop :=
  match history with
  | [] => True
  | Fetch env _ :: rest => (t <= now env)%Z /\ in_time_order (now env) rest
  | Disconnect _ :: rest => in_time_order t rest
  end.

(** The time of the last request of a history, [t] if there is none. *)
Definition last_clock (t : Z) (history : list Event) : Z :=
  fold_left (fun t e => match e with Fetch env _ => now env | Disconnect _ => t end)
            history t.

(** ** Histories of calls to the two workers *)

(** One call: a route of the admin API or of the public API, with what it
    reads from the platform. *)
Inductive ApiCall : Type :=
| POST_polls (env : Env) (doEnv : nat -> Env) (body : option CreatePollRequest)
| GET_polls (Number_integer : string -> option Z) (doEnv : nat -> Env) (q : ListQuery)
| On_poll (r : PollRoute) (doEnv : nat -> Env) (pollId : string)
| GET_public_poll (env : Env) (pollId : string)
| POST_vote (uuid : string -> bool)
            (generate : HttpRequest -> option string -> string)
            (env : Env) (pollId : string) (request : HttpRequest)
| GET_stream (env : Env) (pollId : string)
| GET_embed (env : Env) (pollId : string).

(** The actors after a call. *)
Definition serve (ns : Namespace) (call : ApiCall) : Namespace :=
  match call with
  | POST_polls env doEnv body => snd (handleCreatePoll ns env doEnv body)
  | GET_polls Number_integer doEnv q => snd (handleListPolls Number_integer ns doEnv q)
  | On_poll r doEnv pollId => snd (app r ns doEnv pollId)
  | GET_public_poll env pollId => snd (EmbedRoutes.handleGetPoll ns env pollId)
  | POST_vote uuid generate env pollId request =>
      snd (VoteRoute.handleVote uuid generate ns env pollId request)
  | GET_stream env pollId => snd (EmbedRoutes.handleStream ns env pollId)
  | GET_embed env pollId => snd (EmbedRoutes.handleEmbed ns env pollId)
  end.

(** The actors after a history of calls, oldest first. *)
Definition serve_all (ns : Namespace) (calls : list ApiCall) : Namespace :=
  fold_left serve calls ns.

(** The actor stores a poll. *)
Definition holds_poll (s : PollVoteCounter) : bool :=
  match Sql.select_poll_limit_1 (sql s) with
  | Some _ => true
  | None => false
  end.

(** ** The form of the admin UI: [PollForm] *)

(** What the form holds: [question] and [answers] of [useState]. *)
Record FormState : Set := mkFormState {
  f_question : string;
  f_answers : list string
}.

Section PollForm.

(** [String.prototype.trim], a function of the language. *)
Variable trim : string -> string.

(** [answers.filter((a) => a.trim())] *)
Definition validAnswers (answers : list string) : list string :=
  filter (fun a => negb (String.eqb (trim a) "")) answers.

(** [validateForm]: no error was recorded. *)
Definition validateForm (st : FormState) : bool :=
  let question_error :=
    if String.eqb (trim (f_question st)) "" then true
    else (500 <? String.length (f_question st))%nat in
  let answers_error :=
    if (List.length (validAnswers (f_answers st)) <? 2)%nat then true
    else if (10 <? List.length (validAnswers (f_answers st)))%nat then true
    else negb (unique_answers (validAnswers (f_answers st))) in
  negb question_error && negb answers_error.

(** [handleSubmit]: what [onSubmit] receives, if it is called; [PollCreate]
    sends it as the body of the creation. *)
Definition handleSubmit (st : FormState) : option CreatePollRequest :=
  if negb (validateForm st) then None
  else Some (mkCreatePollRequest (trim (f_question st))
                                 (validAnswers (f_answers st))).

End PollForm.

(** The characters [trim] removes, among the first 128. *)
Definition white_space (c : ascii) : bool :=
  let n := nat_of_ascii c in
  ((9 <=? n) && (n <=? 13) || (n =? 32))%nat.

Fixpoint trimStart (text : string) : string :=
  match text with
  | String c rest => if white_space c then trimStart rest else text
  | EmptyString => EmptyString
  end.

Fixpoint trimEnd (text : string) : string :=
  match text with
  | String c rest =>
      match trimEnd rest with
      | EmptyString => if white_space c then EmptyString else String c EmptyString
      | kept => String c kept
      end
  | EmptyString => EmptyString
  end.

(** [trim] on texts of the first 128 characters. *)
Definition trim_ascii (text : string) : string := trimEnd (trimStart text).

(** * Properties *)

Lemma Status_eqb_eq (a b : Status) : Status_eqb a b = true <-> a = b.
Proof. destruct a, b; simpl; split; congruence. Qed.

Lemma Inv_empty : Inv Sql.empty.
Proof.
  constructor; simpl; auto using NoDup_nil; intros; try contradiction.
Qed.

(** Unfolding the monad of the handlers. *)
Ltac run_do :=
  unfold json, ret, bind, query, exec, exec_insert in *; simpl in *.

Lemma existsb_key_false {A} (key : A -> string) (k : string) (l : list A) :
  existsb (fun r => String.eqb (key r) k) l = false -> ~ In k (map key l).
Proof.
  induction l as [|x l IH]; simpl; intros H; [tauto|].
  apply orb_false_iff in H. destruct H as [Hx Hl].
  apply String.eqb_neq in Hx. intros [E|E]; [congruence|]. now apply IH.
Qed.

Lemma existsb_key_true {A} (key : A -> string) (k : string) (l : list A) :
  existsb (fun r => String.eqb (key r) k) l = true -> In k (map key l).
Proof.
  induction l as [|x l IH]; simpl; intros H; [discriminate|].
  apply orb_true_iff in H. destruct H as [Hx|Hl].
  - left. now apply String.eqb_eq.
  - right. now apply IH.
Qed.

Lemma NoDup_snoc {A} (l : list A) (x : A) :
  NoDup l -> ~ In x l -> NoDup (l ++ [x]).
Proof.
  intros Hl Hx. induction Hl as [|y l Hy Hl IH]; simpl.
  - constructor; [tauto|constructor].
  - constructor.
    + rewrite in_app_iff. simpl. intros [H|[H|[]]]; [tauto|].
      subst. apply Hx. now left.
    + apply IH. intros H. apply Hx. now right.
Qed.

Lemma NoDup_app_mid_not_in {A} (l r : list A) (x : A) :
  NoDup (l ++ x :: r) -> ~ In x l.
Proof.
  intros H Hin. apply NoDup_remove_2 in H. apply H. apply in_or_app. now left.
Qed.

Lemma find_key_none {A} (key : A -> string) (k : string) (l : list A) :
  find (fun r => String.eqb (key r) k) l = None -> ~ In k (map key l).
Proof.
  induction l as [|x l IH]; simpl; [tauto|].
  destruct (String.eqb (key x) k) eqn:E; [discriminate|].
  apply String.eqb_neq in E. intros H [F|F]; [congruence|]. now apply IH.
Qed.

Lemma find_key_some {A} (key : A -> string) (k : string) (l : list A) (r : A) :
  find (fun r => String.eqb (key r) k) l = Some r -> In r l /\ key r = k.
Proof.
  intros H. apply find_some in H. destruct H as [H1 H2].
  split; [assumption|]. now apply String.eqb_eq.
Qed.

(** The insert loop touches the [answers] table only, and only appends. *)
Lemma insert_answers_frame (env : Env) (texts : list string) :
  forall i s,
    let s' := snd (insert_answers env i texts s) in
    poll (sql s') = poll (sql s) /\
    votes (sql s') = votes (sql s) /\
    poll_index (sql s') = poll_index (sql s) /\
    connections s' = connections s /\
    (NoDup (map a_id (answers (sql s))) -> NoDup (map a_id (answers (sql s')))) /\
    exists added, answers (sql s') = answers (sql s) ++ added.
Proof.
  induction texts as [|text rest IH]; intros i s; simpl.
  - repeat split; auto. exists []. now rewrite app_nil_r.
  - unfold bind, exec_insert, Sql.insert_answer.
    destruct (existsb _ (answers (sql s))) eqn:E; simpl.
    + repeat split; auto. exists []. now rewrite app_nil_r.
    + specialize (IH (S i)
        (mkDO (mkSql (poll (sql s))
                     (answers (sql s) ++ [mkAnswerData (randomUUID env i) text i])
                     (votes (sql s)) (poll_index (sql s)))
              (connections s))).
      simpl in IH.
      destruct (insert_answers env (S i) rest _) as [c s'] eqn:R. simpl in *.
      destruct IH as (Hp & Hv & Hi & Hc & Hn & added & Ha).
      destruct c; simpl; repeat split; auto.
      all: try (intros Hnd; apply Hn; rewrite map_app; simpl;
                apply NoDup_snoc; [assumption|]; now apply existsb_key_false).
      all: exists (mkAnswerData (randomUUID env i) text i :: added);
           rewrite Ha, <- app_assoc; reflexivity.
Qed.

Lemma handleGet_state (s : PollVoteCounter) : snd (handleGet s) = s.
Proof.
  unfold handleGet. run_do. destruct (Sql.select_poll_limit_1 (sql s)); reflexivity.
Qed.

Lemma handleGet_sql (s : PollVoteCounter) : sql (snd (handleGet s)) = sql s.
Proof. now rewrite handleGet_state. Qed.

Lemma Inv_update_poll (f : PollData -> PollData) (db : SqlStorage) :
  Inv db ->
  (forall row, In row (poll db) -> stamps_ok row -> stamps_ok (f row)) ->
  (forall row, In row (poll db) -> p_status (f row) = draft -> p_status row = draft) ->
  Inv (Sql.update_poll f db).
Proof.
  intros [H1 H2 H3 H4 H5 H6 H7 H8 H9] Hs Hd. constructor; simpl; auto.
  - now rewrite length_map.
  - intros E. apply map_eq_nil in E. auto.
  - intros row Hin Hst. apply in_map_iff in Hin. destruct Hin as (r0 & <- & Hin).
    apply (H3 r0); auto.
  - intros row Hin. apply in_map_iff in Hin. destruct Hin as (r0 & <- & Hin). auto.
Qed.

Lemma Inv_delete_from_votes (db : SqlStorage) :
  Inv db -> Inv (Sql.delete_from_votes db).
Proof.
  intros [H1 H2 H3 H4 H5 H6 H7 H8 H9]. constructor; simpl; auto using NoDup_nil.
  - intros E. split; [reflexivity|]. now apply H2.
  - intros v [].
Qed.

Lemma stamps_set_question q t row : stamps_ok row -> stamps_ok (Sql.set_question q t row).
Proof. unfold stamps_ok; simpl; tauto. Qed.

Lemma stamps_set_updated_at t row : stamps_ok row -> stamps_ok (Sql.set_updated_at t row).
Proof. unfold stamps_ok; simpl; tauto. Qed.

Lemma stamps_bump_reset_count t row :
  stamps_ok row -> stamps_ok (Sql.bump_reset_count t row).
Proof. unfold stamps_ok; simpl; tauto. Qed.

Lemma stamps_set_published t row :
  p_status row = draft -> stamps_ok row -> stamps_ok (Sql.set_published t row).
Proof.
  unfold stamps_ok; simpl. intros E [H1 H2]. rewrite E in *. split; split.
  - now left.
  - discriminate.
  - intros H. apply H2 in H. discriminate.
  - discriminate.
Qed.

Lemma stamps_set_closed t row :
  p_status row = published -> stamps_ok row -> stamps_ok (Sql.set_closed t row).
Proof.
  unfold stamps_ok; simpl. intros E [H1 H2]. rewrite E in *. split; split.
  - now right.
  - intros _. apply H1. now left.
  - reflexivity.
  - discriminate.
Qed.

(** With at most one row, every row of [poll] is the one [LIMIT 1] returns. *)
Lemma single_row (db : SqlStorage) (row r : PollData) :
  (List.length (poll db) <= 1)%nat ->
  Sql.select_poll_limit_1 db = Some row -> In r (poll db) -> r = row.
Proof.
  unfold Sql.select_poll_limit_1. destruct (poll db) as [|x [|y l]]; simpl.
  - discriminate.
  - intros _ [= ->] [->|[]]. reflexivity.
  - lia.
Qed.

Lemma handleCreate_Inv env id question texts s :
  Inv (sql s) -> Inv (sql (snd (handleCreate env id question texts s))).
Proof.
  intros HI. unfold handleCreate. run_do.
  unfold Sql.select_poll_limit_1, Sql.insert_poll.
  destruct s as [[p a v ix] cs]. simpl in *.
  destruct p as [|row rest]; simpl; [|assumption].
  destruct (inv_no_poll HI eq_refl) as [Hv Ha]. simpl in Hv, Ha. subst v a.
  match goal with
  | |- context [insert_answers env 0 texts ?s0] => set (s1 := s0)
  end.
  destruct (insert_answers_frame env texts 0 s1) as (Fp & Fv & Fi & Fc & Fn & added & Fa).
  destruct (insert_answers env 0 texts s1) as [c s'] eqn:R. simpl in *.
  assert (HI' : Inv (sql s')).
  { constructor.
    - rewrite Fp. simpl. lia.
    - rewrite Fp. discriminate.
    - intros _ _ _. now rewrite Fv.
    - intros v. rewrite Fv. intros [].
    - apply Fn. constructor.
    - rewrite Fv. constructor.
    - rewrite Fv. constructor.
    - rewrite Fp. intros r [<-|[]]. unfold stamps_ok; simpl.
      split; split; try congruence. intros [H|H]; discriminate.
    - rewrite Fi. apply (inv_index_key HI). }
  destruct c; simpl; assumption.
Qed.

Lemma select_poll_In (db : SqlStorage) (row : PollData) :
  Sql.select_poll_limit_1 db = Some row -> In row (poll db).
Proof.
  unfold Sql.select_poll_limit_1. destruct (poll db); simpl; [discriminate|].
  intros [= ->]. now left.
Qed.

Lemma Inv_delete_from_answers (db : SqlStorage) :
  Inv db -> votes db = [] -> Inv (Sql.delete_from_answers db).
Proof.
  intros [I1 I2 I3 I4 I5 I6 I7 I8 I9] Hv. constructor; simpl; auto using NoDup_nil.
  intros v. rewrite Hv. intros [].
Qed.

(** The insert loop on a poll without votes. *)
Lemma insert_answers_Inv env texts i s :
  Inv (sql s) -> votes (sql s) = [] -> poll (sql s) <> [] ->
  Inv (sql (snd (insert_answers env i texts s))).
Proof.
  intros HI Hv Hp.
  destruct (insert_answers_frame env texts i s) as (Fp & Fv & Fi & Fc & Fn & added & Fa).
  simpl in *.
  destruct HI as [I1 I2 I3 I4 I5 I6 I7 I8 I9]. constructor.
  - now rewrite Fp.
  - rewrite Fp. intros E. contradiction.
  - intros. now rewrite Fv.
  - intros v. rewrite Fv, Hv. intros [].
  - now apply Fn.
  - now rewrite Fv.
  - now rewrite Fv.
  - rewrite Fp. assumption.
  - now rewrite Fi.
Qed.

Lemma handleUpdate_Inv env question texts s :
  Inv (sql s) -> Inv (sql (snd (handleUpdate env question texts s))).
Proof.
  intros HI. unfold handleUpdate. run_do.
  destruct (Sql.select_poll_limit_1 (sql s)) as [row|] eqn:Hrow; simpl; [|assumption].
  destruct (Status_eqb (p_status row) draft) eqn:Hst; simpl; [|assumption].
  apply Status_eqb_eq in Hst.
  pose proof (select_poll_In _ Hrow) as Hin.
  assert (Hv : votes (sql s) = []) by (apply (inv_draft HI row); assumption).
  assert (Hq : forall q, Inv (Sql.update_poll (Sql.set_question q (now env)) (sql s))).
  { intros q. apply Inv_update_poll; auto. }
  assert (Hne : poll (sql s) <> []) by (intros E; rewrite E in Hin; contradiction).
  destruct question as [q|], texts as [l|]; simpl;
    try (rewrite handleGet_sql; simpl; auto; fail).
  all: match goal with
       | |- context [insert_answers ?e 0 ?l ?s0] =>
           assert (HR : Inv (sql (snd (insert_answers e 0 l s0))));
           [ apply insert_answers_Inv; simpl; auto;
             try (apply Inv_delete_from_answers; simpl; auto);
             try (intros E; apply map_eq_nil in E; contradiction)
           | destruct (insert_answers e 0 l s0) as [c s3]; simpl in HR;
             destruct c; simpl; [|assumption];
             rewrite handleGet_sql; simpl; apply Inv_update_poll; auto ]
       end.
Qed.

Lemma handlePublish_Inv env s :
  Inv (sql s) -> Inv (sql (snd (handlePublish env s))).
Proof.
  intros HI. unfold handlePublish. run_do.
  destruct (Sql.select_poll_limit_1 (sql s)) as [row|] eqn:Hrow; simpl; [|assumption].
  destruct (Status_eqb (p_status row) draft) eqn:Hst; simpl; [|assumption].
  apply Status_eqb_eq in Hst. rewrite handleGet_sql. simpl.
  apply Inv_update_poll; auto.
  - intros r Hin Hs.
    assert (r = row) by (eapply single_row; eauto using inv_single). subst r.
    now apply stamps_set_published.
  - simpl. discriminate.
Qed.

Lemma handleClose_Inv env s :
  Inv (sql s) -> Inv (sql (snd (handleClose env s))).
Proof.
  intros HI. unfold handleClose. run_do.
  destruct (Sql.select_poll_limit_1 (sql s)) as [row|] eqn:Hrow; simpl; [|assumption].
  destruct (Status_eqb (p_status row) published) eqn:Hst; simpl; [|assumption].
  apply Status_eqb_eq in Hst. rewrite handleGet_sql. simpl.
  apply Inv_update_poll; auto.
  - intros r Hin Hs.
    assert (r = row) by (eapply single_row; eauto using inv_single). subst r.
    now apply stamps_set_closed.
  - simpl. discriminate.
Qed.

Lemma handleDelete_Inv s :
  Inv (sql s) -> Inv (sql (snd (handleDelete s))).
Proof.
  intros HI. unfold handleDelete. run_do.
  destruct (Sql.select_poll_limit_1 (sql s)) as [row|] eqn:Hrow; simpl; [|assumption].
  constructor; simpl; auto using NoDup_nil; try (intros; contradiction).
  apply (inv_index_key HI).
Qed.

Lemma handleReset_Inv env s :
  Inv (sql s) -> Inv (sql (snd (handleReset env s))).
Proof.
  intros HI. unfold handleReset. run_do.
  destruct (Sql.select_poll_limit_1 (sql s)) as [row|] eqn:Hrow; simpl; [|assumption].
  rewrite handleGet_sql. simpl.
  apply (Inv_update_poll (Sql.bump_reset_count (now env))
                         (db := Sql.delete_from_votes (sql s))); auto.
  now apply Inv_delete_from_votes.
Qed.

Lemma handleVote_Inv env answerId voterFingerprint s :
  Inv (sql s) -> Inv (sql (snd (handleVote env answerId voterFingerprint s))).
Proof.
  intros HI. unfold handleVote. run_do.
  destruct (Sql.select_poll_limit_1 (sql s)) as [row|] eqn:Hrow; simpl; [|assumption].
  destruct (Status_eqb (p_status row) draft) eqn:Hd; simpl; [assumption|].
  destruct (Status_eqb (p_status row) closed) eqn:Hc; simpl; [assumption|].
  destruct (Sql.select_answer answerId (sql s)) as [a|] eqn:Ha; simpl; [|assumption].
  destruct (Sql.select_vote voterFingerprint (sql s)) as [v|] eqn:Hv; simpl;
    [assumption|].
  unfold Sql.insert_vote.
  destruct (existsb _ (votes (sql s))) eqn:Hk; simpl; [assumption|].
  apply find_key_some in Ha. destruct Ha as [Ha1 Ha2].
  apply find_key_none in Hv. apply existsb_key_false in Hk.
  pose proof (select_poll_In _ Hrow) as Hin.
  destruct HI as [I1 I2 I3 I4 I5 I6 I7 I8 I9]. constructor; simpl; auto.
  - intros E. rewrite E in Hin. contradiction.
  - intros r Hr Hs. exfalso.
    assert (r = row) by (eapply single_row; eauto). subst r.
    rewrite Hs in Hd. discriminate.
  - intros v. rewrite in_app_iff. intros [Hold|[<-|[]]]; [auto|].
    exists a. simpl. split; assumption.
  - rewrite map_app. simpl. now apply NoDup_snoc.
  - rewrite map_app. simpl. now apply NoDup_snoc.
Qed.

Lemma NoDup_keys_filter {Row} (keep : Row -> bool) (key : Row -> string)
      (rows : list Row) :
  NoDup (map key rows) -> NoDup (map key (filter keep rows)).
Proof.
  induction rows as [|x rows IH]; simpl; [auto|].
  intros H. inversion H as [|? ? Hx Hl]; subst.
  destruct (keep x); simpl; [|auto]. constructor; [|auto].
  intros Hin. apply Hx. apply in_map_iff in Hin.
  destruct Hin as (y & Ey & Hy). apply filter_In in Hy.
  apply in_map_iff. exists y. tauto.
Qed.

Lemma Inv_insert_or_ignore_index id t db :
  Inv db -> Inv (Sql.insert_or_ignore_index id t db).
Proof.
  intros HI. unfold Sql.insert_or_ignore_index.
  destruct (existsb _ (poll_index db)) eqn:Hk; [assumption|].
  apply existsb_key_false in Hk.
  destruct HI as [I1 I2 I3 I4 I5 I6 I7 I8 I9]. constructor; simpl; auto.
  rewrite map_app. simpl. now apply NoDup_snoc.
Qed.

Lemma Inv_delete_index id db : Inv db -> Inv (Sql.delete_index id db).
Proof.
  intros [I1 I2 I3 I4 I5 I6 I7 I8 I9]. constructor; simpl; auto.
  now apply NoDup_keys_filter.
Qed.

(** Every request and every disconnection keeps the invariant. *)
Lemma step_Inv (s : PollVoteCounter) (e : Event) :
  Inv (sql s) -> Inv (sql (step s e)).
Proof.
  intros HI. destruct e as [env request|connectionId]; simpl; [|assumption].
  destruct request; simpl.
  - now apply handleCreate_Inv.
  - now rewrite handleGet_sql.
  - now apply handleUpdate_Inv.
  - now apply handlePublish_Inv.
  - now apply handleClose_Inv.
  - now apply handleDelete_Inv.
  - now apply handleReset_Inv.
  - now apply handleVote_Inv.
  - assumption.
  - assumption.
  - assumption.
  - now apply Inv_insert_or_ignore_index.
  - now apply Inv_delete_index.
  - assumption.
Qed.

Lemma run_Inv (history : list Event) :
  forall s, Inv (sql s) -> Inv (sql (run s history)).
Proof.
  induction history as [|e history IH]; intros s HI; simpl; [assumption|].
  apply IH. now apply step_Inv.
Qed.

Lemma reachable_Inv (history : list Event) : Inv (sql (run fresh history)).
Proof. apply run_Inv. apply Inv_empty. Qed.

Lemma find_key_in {A} (key : A -> string) (k : string) (l : list A) :
  In k (map key l) -> exists r, find (fun r => String.eqb (key r) k) l = Some r.
Proof.
  induction l as [|x l IH]; simpl; [tauto|].
  destruct (String.eqb (key x) k) eqn:E; [eauto|].
  apply String.eqb_neq in E. intros [H|H]; [congruence|auto].
Qed.

Lemma find_key_not_in {A} (key : A -> string) (k : string) (l : list A) :
  ~ In k (map key l) -> find (fun r => String.eqb (key r) k) l = None.
Proof.
  intros H. destruct (find _ l) as [r|] eqn:E; [|reflexivity].
  apply find_key_some in E. destruct E as [E1 E2]. exfalso. apply H.
  apply in_map_iff. eauto.
Qed.

Lemma existsb_key_not_in {A} (key : A -> string) (k : string) (l : list A) :
  ~ In k (map key l) -> existsb (fun r => String.eqb (key r) k) l = false.
Proof.
  intros H. destruct (existsb _ l) eqn:E; [|reflexivity].
  apply existsb_key_true in E. contradiction.
Qed.

(** The four refusals of a vote, each leaving the actor as it was. *)
Lemma handleVote_draft env answerId fp s row :
  Sql.select_poll_limit_1 (sql s) = Some row -> p_status row = draft ->
  handleVote env answerId fp s = (Return InvalidState_vote, s).
Proof.
  intros Hrow Hst. unfold handleVote. run_do. rewrite Hrow, Hst. reflexivity.
Qed.

Lemma handleVote_closed env answerId fp s row :
  Sql.select_poll_limit_1 (sql s) = Some row -> p_status row = closed ->
  handleVote env answerId fp s = (Return PollClosed, s).
Proof.
  intros Hrow Hst. unfold handleVote. run_do. rewrite Hrow, Hst. reflexivity.
Qed.

Lemma handleVote_invalid_answer env answerId fp s row :
  Sql.select_poll_limit_1 (sql s) = Some row -> p_status row = published ->
  ~ In answerId (map a_id (answers (sql s))) ->
  handleVote env answerId fp s = (Return InvalidAnswer, s).
Proof.
  intros Hrow Hst Ha. unfold handleVote. run_do. rewrite Hrow, Hst. simpl.
  unfold Sql.select_answer. rewrite (find_key_not_in _ _ _ Ha). reflexivity.
Qed.

Lemma handleVote_duplicate env answerId fp s row :
  Sql.select_poll_limit_1 (sql s) = Some row -> p_status row = published ->
  In answerId (map a_id (answers (sql s))) ->
  In fp (map v_voter_fingerprint (votes (sql s))) ->
  handleVote env answerId fp s = (Return DuplicateVote, s).
Proof.
  intros Hrow Hst Ha Hv. unfold handleVote. run_do. rewrite Hrow, Hst. simpl.
  unfold Sql.select_answer, Sql.select_vote.
  destruct (find_key_in _ _ _ Ha) as [a ->].
  destruct (find_key_in _ _ _ Hv) as [v ->]. reflexivity.
Qed.

Lemma handleVote_accepted env answerId fp s row :
  Sql.select_poll_limit_1 (sql s) = Some row -> p_status row = published ->
  In answerId (map a_id (answers (sql s))) ->
  ~ In fp (map v_voter_fingerprint (votes (sql s))) ->
  ~ In (randomUUID env 0) (map v_id (votes (sql s))) ->
  handleVote env answerId fp s =
  (Return (mkResponse 200
             (JCounts (getVoteCountsData (sql (accept_vote env answerId fp s))))),
   accept_vote env answerId fp s).
Proof.
  intros Hrow Hst Ha Hv Hk. unfold handleVote. run_do. rewrite Hrow, Hst. simpl.
  unfold Sql.select_answer, Sql.select_vote, Sql.insert_vote.
  destruct (find_key_in _ _ _ Ha) as [a ->].
  rewrite (find_key_not_in _ _ _ Hv), (existsb_key_not_in _ _ _ Hk). reflexivity.
Qed.

(** A vote that returns a success status passed the four checks. *)
Lemma handleVote_ok_inv env answerId fp s response :
  fst (handleVote env answerId fp s) = Return response -> ok response = true ->
  (exists row, Sql.select_poll_limit_1 (sql s) = Some row /\ p_status row = published) /\
  In answerId (map a_id (answers (sql s))) /\
  ~ In fp (map v_voter_fingerprint (votes (sql s))) /\
  snd (handleVote env answerId fp s) = accept_vote env answerId fp s.
Proof.
  unfold handleVote. run_do.
  destruct (Sql.select_poll_limit_1 (sql s)) as [row|] eqn:Hrow; simpl;
    [|intros [= <-]; discriminate].
  destruct (p_status row) eqn:Hst; simpl; try (intros [= <-]; discriminate).
  unfold Sql.select_answer, Sql.select_vote, Sql.insert_vote.
  destruct (find _ (answers (sql s))) as [a|] eqn:Ha; simpl;
    [|intros [= <-]; discriminate].
  destruct (find _ (votes (sql s))) as [v|] eqn:Hv; simpl;
    [intros [= <-]; discriminate|].
  destruct (existsb _ (votes (sql s))) eqn:Hk; simpl; [discriminate|].
  intros _ _. apply find_key_some in Ha. destruct Ha as [Ha1 Ha2].
  apply find_key_none in Hv. repeat split; eauto.
  apply in_map_iff. eauto.
Qed.

(** ** C1: the order of the checks of a vote *)

(** C1.  On an actor holding a poll, [vote(answer_id, voter_fingerprint)]
    checks in this order: a draft poll answers InvalidState (400, "Poll not
    published"); otherwise a closed poll answers PollClosed; otherwise an
    answer id that is not in the poll answers InvalidAnswer; otherwise a
    fingerprint that already has a vote answers DuplicateVote (409); each
    refusal leaves the actor unchanged.  When the four checks pass (and the
    fresh vote id is not a key of [votes]) the vote row is inserted and the
    recomputed counts are returned; a vote answered with a success status has
    passed the four checks.  The public route maps the four refusals to the
    codes POLL_NOT_PUBLISHED, POLL_CLOSED, INVALID_ANSWER and DUPLICATE_VOTE. *)
Theorem vote_preconditions_in_order
        (env : Env) (answerId fp : string) (s : PollVoteCounter) (row : PollData) :
  Sql.select_poll_limit_1 (sql s) = Some row ->
  let valid := In answerId (map a_id (answers (sql s))) in
  let voted := In fp (map v_voter_fingerprint (votes (sql s))) in
  (p_status row = draft ->
   handleVote env answerId fp s = (Return InvalidState_vote, s)) /\
  (p_status row = closed ->
   handleVote env answerId fp s = (Return PollClosed, s)) /\
  (p_status row = published -> ~ valid ->
   handleVote env answerId fp s = (Return InvalidAnswer, s)) /\
  (p_status row = published -> valid -> voted ->
   handleVote env answerId fp s = (Return DuplicateVote, s)) /\
  (p_status row = published -> valid -> ~ voted ->
   ~ In (randomUUID env 0) (map v_id (votes (sql s))) ->
   handleVote env answerId fp s =
   (Return (mkResponse 200
              (JCounts (getVoteCountsData (sql (accept_vote env answerId fp s))))),
    accept_vote env answerId fp s)) /\
  (forall response,
      fst (handleVote env answerId fp s) = Return response -> ok response = true ->
      p_status row = published /\ valid /\ ~ voted /\
      snd (handleVote env answerId fp s) = accept_vote env answerId fp s) /\
  vote_reply InvalidState_vote =
    errorResponse "Poll not published" 403 POLL_NOT_PUBLISHED /\
  vote_reply PollClosed = errorResponse "Poll is closed" 403 POLL_CLOSED /\
  vote_reply InvalidAnswer = errorResponse "Invalid answer ID" 400 INVALID_ANSWER /\
  vote_reply DuplicateVote = errorResponse "Already voted" 409 DUPLICATE_VOTE.
Proof.
  intros Hrow valid voted. subst valid voted.
  repeat match goal with |- _ /\ _ => split end; try reflexivity.
  - now apply handleVote_draft.
  - now apply handleVote_closed.
  - intros. now apply handleVote_invalid_answer with (row := row).
  - intros. now apply handleVote_duplicate with (row := row).
  - intros. now apply handleVote_accepted with (row := row).
  - intros response Hr Hok.
    destruct (handleVote_ok_inv env answerId fp s Hr Hok)
      as ((row' & Hrow' & Hst) & Ha & Hv & Hs).
    rewrite Hrow in Hrow'. injection Hrow' as <-. auto.
Qed.

(** The second vote of fp1 in the history above is a duplicate. *)
Lemma vote_preconditions_in_order_witness :
  handleVote (env_at 5 "w") "a0" "fp1" one_vote = (Return DuplicateVote, one_vote).
Proof.
  assert (Hrow : Sql.select_poll_limit_1 (sql one_vote) = Some one_vote_row)
    by reflexivity.
  destruct (vote_preconditions_in_order (env_at 5 "w") "a0" "fp1" one_vote Hrow)
    as (_ & _ & _ & H & _).
  apply H.
  - reflexivity.
  - vm_compute. left. reflexivity.
  - vm_compute. left. reflexivity.
Defined.

(** ** C2: one vote per fingerprint *)

(** A vote is refused and changes nothing, or is accepted and appends its
    row, the fingerprint being new. *)
Lemma handleVote_cases env answerId fp s :
  (accepted (fst (handleVote env answerId fp s)) = false /\
   votes (sql (snd (handleVote env answerId fp s))) = votes (sql s)) \/
  (accepted (fst (handleVote env answerId fp s)) = true /\
   snd (handleVote env answerId fp s) = accept_vote env answerId fp s /\
   ~ In fp (fingerprints s)).
Proof.
  destruct (accepted (fst (handleVote env answerId fp s))) eqn:Hacc.
  - right. destruct (fst (handleVote env answerId fp s)) as [response|] eqn:Hr;
      [|discriminate].
    destruct (handleVote_ok_inv env answerId fp s Hr Hacc) as (_ & _ & Hv & Hs).
    auto.
  - left. split; [reflexivity|]. revert Hacc. unfold handleVote. run_do.
    destruct (Sql.select_poll_limit_1 (sql s)) as [row|]; simpl; [|reflexivity].
    destruct (p_status row); simpl; try reflexivity.
    destruct (Sql.select_answer answerId (sql s)); simpl; [|reflexivity].
    destruct (Sql.select_vote fp (sql s)); simpl; [reflexivity|].
    destruct (Sql.insert_vote _ _ _ _ (sql s)); simpl; [discriminate|reflexivity].
Qed.

Lemma vote_all_fingerprints (calls : list VoteCall) :
  forall s, NoDup (fingerprints s) ->
            fingerprints (snd (vote_all calls s)) =
            fingerprints s ++ fst (vote_all calls s) /\
            NoDup (fingerprints (snd (vote_all calls s))).
Proof.
  induction calls as [|c rest IH]; intros s Hnd; simpl.
  - now rewrite app_nil_r.
  - destruct (handleVote_cases (call_env c) (call_answer c) (call_fingerprint c) s)
      as [[Hacc Hv]|(Hacc & Hs & Hnew)];
      destruct (handleVote _ _ _ s) as [r s'] eqn:Hr; simpl in *;
      rewrite Hacc.
    + assert (Hf : fingerprints s' = fingerprints s)
        by (unfold fingerprints; now rewrite Hv).
      specialize (IH s'). rewrite Hf in IH. specialize (IH Hnd).
      destruct (vote_all rest s') as [acc s'']. simpl in *. assumption.
    + assert (Hf : fingerprints s' = fingerprints s ++ [call_fingerprint c]).
      { subst s'. unfold fingerprints. simpl. now rewrite map_app. }
      specialize (IH s'). rewrite Hf in IH.
      specialize (IH (@NoDup_snoc _ _ _ Hnd Hnew)).
      destruct (vote_all rest s') as [acc s'']. simpl in *.
      rewrite <- app_assoc in IH. assumption.
Qed.

(** On a published poll, with answers of the poll and vote ids that are new,
    a call is accepted exactly when its fingerprint has not voted yet. *)
Lemma vote_all_first_votes (calls : list VoteCall) :
  forall s,
    is_published s ->
    (forall c, In c calls -> In (call_answer c) (map a_id (answers (sql s)))) ->
    NoDup (map v_id (votes (sql s)) ++
           map (fun c => randomUUID (call_env c) 0) calls) ->
    fst (vote_all calls s) = first_votes (fingerprints s) calls.
Proof.
  induction calls as [|c rest IH]; intros s (row & Hrow & Hst) Hans Hids; simpl;
    [reflexivity|].
  assert (Ha : In (call_answer c) (map a_id (answers (sql s))))
    by (apply Hans; now left).
  destruct (in_dec string_dec (call_fingerprint c) (fingerprints s)) as [Hin|Hnew].
  - rewrite (@handleVote_duplicate (call_env c) (call_answer c) (call_fingerprint c)
               s row Hrow Hst Ha Hin).
    specialize (IH s). destruct (vote_all rest s) as [acc s'']. simpl in *.
    apply IH.
    + exists row. auto.
    + intros c' Hc'. apply Hans. now right.
    + simpl in Hids. now apply NoDup_remove_1 in Hids.
  - simpl in Hids.
    rewrite (@handleVote_accepted (call_env c) (call_answer c) (call_fingerprint c)
               s row Hrow Hst Ha Hnew (NoDup_app_mid_not_in _ _ _ Hids)).
    specialize (IH (accept_vote (call_env c) (call_answer c) (call_fingerprint c) s)).
    destruct (vote_all rest _) as [acc s'']. simpl in *.
    f_equal.
    replace (fingerprints s ++ [call_fingerprint c])
      with (fingerprints (accept_vote (call_env c) (call_answer c)
                                      (call_fingerprint c) s))
      by (unfold fingerprints; simpl; now rewrite map_app).
    apply IH.
    + exists row. auto.
    + intros c' Hc'. apply Hans. now right.
    + rewrite map_app, <- app_assoc. exact Hids.
Qed.

Lemma first_votes_spec (calls : list VoteCall) :
  forall seen,
    NoDup (first_votes seen calls) /\
    forall fp, In fp (first_votes seen calls) <->
               In fp (map call_fingerprint calls) /\ ~ In fp seen.
Proof.
  induction calls as [|c rest IH]; intros seen; simpl.
  - split; [constructor|]. tauto.
  - destruct (in_dec string_dec (call_fingerprint c) seen) as [Hin|Hnew].
    + destruct (IH seen) as [Hnd Hiff]. split; [exact Hnd|].
      intros fp. rewrite Hiff. split; [tauto|].
      intros [[<-|H] Hs]; tauto.
    + destruct (IH (seen ++ [call_fingerprint c])) as [Hnd Hiff]. split.
      * constructor; [|exact Hnd]. rewrite Hiff, in_app_iff. simpl. tauto.
      * intros fp. simpl. rewrite Hiff, in_app_iff. simpl.
        destruct (string_dec (call_fingerprint c) fp) as [<-|Hne]; tauto.
Qed.

(** As many first votes as distinct fingerprints. *)
Lemma first_votes_count (calls : list VoteCall) :
  List.length (first_votes [] calls) =
  List.length (nodup string_dec (map call_fingerprint calls)).
Proof.
  destruct (first_votes_spec calls []) as [Hnd Hiff].
  apply Permutation_length. apply NoDup_Permutation.
  - exact Hnd.
  - apply NoDup_nodup.
  - intros fp. rewrite Hiff, nodup_In. simpl. tauto.
Qed.

(** C2.  Whatever happened to the actor before, and for every sequence of
    [vote] calls served from there (any answers, any fingerprints, repeated
    or not, in any order): the accepted fingerprints are pairwise distinct,
    the rows added to [votes] are exactly one per accepted call, so their
    number is the number of distinct accepted fingerprints, and no two rows
    of [votes] carry the same fingerprint.  When moreover the poll is
    published and has no votes yet, the calls name answers of the poll and
    the vote ids drawn are distinct, every fingerprint is accepted at its
    first call only, and the number of vote rows is the number of distinct
    fingerprints among the calls. *)
Theorem vote_dedup (history : list Event) (calls : list VoteCall) :
  let s0 := run fresh history in
  let acc := fst (vote_all calls s0) in
  let s1 := snd (vote_all calls s0) in
  NoDup acc /\
  fingerprints s1 = fingerprints s0 ++ acc /\
  List.length (votes (sql s1)) =
    List.length (votes (sql s0)) + List.length (nodup string_dec acc) /\
  NoDup (fingerprints s1) /\
  List.length (votes (sql s1)) = List.length (nodup string_dec (fingerprints s1)) /\
  (is_published s0 -> votes (sql s0) = [] ->
   (forall c, In c calls -> In (call_answer c) (map a_id (answers (sql s0)))) ->
   NoDup (map (fun c => randomUUID (call_env c) 0) calls) ->
   acc = first_votes [] calls /\
   List.length (votes (sql s1)) =
   List.length (nodup string_dec (map call_fingerprint calls))).
Proof.
  intros s0 acc s1.
  assert (Hnd : NoDup (fingerprints s0)) by apply (inv_dedup (reachable_Inv history)).
  destruct (vote_all_fingerprints calls s0 Hnd) as [Hf Hnd1].
  fold acc s1 in Hf, Hnd1.
  assert (Hacc : NoDup acc).
  { rewrite Hf in Hnd1. now apply NoDup_app_remove_l in Hnd1. }
  assert (Hlen : List.length (votes (sql s1)) =
                 List.length (votes (sql s0)) + List.length acc).
  { assert (E : List.length (fingerprints s1) =
                List.length (fingerprints s0 ++ acc)) by now rewrite Hf.
    unfold fingerprints in E at 1. rewrite length_map, length_app in E.
    unfold fingerprints in E. rewrite length_map in E. exact E. }
  repeat match goal with |- _ /\ _ => split end; auto.
  - now rewrite (nodup_fixed_point string_dec Hacc).
  - rewrite (nodup_fixed_point string_dec Hnd1).
    unfold fingerprints. now rewrite length_map.
  - intros Hpub Hv Hans Hids.
    assert (E : acc = first_votes [] calls).
    { subst acc. rewrite (@vote_all_first_votes calls s0 Hpub Hans).
      - unfold fingerprints. now rewrite Hv.
      - rewrite Hv. exact Hids. }
    split; [exact E|].
    rewrite Hlen, Hv, E. simpl. apply first_votes_count.
Qed.

(** A published poll without votes, then fp1, fp2 and fp2 again: two rows. *)
Lemma vote_dedup_witness :
  fst (vote_all three_calls (run fresh (firstn 2 one_vote_history))) =
    ["fp1"; "fp2"] /\
  List.length (votes (sql (snd (vote_all three_calls
                                         (run fresh (firstn 2 one_vote_history)))))) = 2.
Proof.
  destruct (vote_dedup (firstn 2 one_vote_history) three_calls)
    as (_ & _ & _ & _ & _ & H).
  apply H.
  - exists (mkPollData "p" "Q?" published 1 2 (Some 2%Z) None 0).
    split; reflexivity.
  - reflexivity.
  - intros c [<-|[<-|[<-|[]]]]; simpl; auto.
  - simpl. repeat constructor; simpl; intuition discriminate.
Defined.

(** ** C3: the counts of [get] *)

Lemma sum_votes_from (rows : list (AnswerData * nat)) :
  forall start, fold_left (fun sum a => sum + snd a) rows start =
                start + list_sum (map snd rows).
Proof.
  induction rows as [|r rows IH]; intros start; simpl; [lia|].
  rewrite IH. lia.
Qed.

Lemma sum_votes_list_sum (rows : list (AnswerData * nat)) :
  sum_votes rows = list_sum (map snd rows).
Proof. unfold sum_votes. now rewrite sum_votes_from. Qed.

Lemma insert_by_order_perm (r : AnswerData) (l : list AnswerData) :
  Permutation (r :: l) (Sql.insert_by_order r l).
Proof.
  induction l as [|x l IH]; simpl; [reflexivity|].
  destruct (a_display_order r <=? a_display_order x)%nat; [reflexivity|].
  rewrite perm_swap. now apply perm_skip.
Qed.

Lemma order_by_display_order_perm (l : list AnswerData) :
  Permutation l (Sql.order_by_display_order l).
Proof.
  induction l as [|x l IH]; simpl; [constructor|].
  rewrite <- insert_by_order_perm. now apply perm_skip.
Qed.

Lemma list_sum_perm (l l' : list nat) :
  Permutation l l' -> list_sum l = list_sum l'.
Proof. induction 1; simpl; lia. Qed.

(** Among rows with distinct keys, exactly one carries a key that is there. *)
Lemma one_row_per_key (k : string) (l : list AnswerData) :
  NoDup (map a_id l) -> In k (map a_id l) ->
  list_sum (map (fun a => if String.eqb k (a_id a) then 1 else 0) l) = 1.
Proof.
  induction l as [|x l IH]; simpl; [tauto|].
  intros Hnd Hin. inversion Hnd as [|? ? Hx Hl]; subst.
  destruct (String.eqb k (a_id x)) eqn:E.
  - apply String.eqb_eq in E. subst k.
    assert (Hz : list_sum (map (fun a => if String.eqb (a_id x) (a_id a)
                                         then 1 else 0) l) = 0).
    { clear - Hx. induction l as [|y l IH]; simpl; [reflexivity|].
      simpl in Hx. destruct (String.eqb (a_id x) (a_id y)) eqn:E.
      - apply String.eqb_eq in E. exfalso. apply Hx. left. now symmetry.
      - apply IH. intros H. apply Hx. now right. }
    rewrite Hz. reflexivity.
  - apply String.eqb_neq in E. destruct Hin as [Hin|Hin]; [congruence|].
    simpl. now apply IH.
Qed.

(** Summing the per-answer counts counts every vote once, when every vote
    points to an answer and answer ids are distinct. *)
Lemma per_answer_counts_total (l : list AnswerData) (vs : list VoteRow) :
  NoDup (map a_id l) ->
  (forall v, In v vs -> In (v_answer_id v) (map a_id l)) ->
  list_sum (map (fun a => List.length
                            (filter (fun v => String.eqb (v_answer_id v) (a_id a)) vs))
                l) = List.length vs.
Proof.
  intros Hnd. induction vs as [|v vs IH]; intros Hfk; simpl.
  - clear. induction l as [|x l IHl]; simpl; [reflexivity|assumption].
  - assert (E : list_sum
                 (map (fun a => List.length
                                  (filter (fun v0 => String.eqb (v_answer_id v0) (a_id a))
                                          (v :: vs))) l) =
               list_sum (map (fun a => if String.eqb (v_answer_id v) (a_id a)
                                       then 1 else 0) l) +
               list_sum
                 (map (fun a => List.length
                                  (filter (fun v0 => String.eqb (v_answer_id v0) (a_id a))
                                          vs)) l)).
    { clear. induction l as [|x l IHl]; simpl; [reflexivity|].
      simpl in IHl. rewrite IHl.
      destruct (String.eqb (v_answer_id v) (a_id x)); simpl; lia. }
    simpl in E. rewrite E.
    rewrite IH by (intros; apply Hfk; now right).
    rewrite (one_row_per_key (v_answer_id v) l Hnd) by (apply Hfk; now left).
    reflexivity.
Qed.

Lemma answers_with_counts_total (db : SqlStorage) :
  Inv db -> sum_votes (Sql.answers_with_counts db) = List.length (votes db).
Proof.
  intros HI. rewrite sum_votes_list_sum. unfold Sql.answers_with_counts.
  rewrite map_map. simpl.
  rewrite <- (list_sum_perm
                (Permutation_map (fun a => Sql.count_votes (a_id a) db)
                                 (order_by_display_order_perm (answers db)))).
  unfold Sql.count_votes. apply per_answer_counts_total.
  - apply (inv_answer_key HI).
  - intros v Hv. destruct (inv_fk HI v Hv) as (a & Ha & Hid).
    rewrite <- Hid. now apply in_map.
Qed.

Lemma answers_with_counts_rows (db : SqlStorage) :
  Forall (fun r => snd r = Sql.count_votes (a_id (fst r)) db)
         (Sql.answers_with_counts db).
Proof.
  unfold Sql.answers_with_counts. apply Forall_forall. intros r Hr.
  apply in_map_iff in Hr. destruct Hr as (a & <- & _). reflexivity.
Qed.

(** C3.  In every state the actor can reach, [get()] answers NotFound when
    there is no poll, and otherwise returns the poll row with a projection in
    which [totalVotes] is the sum of the answers' vote counts and is the
    number of rows of [votes]; each answer's count is the number of vote rows
    pointing to it, and its percentage is (count / totalVotes) * 100 in
    JavaScript's double arithmetic when [totalVotes > 0] and 0 otherwise.
    The same holds of [getVoteCountsData], the projection a vote returns and
    subscribers receive. *)
Theorem get_counts_consistent (history : list Event) :
  let s := run fresh history in
  match Sql.select_poll_limit_1 (sql s) with
  | None => handleGet s = (Return NotFound, s)
  | Some row =>
      exists p,
        handleGet s = (Return (mkResponse 200 (JPoll p)), s) /\
        poll_row p = row /\
        totalVotes p = list_sum (map votes_of (answers_of p)) /\
        totalVotes p = List.length (votes (sql s)) /\
        Forall (fun a =>
                  votes_of a = Sql.count_votes (answer_id a) (sql s) /\
                  percentage a =
                    if (0 <? totalVotes p)%nat
                    then (Number (votes_of a) / Number (totalVotes p) * 100)%float
                    else 0%float)
               (answers_of p)
  end /\
  let c := getVoteCountsData (sql s) in
  vc_totalVotes c = list_sum (map ac_votes (vc_answers c)) /\
  vc_totalVotes c = List.length (votes (sql s)) /\
  Forall (fun a =>
            ac_votes a = Sql.count_votes (answerId a) (sql s) /\
            ac_percentage a =
              if (0 <? vc_totalVotes c)%nat
              then (Number (ac_votes a) / Number (vc_totalVotes c) * 100)%float
              else 0%float)
         (vc_answers c).
Proof.
  intros s. pose proof (reachable_Inv history) as HI. fold s in HI.
  pose proof (answers_with_counts_rows (sql s)) as Hrows.
  rewrite Forall_forall in Hrows.
  split.
  - unfold handleGet. run_do.
    destruct (Sql.select_poll_limit_1 (sql s)) as [row|]; [|reflexivity].
    eexists. split; [reflexivity|]. simpl. repeat split.
    + rewrite map_map. simpl. apply sum_votes_list_sum.
    + now apply answers_with_counts_total.
    + apply Forall_forall. intros a Ha. apply in_map_iff in Ha.
      destruct Ha as (r & <- & Hr). simpl. split; [now apply Hrows|reflexivity].
  - simpl. repeat split.
    + rewrite map_map. simpl. apply sum_votes_list_sum.
    + now apply answers_with_counts_total.
    + apply Forall_forall. intros a Ha. apply in_map_iff in Ha.
      destruct Ha as (r & <- & Hr). simpl. split; [now apply Hrows|reflexivity].
Qed.

(** The scenario of the specification: after the vote of fp1 for A the
    counts are 1 of 1 (100 percent) and 0; after a vote of fp2 for B they are
    1 of 2 (50 percent) each. *)
Example scenario_counts :
  getVoteCountsData (sql one_vote) =
    mkVoteCounts 1 [mkAnswerCount "a0" 1 100%float; mkAnswerCount "a1" 0 0%float] /\
  fst (handleVote (env_at 4 "w") "a1" "fp2" one_vote) =
    Return (mkResponse 200
              (JCounts (mkVoteCounts 2 [mkAnswerCount "a0" 1 50%float;
                                        mkAnswerCount "a1" 1 50%float]))).
Proof. split; vm_compute; reflexivity. Qed.

(** ** C4: the lifecycle only moves forward *)

Lemma select_poll_map (f : PollData -> PollData) (db : SqlStorage) (row : PollData) :
  Sql.select_poll_limit_1 db = Some row ->
  Sql.select_poll_limit_1 (Sql.update_poll f db) = Some (f row).
Proof.
  unfold Sql.select_poll_limit_1, Sql.update_poll. simpl.
  destruct (poll db); simpl; [discriminate|]. now intros [= ->].
Qed.

Lemma handlePublish_not_draft env s row :
  Sql.select_poll_limit_1 (sql s) = Some row -> p_status row <> draft ->
  handlePublish env s = (Return InvalidState_publish, s).
Proof.
  intros Hrow Hst. unfold handlePublish. run_do. rewrite Hrow.
  destruct (p_status row); simpl; [congruence|reflexivity|reflexivity].
Qed.

Lemma handleClose_not_published env s row :
  Sql.select_poll_limit_1 (sql s) = Some row -> p_status row <> published ->
  handleClose env s = (Return InvalidState_close, s).
Proof.
  intros Hrow Hst. unfold handleClose. run_do. rewrite Hrow.
  destruct (p_status row); simpl; [reflexivity|congruence|reflexivity].
Qed.

Lemma handlePublish_draft env s row :
  Sql.select_poll_limit_1 (sql s) = Some row -> p_status row = draft ->
  handlePublish env s = handleGet (published_at_now env s).
Proof.
  intros Hrow Hst. unfold handlePublish. run_do. rewrite Hrow, Hst. reflexivity.
Qed.

Lemma handleClose_published env s row :
  Sql.select_poll_limit_1 (sql s) = Some row -> p_status row = published ->
  handleClose env s = handleGet (closed_at_now env s).
Proof.
  intros Hrow Hst. unfold handleClose. run_do. rewrite Hrow, Hst. reflexivity.
Qed.

(** [update] rewrites the poll rows without touching their status. *)
Lemma handleUpdate_poll env question texts s :
  exists f, (forall r, p_status (f r) = p_status r) /\
            poll (sql (snd (handleUpdate env question texts s))) =
            map f (poll (sql s)).
Proof.
  assert (Hid : exists f, (forall r, p_status (f r) = p_status r) /\
                          poll (sql s) = map f (poll (sql s))).
  { exists (fun r => r). split; [reflexivity|]. now rewrite map_id. }
  unfold handleUpdate. run_do.
  destruct (Sql.select_poll_limit_1 (sql s)) as [row|]; simpl; [|assumption].
  destruct (Status_eqb (p_status row) draft); simpl; [|assumption].
  destruct question as [q|], texts as [l|]; simpl;
    try rewrite handleGet_sql; simpl; try assumption.
  2: { exists (Sql.set_question q (now env)). split; reflexivity. }
  all: match goal with
       | |- context [insert_answers ?e 0 ?l ?s0] =>
           destruct (insert_answers_frame e l 0 s0) as (Fp & _);
           destruct (insert_answers e 0 l s0) as [c s3]; simpl in Fp;
           destruct c; simpl; try rewrite handleGet_sql; simpl; rewrite Fp
       end.
  - exists (fun r => Sql.set_updated_at (now env) (Sql.set_question q (now env) r)).
    split; [reflexivity|]. now rewrite map_map.
  - exists (Sql.set_question q (now env)). split; reflexivity.
  - exists (Sql.set_updated_at (now env)). split; reflexivity.
  - assumption.
Qed.

(** A request other than [delete] keeps the poll and does not lower its
    status. *)
Lemma step_keeps (s : PollVoteCounter) (e : Event) (row : PollData) :
  is_delete e = false ->
  Sql.select_poll_limit_1 (sql s) = Some row ->
  exists row', Sql.select_poll_limit_1 (sql (step s e)) = Some row' /\
               rank (p_status row) <= rank (p_status row').
Proof.
  intros Hdel Hrow.
  assert (Hsame : exists row', Sql.select_poll_limit_1 (sql s) = Some row' /\
                               rank (p_status row) <= rank (p_status row'))
    by (exists row; split; [assumption|lia]).
  destruct e as [env request|connectionId]; simpl; [|assumption].
  destruct request as [id q texts| |q texts| | | | |aid fp|fp| | |pid|pid| ];
    simpl; try assumption; try discriminate.
  - unfold handleCreate. run_do. rewrite Hrow. assumption.
  - now rewrite handleGet_sql.
  - destruct (handleUpdate_poll env q texts s) as (f & Hf & Hp).
    exists (f row). rewrite Hf. split; [|lia].
    unfold Sql.select_poll_limit_1 in *. rewrite Hp.
    destruct (poll (sql s)); simpl in *; [discriminate|]. now injection Hrow as ->.
  - destruct (p_status row) eqn:Hst.
    + rewrite (handlePublish_draft env s Hrow Hst), handleGet_sql. simpl.
      rewrite (select_poll_map _ _ Hrow). eexists. split; [reflexivity|].
      simpl. lia.
    + rewrite (@handlePublish_not_draft env s row Hrow); [assumption|congruence].
    + rewrite (@handlePublish_not_draft env s row Hrow); [assumption|congruence].
  - destruct (p_status row) eqn:Hst.
    + rewrite (@handleClose_not_published env s row Hrow); [assumption|congruence].
    + rewrite (handleClose_published env s Hrow Hst), handleGet_sql. simpl.
      rewrite (select_poll_map _ _ Hrow). eexists. split; [reflexivity|].
      simpl. lia.
    + rewrite (@handleClose_not_published env s row Hrow); [assumption|congruence].
  - unfold handleReset. run_do. rewrite Hrow. simpl. rewrite handleGet_sql. simpl.
    exists (Sql.bump_reset_count (now env) row). split; [|simpl; lia].
    unfold Sql.select_poll_limit_1 in *. simpl.
    destruct (poll (sql s)); simpl in *; [discriminate|]. now injection Hrow as ->.
  - destruct (handleVote_cases env aid fp s)
      as [[_ Hv]|(_ & -> & _)]; [|assumption].
    revert Hv. unfold handleVote. run_do. rewrite Hrow.
    destruct (p_status row); simpl; try (intros; assumption).
    destruct (Sql.select_answer aid (sql s)); simpl; [|intros; assumption].
    destruct (Sql.select_vote fp (sql s)); simpl; [intros; assumption|].
    unfold Sql.insert_vote. destruct (existsb _ (votes (sql s))); simpl;
      intros; assumption.
  - unfold Sql.insert_or_ignore_index.
    destruct (existsb _ (poll_index (sql s))); assumption.
Qed.

Lemma run_keeps (history : list Event) :
  forall s row,
    forallb (fun e => negb (is_delete e)) history = true ->
    Sql.select_poll_limit_1 (sql s) = Some row ->
    exists row', Sql.select_poll_limit_1 (sql (run s history)) = Some row' /\
                 rank (p_status row) <= rank (p_status row').
Proof.
  induction history as [|e history IH]; intros s row Hnd Hrow; simpl in *.
  - exists row. split; [assumption|lia].
  - apply andb_true_iff in Hnd. destruct Hnd as [He Hh].
    apply negb_true_iff in He.
    destruct (step_keeps s e He Hrow) as (row1 & Hrow1 & Hle).
    destruct (IH (step s e) row1 Hh Hrow1) as (row2 & Hrow2 & Hle2).
    exists row2. split; [assumption|lia].
Qed.

Lemma handleDelete_removes s row :
  Sql.select_poll_limit_1 (sql s) = Some row ->
  handleDelete s =
  (Return (mkResponse 200 JDeleted),
   mkDO (mkSql [] [] [] (poll_index (sql s))) (connections s)).
Proof.
  intros Hrow. unfold handleDelete. run_do. rewrite Hrow. reflexivity.
Qed.

(** C4.  [publish()] on a poll that is not a draft and [close()] on a poll
    that is not published answer InvalidState and change nothing; on a draft
    (a published poll) they set the status to published (closed) and stamp
    [published_at] ([closed_at]) with the time of the request.  No event
    lowers the status of the poll it finds: if a poll is there before and
    after an event, its status has not moved backward, and along a history
    without [delete] the poll stays and its status never decreases.  In every
    state the actor can reach, [published_at] is set iff the status is
    published or closed, and [closed_at] is set iff the status is closed. *)
Theorem lifecycle_forward :
  (forall env s row,
      Sql.select_poll_limit_1 (sql s) = Some row -> p_status row <> draft ->
      handlePublish env s = (Return InvalidState_publish, s)) /\
  (forall env s row,
      Sql.select_poll_limit_1 (sql s) = Some row -> p_status row <> published ->
      handleClose env s = (Return InvalidState_close, s)) /\
  (forall env s row,
      Sql.select_poll_limit_1 (sql s) = Some row -> p_status row = draft ->
      Sql.select_poll_limit_1 (sql (snd (handlePublish env s))) =
      Some (Sql.set_published (now env) row)) /\
  (forall env s row,
      Sql.select_poll_limit_1 (sql s) = Some row -> p_status row = published ->
      Sql.select_poll_limit_1 (sql (snd (handleClose env s))) =
      Some (Sql.set_closed (now env) row)) /\
  (forall s e row row',
      Sql.select_poll_limit_1 (sql s) = Some row ->
      Sql.select_poll_limit_1 (sql (step s e)) = Some row' ->
      rank (p_status row) <= rank (p_status row')) /\
  (forall history s row,
      forallb (fun e => negb (is_delete e)) history = true ->
      Sql.select_poll_limit_1 (sql s) = Some row ->
      exists row', Sql.select_poll_limit_1 (sql (run s history)) = Some row' /\
                   rank (p_status row) <= rank (p_status row')) /\
  (forall history, Forall stamps_ok (poll (sql (run fresh history)))).
Proof.
  repeat match goal with |- _ /\ _ => split end.
  - intros. now apply handlePublish_not_draft with (row := row).
  - intros. now apply handleClose_not_published with (row := row).
  - intros env s row Hrow Hst.
    rewrite (handlePublish_draft env s Hrow Hst), handleGet_sql. simpl.
    now apply select_poll_map.
  - intros env s row Hrow Hst.
    rewrite (handleClose_published env s Hrow Hst), handleGet_sql. simpl.
    now apply select_poll_map.
  - intros s e row row' Hrow Hrow'.
    destruct (is_delete e) eqn:Hdel.
    + destruct e as [env [ | | | | | | | | | | | | | ]|c]; try discriminate.
      simpl in Hrow'. rewrite (handleDelete_removes s Hrow) in Hrow'.
      discriminate.
    + destruct (step_keeps s e Hdel Hrow) as (r & Hr & Hle).
      rewrite Hr in Hrow'. now injection Hrow' as <-.
  - intros history s row. apply run_keeps.
  - intros history. apply Forall_forall. intros row Hin.
    now apply (inv_stamps (reachable_Inv history)).
Qed.

(** Publishing the published poll of the history above a second time. *)
Lemma lifecycle_forward_witness :
  handlePublish (env_at 9 "z") one_vote = (Return InvalidState_publish, one_vote).
Proof.
  destruct lifecycle_forward as (H & _).
  apply (H (env_at 9 "z") one_vote one_vote_row).
  - reflexivity.
  - discriminate.
Defined.

(** ** C5: reset *)

Lemma no_votes_no_total (db : SqlStorage) :
  votes db = [] ->
  sum_votes (Sql.answers_with_counts db) = 0 /\
  Forall (fun r => snd r = 0) (Sql.answers_with_counts db).
Proof.
  intros Hv.
  assert (H0 : Forall (fun r : AnswerData * nat => snd r = 0)
                      (Sql.answers_with_counts db)).
  { apply Forall_forall. intros r Hr.
    pose proof (answers_with_counts_rows db) as Hrows.
    rewrite Forall_forall in Hrows. rewrite (Hrows r Hr).
    unfold Sql.count_votes. now rewrite Hv. }
  split; [|assumption].
  rewrite sum_votes_list_sum.
  induction H0 as [|r rows Hr _ IH]; simpl; [reflexivity|]. now rewrite Hr, IH.
Qed.

Lemma handleVote_duplicate_inv env answerId fp s :
  handleVote env answerId fp s = (Return DuplicateVote, s) ->
  (exists row, Sql.select_poll_limit_1 (sql s) = Some row /\ p_status row = published) /\
  In answerId (map a_id (answers (sql s))).
Proof.
  unfold handleVote. run_do.
  destruct (Sql.select_poll_limit_1 (sql s)) as [row|]; simpl; [|discriminate].
  destruct (p_status row) eqn:Hst; simpl; try discriminate.
  destruct (Sql.select_answer answerId (sql s)) as [a|] eqn:Ha; simpl;
    [|discriminate].
  intros _. split; [eauto|].
  apply find_key_some in Ha. destruct Ha as [Ha1 Ha2].
  apply in_map_iff. eauto.
Qed.

(** The actor after [reset] went through. *)
Lemma handleReset_state env s row :
  Sql.select_poll_limit_1 (sql s) = Some row ->
  handleReset env s =
  handleGet (mkDO (Sql.update_poll (Sql.bump_reset_count (now env))
                                   (Sql.delete_from_votes (sql s)))
                  (connections s)).
Proof.
  intros Hrow. unfold handleReset. run_do. rewrite Hrow. reflexivity.
Qed.

(** C5.  On an actor holding a poll, [reset()] deletes every vote row and
    returns the projection with [totalVotes = 0] (as does a [get()] right
    after it), adds exactly 1 to [reset_count], leaves the status and the
    answers as they were, and a fingerprint whose vote was refused as
    DuplicateVote before the reset is accepted after it. *)
Theorem reset_semantics (env : Env) (s : PollVoteCounter) (row : PollData) :
  Sql.select_poll_limit_1 (sql s) = Some row ->
  let s' := snd (handleReset env s) in
  votes (sql s') = [] /\
  (exists p, fst (handleReset env s) = Return (mkResponse 200 (JPoll p)) /\
             totalVotes p = 0 /\ Forall (fun a => votes_of a = 0) (answers_of p)) /\
  (exists p, handleGet s' = (Return (mkResponse 200 (JPoll p)), s') /\
             totalVotes p = 0) /\
  (exists row', Sql.select_poll_limit_1 (sql s') = Some row' /\
                p_reset_count row' = p_reset_count row + 1 /\
                p_status row' = p_status row /\
                p_id row' = p_id row) /\
  answers (sql s') = answers (sql s) /\
  (forall env0 env1 answerId fp,
      handleVote env0 answerId fp s = (Return DuplicateVote, s) ->
      handleVote env1 answerId fp s' =
      (Return (mkResponse 200
                 (JCounts (getVoteCountsData (sql (accept_vote env1 answerId fp s'))))),
       accept_vote env1 answerId fp s') /\
      votes (sql (accept_vote env1 answerId fp s')) =
      [mkVoteRow (randomUUID env1 0) answerId fp (now env1)]).
Proof.
  intros Hrow s'.
  set (s1 := mkDO (Sql.update_poll (Sql.bump_reset_count (now env))
                                   (Sql.delete_from_votes (sql s)))
                  (connections s)).
  assert (Es : s' = s1).
  { subst s'. rewrite (handleReset_state env s Hrow). apply handleGet_state. }
  assert (Hrow1 : Sql.select_poll_limit_1 (sql s1) =
                  Some (Sql.bump_reset_count (now env) row)).
  { unfold Sql.select_poll_limit_1 in *. simpl.
    destruct (poll (sql s)); simpl in *; [discriminate|]. now injection Hrow as ->. }
  assert (Hget : exists p, handleGet s1 = (Return (mkResponse 200 (JPoll p)), s1) /\
                           totalVotes p = 0 /\
                           Forall (fun a => votes_of a = 0) (answers_of p)).
  { unfold handleGet. run_do. rewrite Hrow1. eexists. split; [reflexivity|].
    simpl. destruct (@no_votes_no_total (sql s1) eq_refl) as [H0 HF].
    split; [exact H0|].
    apply Forall_forall. intros a Ha. apply in_map_iff in Ha.
    destruct Ha as (r & <- & Hr). simpl. rewrite Forall_forall in HF. now apply HF. }
  destruct Hget as (p & Hp & Hp0 & HpF).
  repeat match goal with |- _ /\ _ => split end.
  - now rewrite Es.
  - exists p. subst s'. rewrite (handleReset_state env s Hrow). fold s1.
    rewrite Hp. auto.
  - exists p. rewrite Es. auto.
  - exists (Sql.bump_reset_count (now env) row). rewrite Es. auto.
  - now rewrite Es.
  - intros env0 env1 answerId fp Hdup. rewrite Es.
    destruct (@handleVote_duplicate_inv _ _ _ _ Hdup) as ((r & Hr & Hst) & Ha).
    rewrite Hrow in Hr. injection Hr as <-.
    split; [|reflexivity].
    apply handleVote_accepted with (row := Sql.bump_reset_count (now env) row);
      simpl; auto.
Qed.

(** Resetting the poll of the history above lets fp1 vote again. *)
Lemma reset_semantics_witness :
  handleVote (env_at 5 "w") "a0" "fp1" one_vote = (Return DuplicateVote, one_vote) /\
  accepted (fst (handleVote (env_at 7 "r") "a0" "fp1"
                            (snd (handleReset (env_at 6 "z") one_vote)))) = true.
Proof.
  assert (Hrow : Sql.select_poll_limit_1 (sql one_vote) = Some one_vote_row)
    by reflexivity.
  assert (Hdup : handleVote (env_at 5 "w") "a0" "fp1" one_vote =
                 (Return DuplicateVote, one_vote)) by reflexivity.
  split; [exact Hdup|].
  destruct (reset_semantics (env_at 6 "z") one_vote Hrow) as (_ & _ & _ & _ & _ & H).
  destruct (H (env_at 5 "w") (env_at 7 "r") "a0" "fp1" Hdup) as [Hv _].
  rewrite Hv. reflexivity.
Defined.

(** ** C6: delete *)

Lemma handleDelete_missing s :
  Sql.select_poll_limit_1 (sql s) = None ->
  handleDelete s = (Return NotFound, s).
Proof.
  intros Hrow. unfold handleDelete. run_do. rewrite Hrow. reflexivity.
Qed.

(** C6, as stated, fails: [delete()] on an actor without a poll does not
    succeed.  On the fresh actor the handler answers 404 "Poll not found",
    and so does a second [delete()] after a successful one; the admin route
    turns the 404 into the error POLL_NOT_FOUND. *)
Lemma delete_missing_poll_fails :
  handleDelete fresh = (Return NotFound, fresh) /\
  accepted (fst (handleDelete fresh)) = false /\
  accepted (fst (handleDelete one_vote)) = true /\
  accepted (fst (handleDelete (snd (handleDelete one_vote)))) = false /\
  fst (handleDeletePoll no_actors (doEnv_at 1) "p") =
    Return (errorResponse "Poll not found" 404 POLL_NOT_FOUND).
Proof. repeat split. Qed.

(** C6, amended.  On an actor holding a poll, [delete()] empties the poll,
    answers and votes tables and returns success; on an actor without a poll
    (never created, or already deleted) it answers NotFound and changes
    nothing, so a second [delete()] answers NotFound.  The admin route
    forwards that refusal as POLL_NOT_FOUND. *)
Theorem delete_semantics (s : PollVoteCounter) :
  (forall row,
      Sql.select_poll_limit_1 (sql s) = Some row ->
      handleDelete s =
        (Return (mkResponse 200 JDeleted),
         mkDO (mkSql [] [] [] (poll_index (sql s))) (connections s)) /\
      handleDelete (snd (handleDelete s)) =
        (Return NotFound, snd (handleDelete s))) /\
  (Sql.select_poll_limit_1 (sql s) = None ->
   handleDelete s = (Return NotFound, s)) /\
  (forall ns doEnv pollId,
      ns pollId = s -> Sql.select_poll_limit_1 (sql s) = None ->
      fst (handleDeletePoll ns doEnv pollId) =
        Return (errorResponse "Poll not found" 404 POLL_NOT_FOUND) /\
      forall name, snd (handleDeletePoll ns doEnv pollId) name = ns name).
Proof.
  repeat match goal with |- _ /\ _ => split end.
  - intros row Hrow. rewrite (handleDelete_removes s Hrow). split; [reflexivity|].
    simpl. now apply handleDelete_missing.
  - apply handleDelete_missing.
  - intros ns doEnv pollId Hs Hrow. unfold handleDeletePoll, callDO. simpl.
    rewrite Hs, (handleDelete_missing s Hrow). simpl. split; [reflexivity|].
    intros name. unfold put. destruct (String.eqb name pollId) eqn:E; [|reflexivity].
    apply String.eqb_eq in E. now subst.
Qed.

(** Deleting the poll of the history above, twice. *)
Lemma delete_semantics_witness :
  handleDelete one_vote =
    (Return (mkResponse 200 JDeleted), mkDO (mkSql [] [] [] []) []) /\
  handleDelete (snd (handleDelete one_vote)) =
    (Return NotFound, snd (handleDelete one_vote)).
Proof.
  destruct (delete_semantics one_vote) as (H & _).
  apply (H one_vote_row). reflexivity.
Defined.

(** ** C7: validation of [create] *)

Lemma nodup_length_le (l : list string) :
  List.length (nodup string_dec l) <= List.length l.
Proof.
  induction l as [|a l IH]; simpl; [lia|].
  destruct (in_dec string_dec a l); simpl; lia.
Qed.

Lemma unique_answers_NoDup (l : list string) :
  unique_answers l = true <-> NoDup l.
Proof.
  unfold unique_answers. rewrite Nat.eqb_eq. split.
  - induction l as [|a l IH]; simpl; [constructor|].
    pose proof (nodup_length_le l).
    destruct (in_dec string_dec a l); simpl; intros E; [lia|].
    constructor; [assumption|]. apply IH. lia.
  - intros H. now rewrite (nodup_fixed_point string_dec H).
Qed.

Lemma string_min_max_spec (lo hi : nat) (text : string) :
  string_min_max lo hi text = true <-> lo <= String.length text <= hi.
Proof.
  unfold string_min_max. rewrite andb_true_iff, !Nat.leb_le. tauto.
Qed.

(** The schema accepts exactly the bodies that meet the constraints. *)
Lemma createPollSchema_spec (q : string) (texts : list string) :
  createPollSchema (mkCreatePollRequest q texts) = true <-> valid_create q texts.
Proof.
  unfold createPollSchema, valid_create. cbn [question answers_in].
  rewrite !andb_true_iff, forallb_forall, unique_answers_NoDup, !Nat.leb_le.
  rewrite string_min_max_spec.
  unfold POLL_CONSTRAINTS.QUESTION_MIN_LENGTH, POLL_CONSTRAINTS.QUESTION_MAX_LENGTH,
    POLL_CONSTRAINTS.MIN_ANSWERS, POLL_CONSTRAINTS.MAX_ANSWERS,
    POLL_CONSTRAINTS.ANSWER_MIN_LENGTH, POLL_CONSTRAINTS.ANSWER_MAX_LENGTH.
  split.
  - intros ((((Hq & Ha) & Hlo) & Hhi) & Hu).
    split; [exact Hq|]. split; [|split; [exact Hu|lia]].
    intros a Hin. apply string_min_max_spec. now apply Ha.
  - intros (Hq & Ha & Hu & Hn).
    split; [split; [split; [split; [exact Hq|]|lia]|lia]|exact Hu].
    intros a Hin. apply string_min_max_spec. now apply Ha.
Qed.

(** With fresh and distinct UUIDs the insert loop runs through. *)
Lemma insert_answers_ok (env : Env) (texts : list string) :
  forall i s,
    NoDup (map a_id (answers (sql s)) ++
           map (randomUUID env) (seq i (List.length texts))) ->
    insert_answers env i texts s =
    (Return tt,
     mkDO (mkSql (poll (sql s)) (answers (sql s) ++ new_answers env i texts)
                 (votes (sql s)) (poll_index (sql s)))
          (connections s)).
Proof.
  induction texts as [|text rest IH]; intros i s Hnd; simpl.
  - rewrite app_nil_r. now destruct s as [[] ?].
  - simpl in Hnd. unfold bind, exec_insert, Sql.insert_answer.
    rewrite (existsb_key_not_in _ _ _ (NoDup_app_mid_not_in _ _ _ Hnd)).
    rewrite IH; simpl.
    + now rewrite <- app_assoc.
    + rewrite map_app, <- app_assoc. exact Hnd.
Qed.

Lemma new_answers_sorted (env : Env) (texts : list string) :
  forall i, Sql.order_by_display_order (new_answers env i texts) =
            new_answers env i texts.
Proof.
  unfold Sql.order_by_display_order.
  induction texts as [|text rest IH]; intros i; simpl; [reflexivity|].
  rewrite IH. destruct rest as [|text' rest']; simpl; [reflexivity|].
  replace (i <=? S i)%nat with true by (symmetry; apply Nat.leb_le; lia).
  reflexivity.
Qed.

Lemma new_answers_texts (env : Env) (texts : list string) :
  forall i, map a_answer_text (new_answers env i texts) = texts /\
            map a_display_order (new_answers env i texts) =
            seq i (List.length texts).
Proof.
  induction texts as [|text rest IH]; intros i; simpl; [auto|].
  destruct (IH (S i)) as [-> ->]. auto.
Qed.

(** Adding to the index leaves the poll, answers and votes of every actor
    alone, also when the index lives in the actor of the poll. *)
Lemma addToPollIndex_frame (ns : Namespace) (env : Env) (pollId name : string) :
  fst (addToPollIndex ns env pollId) = Return (mkResponse 200 JSuccess) /\
  poll (sql (snd (addToPollIndex ns env pollId) name)) = poll (sql (ns name)) /\
  answers (sql (snd (addToPollIndex ns env pollId) name)) = answers (sql (ns name)) /\
  votes (sql (snd (addToPollIndex ns env pollId) name)) = votes (sql (ns name)).
Proof.
  unfold addToPollIndex, callDO, put. simpl. unfold handleAddToIndex. run_do.
  split; [reflexivity|].
  destruct (String.eqb name POLL_INDEX_KEY) eqn:E; [|auto].
  apply String.eqb_eq in E. subst name. simpl.
  unfold Sql.insert_or_ignore_index.
  destruct (existsb _ (poll_index (sql (ns POLL_INDEX_KEY)))); simpl; auto.
Qed.

(** [get()] right after a creation. *)
Lemma handleGet_new_poll (s : PollVoteCounter) (row : PollData) (env : Env)
      (texts : list string) :
  poll (sql s) = [row] -> answers (sql s) = new_answers env 0 texts ->
  votes (sql s) = [] ->
  exists p, handleGet s = (Return (mkResponse 200 (JPoll p)), s) /\
            poll_row p = row /\ totalVotes p = 0 /\
            map answer_text (answers_of p) = texts /\
            map display_order (answers_of p) = seq 0 (List.length texts).
Proof.
  intros Hp Ha Hv. unfold handleGet. run_do.
  unfold Sql.select_poll_limit_1. rewrite Hp. simpl.
  eexists. split; [reflexivity|]. simpl.
  destruct (no_votes_no_total (sql s) Hv) as [H0 _].
  split; [reflexivity|]. split; [exact H0|].
  unfold Sql.answers_with_counts. rewrite Ha, new_answers_sorted, !map_map. simpl.
  destruct (new_answers_texts env texts 0) as [Ht Ho].
  split; [exact Ht|exact Ho].
Qed.

(** C7.  A [create] request of the admin API with a question and a list of
    answers is answered with a ValidationError exactly when the structural
    constraints are violated (question of 1 to 500 characters, every answer
    of 1 to 200 characters, answers pairwise distinct, 2 to 10 answers), and
    then nothing is created.  When the constraints hold and the actor named
    by the fresh poll id is in a state that satisfies the invariant of the
    storage and holds no poll (and the answer ids drawn are distinct), the
    poll is created in draft status with exactly these answers, in order,
    and no vote. *)
Theorem create_validation (ns : Namespace) (env : Env) (doEnv : nat -> Env)
        (q : string) (texts : list string) :
  let result := handleCreatePoll ns env doEnv (Some (mkCreatePollRequest q texts)) in
  let pollId := randomUUID env 0 in
  (is_validation_error (fst result) = true <-> ~ valid_create q texts) /\
  (~ valid_create q texts ->
   result = (Return (errorResponse "Validation failed" 400 VALIDATION_ERROR), ns)) /\
  (valid_create q texts ->
   Inv (sql (ns pollId)) -> poll (sql (ns pollId)) = [] ->
   NoDup (map (randomUUID (doEnv 0)) (seq 0 (List.length texts))) ->
   exists p,
     fst result = Return (mkApi 201 (APoll (Some p))) /\
     ap_id p = pollId /\ ap_question p = q /\ ap_status p = draft /\
     ap_published_at p = None /\ ap_closed_at p = None /\
     map aa_text (ap_answers p) = texts /\
     map aa_order (ap_answers p) = seq 0 (List.length texts) /\
     ap_totalVotes p = 0 /\
     poll (sql (snd result pollId)) =
       [mkPollData pollId q draft (now (doEnv 0)) (now (doEnv 0)) None None 0] /\
     answers (sql (snd result pollId)) = new_answers (doEnv 0) 0 texts /\
     votes (sql (snd result pollId)) = []).
Proof.
  intros result pollId.
  pose proof (createPollSchema_spec q texts) as Hspec.
  destruct (createPollSchema (mkCreatePollRequest q texts)) eqn:E.
  - assert (Hvalid : valid_create q texts) by now apply Hspec.
    split; [|split; [tauto|]].
    + split; [|tauto]. subst result. unfold handleCreatePoll. rewrite E. simpl.
      repeat match goal with
             | |- context [match ?x with (_, _) => _ end] =>
                 destruct x as [[?r|?e] ?ns']; simpl
             | |- context [if negb (ok ?r) then _ else _] => destruct (ok r); simpl
             end; discriminate.
    + intros _ HI Hp Hnd.
      destruct (inv_no_poll HI Hp) as [Hv Ha].
      subst result. unfold handleCreatePoll. rewrite E. cbn [negb question answers_in].
      fold pollId.
      set (row := mkPollData pollId q draft (now (doEnv 0)) (now (doEnv 0)) None None 0).
      set (s1 := mkDO (mkSql [row] (new_answers (doEnv 0) 0 texts) []
                             (poll_index (sql (ns pollId))))
                      (connections (ns pollId))).
      assert (Hcreate : callDO ns pollId (doEnv 0) (create pollId q texts) =
                        (Return (mkResponse 200 (JCreated pollId)), put ns pollId s1)).
      { unfold callDO, fetch, handleCreate. run_do.
        unfold Sql.select_poll_limit_1, Sql.insert_poll. rewrite Hp. simpl.
        rewrite Hp. simpl.
        rewrite insert_answers_ok; simpl.
        - rewrite Ha, Hv. reflexivity.
        - rewrite Ha. exact Hnd. }
      rewrite Hcreate. cbv beta iota.
      change (negb (ok (mkResponse 200 (JCreated pollId)))) with false. cbv iota.
      set (ns1 := put ns pollId s1).
      destruct (addToPollIndex_frame ns1 (doEnv 1) pollId pollId)
        as (Hr & Fp & Fa & Fv).
      destruct (addToPollIndex ns1 (doEnv 1) pollId) as [c2 ns2]. simpl in *.
      subst c2.
      assert (H1 : ns1 pollId = s1)
        by (unfold ns1, put; now rewrite String.eqb_refl).
      rewrite H1 in Fp, Fa, Fv. simpl in Fp, Fa, Fv.
      destruct (handleGet_new_poll (ns2 pollId) (doEnv 0) texts Fp Fa Fv)
        as (p & Hget & Hp1 & Hp2 & Hp3 & Hp4).
      unfold callDO. cbn [fetch]. rewrite Hget. cbv beta iota.
      eexists. split; [reflexivity|]. cbn [transformPollResponse r_body fst snd].
      cbn [ap_id ap_question ap_status ap_published_at ap_closed_at ap_answers
           ap_totalVotes].
      rewrite Hp1, Hp2, !map_map. cbn [aa_text aa_order p_id p_question p_status
                                       p_published_at p_closed_at row].
      unfold put at 1 2 3. rewrite String.eqb_refl.
      repeat split; auto.
  - assert (Hinvalid : ~ valid_create q texts).
    { intros H. apply Hspec in H. discriminate. }
    subst result. unfold handleCreatePoll. rewrite E. simpl.
    split; [tauto|]. split; [reflexivity|]. tauto.
Qed.

(** Creating the poll "Q?" with the answers A and B on an empty namespace
    gives a draft; an empty question is a validation error. *)
Lemma create_validation_witness :
  (exists p,
      fst (handleCreatePoll no_actors (env_at 1 "p") (doEnv_at 1)
                            (Some (mkCreatePollRequest "Q?" ["A"; "B"]))) =
      Return (mkApi 201 (APoll (Some p))) /\
      ap_status p = draft /\ map aa_text (ap_answers p) = ["A"; "B"]) /\
  handleCreatePoll no_actors (env_at 1 "p") (doEnv_at 1)
                   (Some (mkCreatePollRequest "" ["A"; "B"])) =
  (Return (errorResponse "Validation failed" 400 VALIDATION_ERROR), no_actors).
Proof.
  split.
  - destruct (create_validation no_actors (env_at 1 "p") (doEnv_at 1) "Q?" ["A"; "B"])
      as (_ & _ & H).
    destruct H as (p & Hp & _ & _ & Hst & _ & _ & Ht & _).
    + unfold valid_create. simpl. split; [lia|]. split; [|split; [|lia]].
      * intros a [<-|[<-|[]]]; simpl; lia.
      * repeat constructor; simpl; intuition discriminate.
    + apply Inv_empty.
    + reflexivity.
    + simpl. repeat constructor; simpl; intuition discriminate.
    + exists p. auto.
  - destruct (create_validation no_actors (env_at 1 "p") (doEnv_at 1) "" ["A"; "B"])
      as (_ & H & _).
    apply H. unfold valid_create. simpl. lia.
Defined.

(** ** C8: the order of the index *)

Lemma step_index_write (s : PollVoteCounter) (op : IndexOp) :
  poll_index (sql (step s (index_event op))) = index_write (poll_index (sql s)) op.
Proof.
  destruct op as [pollId time|pollId]; simpl; [|reflexivity].
  unfold Sql.insert_or_ignore_index.
  destruct (existsb _ (poll_index (sql s))); reflexivity.
Qed.

Lemma run_index_write (ops : list IndexOp) :
  forall s, poll_index (sql (run s (map index_event ops))) =
            fold_left index_write ops (poll_index (sql s)).
Proof.
  induction ops as [|op ops IH]; intros s; [reflexivity|].
  change (run s (map index_event (op :: ops)))
    with (run (step s (index_event op)) (map index_event ops)).
  rewrite IH, step_index_write. reflexivity.
Qed.

Lemma existsb_map_key (k : string) (table : list IndexRow) :
  existsb (fun x => String.eqb x k) (map i_poll_id table) =
  existsb (fun r => String.eqb (i_poll_id r) k) table.
Proof. induction table as [|r table IH]; simpl; [reflexivity|]. now rewrite IH. Qed.

Lemma filter_map_key (k : string) (table : list IndexRow) :
  filter (fun x => negb (String.eqb x k)) (map i_poll_id table) =
  map i_poll_id (filter (fun r => negb (String.eqb (i_poll_id r) k)) table).
Proof.
  induction table as [|r table IH]; simpl; [reflexivity|].
  destruct (String.eqb (i_poll_id r) k); simpl; now rewrite IH.
Qed.

(** The table, in rowid order, lists the present identifiers in insertion
    order. *)
Lemma index_rows_in_insertion_order (ops : list IndexOp) :
  forall table, map i_poll_id (fold_left index_write ops table) =
                present_after ops (map i_poll_id table).
Proof.
  induction ops as [|op ops IH]; intros table; simpl; [reflexivity|].
  rewrite IH. destruct op as [pollId time|pollId]; simpl.
  - rewrite existsb_map_key.
    destruct (existsb _ table); [reflexivity|]. now rewrite map_app.
  - now rewrite filter_map_key.
Qed.

Lemma insert_newest_first_perm (r : IndexRow) (l : list IndexRow) :
  Permutation (r :: l) (Sql.insert_newest_first r l).
Proof.
  induction l as [|x l IH]; simpl; [reflexivity|].
  destruct (i_created_at x <=? i_created_at r)%Z; [reflexivity|].
  rewrite perm_swap. now apply perm_skip.
Qed.

Lemma select_index_perm (db : SqlStorage) :
  Permutation (poll_index db) (Sql.select_index db).
Proof.
  unfold Sql.select_index.
  induction (poll_index db) as [|x l IH]; simpl; [constructor|].
  rewrite <- insert_newest_first_perm. now apply perm_skip.
Qed.

Lemma insert_newest_first_sorted (r : IndexRow) (l : list IndexRow) :
  StronglySorted newer_or_same l ->
  StronglySorted newer_or_same (Sql.insert_newest_first r l).
Proof.
  induction 1 as [|x l Hl IH Hx]; simpl.
  - constructor; constructor.
  - destruct (i_created_at x <=? i_created_at r)%Z eqn:E.
    + apply Z.leb_le in E. constructor; [now constructor|].
      constructor; [exact E|].
      eapply Forall_impl; [|exact Hx]. unfold newer_or_same. intros; lia.
    + apply Z.leb_gt in E. constructor; [exact IH|].
      eapply Permutation_Forall; [apply insert_newest_first_perm|].
      constructor; [unfold newer_or_same; lia|exact Hx].
Qed.

Lemma select_index_sorted (db : SqlStorage) :
  StronglySorted newer_or_same (Sql.select_index db).
Proof.
  unfold Sql.select_index.
  induction (poll_index db) as [|x l IH]; simpl; [constructor|].
  now apply insert_newest_first_sorted.
Qed.

(** A row older than all the others goes last. *)
Lemma insert_newest_first_oldest (r : IndexRow) (l : list IndexRow) :
  Forall (fun x => (i_created_at r < i_created_at x)%Z) l ->
  Sql.insert_newest_first r l = l ++ [r].
Proof.
  induction 1 as [|x l Hx Hl IH]; simpl; [reflexivity|].
  replace (i_created_at x <=? i_created_at r)%Z with false
    by (symmetry; apply Z.leb_gt; lia).
  now rewrite IH.
Qed.

(** Rows written under an advancing clock are read back in reverse. *)
Lemma newest_first_of_increasing (l : list IndexRow) :
  StronglySorted (fun a b => (i_created_at a < i_created_at b)%Z) l ->
  fold_right Sql.insert_newest_first [] l = rev l.
Proof.
  induction 1 as [|x l Hl IH Hx]; simpl; [reflexivity|].
  rewrite IH. apply insert_newest_first_oldest.
  apply Forall_rev. exact Hx.
Qed.

Lemma increasing_snoc (l : list IndexRow) (r : IndexRow) :
  StronglySorted (fun a b => (i_created_at a < i_created_at b)%Z) l ->
  Forall (fun x => (i_created_at x < i_created_at r)%Z) l ->
  StronglySorted (fun a b => (i_created_at a < i_created_at b)%Z) (l ++ [r]).
Proof.
  induction 1 as [|x l Hl IH Hx]; intros Hr; simpl.
  - constructor; constructor.
  - inversion Hr as [|? ? Hxr Hlr]; subst. constructor; [now apply IH|].
    apply Forall_app. split; [exact Hx|]. constructor; [exact Hxr|constructor].
Qed.

Lemma increasing_filter (keep : IndexRow -> bool) (l : list IndexRow) :
  StronglySorted (fun a b => (i_created_at a < i_created_at b)%Z) l ->
  StronglySorted (fun a b => (i_created_at a < i_created_at b)%Z) (filter keep l).
Proof.
  induction 1 as [|x l Hl IH Hx]; simpl; [constructor|].
  destruct (keep x); [|exact IH]. constructor; [exact IH|].
  apply Forall_forall. intros y Hy. apply filter_In in Hy.
  rewrite Forall_forall in Hx. now apply Hx.
Qed.

Lemma Forall_filter_keep {A} (P : A -> Prop) (keep : A -> bool) (l : list A) :
  Forall P l -> Forall P (filter keep l).
Proof.
  intros H. apply Forall_forall. intros y Hy. apply filter_In in Hy.
  rewrite Forall_forall in H. now apply H.
Qed.

(** Under an advancing clock the rows are in increasing order of
    [created_at]. *)
Lemma index_rows_increasing (ops : list IndexOp) :
  forall t table,
    StronglySorted (fun a b => (i_created_at a < i_created_at b)%Z) table ->
    Forall (fun r => (i_created_at r <= t)%Z) table ->
    clock_advances t ops ->
    StronglySorted (fun a b => (i_created_at a < i_created_at b)%Z)
                   (fold_left index_write ops table).
Proof.
  induction ops as [|op ops IH]; intros t table Hs Hb Hc; simpl; [exact Hs|].
  destruct op as [pollId time|pollId]; simpl in *.
  - destruct Hc as [Hlt Hc].
    assert (Hb' : Forall (fun r => (i_created_at r <= time)%Z) table).
    { eapply Forall_impl; [|exact Hb]. simpl. intros; lia. }
    destruct (existsb _ table).
    + now apply (IH time).
    + apply (IH time); [| |exact Hc].
      * apply increasing_snoc; [exact Hs|].
        eapply Forall_impl; [|exact Hb]. simpl. intros; lia.
      * apply Forall_app. split; [exact Hb'|].
        constructor; [simpl; lia|constructor].
  - apply (IH t); [| |exact Hc].
    + now apply increasing_filter.
    + now apply Forall_filter_keep.
Qed.

(** C8, as stated, fails: after the additions of a at time 1 and of b at
    time 2, [listIndex()] returns b before a, while the insertion order is a
    before b. *)
Lemma index_not_in_insertion_order :
  listIndex (run fresh (map index_event [addToIndex "a" 1; addToIndex "b" 2])) =
    ["b"; "a"] /\
  insertion_order [addToIndex "a" 1; addToIndex "b" 2] = ["a"; "b"] /\
  listIndex (run fresh (map index_event [addToIndex "a" 1; addToIndex "b" 2])) <>
    insertion_order [addToIndex "a" 1; addToIndex "b" 2].
Proof. repeat split. discriminate. Qed.

(** C8, amended.  After every sequence of [addToIndex] and [removeFromIndex]
    on the index actor, [listIndex()] returns each present identifier once,
    ordered by [created_at] descending: no identifier comes after one that
    was inserted earlier than it.  The rows of the table are, in rowid order,
    the present identifiers in insertion order, so when the clock strictly
    advances from one addition to the next, [listIndex()] is the insertion
    order reversed, newest first. *)
Theorem index_newest_first (ops : list IndexOp) :
  let s := run fresh (map index_event ops) in
  let rows := Sql.select_index (sql s) in
  listIndex s = map i_poll_id rows /\
  StronglySorted newer_or_same rows /\
  Permutation rows (poll_index (sql s)) /\
  map i_poll_id (poll_index (sql s)) = insertion_order ops /\
  Permutation (listIndex s) (insertion_order ops) /\
  NoDup (listIndex s) /\
  (forall t, clock_advances t ops -> listIndex s = rev (insertion_order ops)).
Proof.
  intros s rows.
  assert (Hl : listIndex s = map i_poll_id rows) by reflexivity.
  assert (Ht : map i_poll_id (poll_index (sql s)) = insertion_order ops).
  { subst s. rewrite run_index_write. apply index_rows_in_insertion_order. }
  assert (Hp : Permutation rows (poll_index (sql s)))
    by (symmetry; apply select_index_perm).
  assert (Hpl : Permutation (listIndex s) (insertion_order ops)).
  { rewrite Hl, <- Ht. now apply Permutation_map. }
  repeat match goal with |- _ /\ _ => split end; auto.
  - apply select_index_sorted.
  - apply (Permutation_NoDup (l := insertion_order ops)); [now symmetry|].
    rewrite <- Ht. apply (inv_index_key (reachable_Inv (map index_event ops))).
  - intros t Hc. rewrite Hl, <- Ht, <- map_rev. f_equal.
    subst rows. unfold Sql.select_index. apply newest_first_of_increasing.
    subst s. rewrite run_index_write.
    apply index_rows_increasing with (t := t); [constructor|constructor|exact Hc].
Qed.

(** The two additions above, read back newest first. *)
Lemma index_newest_first_witness :
  listIndex (run fresh (map index_event [addToIndex "a" 1; addToIndex "b" 2])) =
  rev (insertion_order [addToIndex "a" 1; addToIndex "b" 2]).
Proof.
  destruct (index_newest_first [addToIndex "a" 1; addToIndex "b" 2])
    as (_ & _ & _ & _ & _ & _ & H).
  apply (H 0%Z). simpl. lia.
Defined.

(** ** C10: a draft has no votes *)

Lemma Inv_votes_reference_answers (db : SqlStorage) :
  Inv db -> votes_reference_answers db.
Proof.
  intros HI. apply Forall_forall. intros v Hv.
  destruct (inv_fk HI v Hv) as (a & Ha & <-). now apply in_map.
Qed.

Lemma handleCreate_ok env id q texts s response :
  fst (handleCreate env id q texts s) = Return response -> ok response = true ->
  poll (sql s) = [] /\
  poll (sql (snd (handleCreate env id q texts s))) =
    [mkPollData id q draft (now env) (now env) None None 0].
Proof.
  unfold handleCreate. run_do. unfold Sql.select_poll_limit_1, Sql.insert_poll.
  destruct s as [[p a v ix] cs]. simpl.
  destruct p as [|row rest]; simpl; [|intros [= <-]; discriminate].
  match goal with
  | |- context [insert_answers env 0 texts ?s0] =>
      destruct (insert_answers_frame env texts 0 s0) as (Fp & _);
      destruct (insert_answers env 0 texts s0) as [c s']
  end.
  simpl in *. destruct c; simpl; [|discriminate]. auto.
Qed.

(** C10.  In every state the actor can reach: a poll in draft status has no
    vote rows, and every vote row points to an existing answer.  The pieces:
    a vote against a draft is refused and changes nothing; a creation that
    succeeds leaves a draft without votes; [delete()] leaves no votes; and
    whatever [update()] does to the answers of a reachable actor, no vote is
    left pointing to a missing answer, because when it replaces the answers
    there is no vote at all. *)
Theorem draft_has_no_votes (history : list Event) :
  let s := run fresh history in
  Forall (fun row => p_status row = draft -> votes (sql s) = []) (poll (sql s)) /\
  votes_reference_answers (sql s) /\
  (forall env answerId fp row,
      Sql.select_poll_limit_1 (sql s) = Some row -> p_status row = draft ->
      handleVote env answerId fp s = (Return InvalidState_vote, s)) /\
  (forall env id q texts response,
      fst (handleCreate env id q texts s) = Return response -> ok response = true ->
      votes (sql (snd (handleCreate env id q texts s))) = [] /\
      poll (sql (snd (handleCreate env id q texts s))) =
        [mkPollData id q draft (now env) (now env) None None 0]) /\
  votes (sql (snd (handleDelete s))) = [] /\
  (forall env q texts,
      let s' := snd (handleUpdate env q texts s) in
      votes_reference_answers (sql s') /\
      (answers (sql s') <> answers (sql s) -> votes (sql s') = [])).
Proof.
  intros s. pose proof (reachable_Inv history) as HI. fold s in HI.
  repeat match goal with |- _ /\ _ => split end.
  - apply Forall_forall. intros row Hin Hst. now apply (inv_draft HI row).
  - now apply Inv_votes_reference_answers.
  - intros. now apply handleVote_draft with (row := row).
  - intros env id q texts response Hr Hok.
    destruct (handleCreate_ok env id q texts s Hr Hok) as [Hp Hp'].
    split; [|exact Hp'].
    pose proof (handleCreate_Inv env id q texts s HI) as HI'.
    apply (inv_draft HI' (mkPollData id q draft (now env) (now env) None None 0)).
    + rewrite Hp'. now left.
    + reflexivity.
  - pose proof (handleDelete_Inv s HI) as HI'.
    destruct (Sql.select_poll_limit_1 (sql s)) as [row|] eqn:Hrow.
    + now rewrite (handleDelete_removes s Hrow).
    + rewrite (handleDelete_missing s Hrow). simpl.
      apply (inv_no_poll HI). unfold Sql.select_poll_limit_1 in Hrow.
      destruct (poll (sql s)); [reflexivity|discriminate].
  - intros env q texts s'.
    pose proof (handleUpdate_Inv env q texts s HI) as HI'. fold s' in HI'.
    split; [now apply Inv_votes_reference_answers|].
    intros Hchanged.
    destruct (Sql.select_poll_limit_1 (sql s)) as [row|] eqn:Hrow.
    + destruct (Status_eqb (p_status row) draft) eqn:Hst.
      * apply Status_eqb_eq in Hst.
        destruct (handleUpdate_poll env q texts s) as (f & Hf & Hp).
        fold s' in Hp.
        apply (inv_draft HI' (f row)).
        -- rewrite Hp. apply in_map. now apply select_poll_In.
        -- now rewrite Hf.
      * exfalso. apply Hchanged. subst s'. unfold handleUpdate. run_do.
        rewrite Hrow, Hst. reflexivity.
    + exfalso. apply Hchanged. subst s'. unfold handleUpdate. run_do.
      rewrite Hrow. reflexivity.
Qed.

(** The draft that was just created has no votes, and a vote against it is
    refused. *)
Lemma draft_has_no_votes_witness :
  votes (sql (run fresh draft_history)) = [] /\
  handleVote (env_at 2 "v") "a0" "fp1" (run fresh draft_history) =
    (Return InvalidState_vote, run fresh draft_history).
Proof.
  destruct (draft_has_no_votes draft_history) as (H1 & _ & H3 & _).
  split.
  - rewrite Forall_forall in H1.
    apply (H1 (mkPollData "p" "Q?" draft 1 1 None None 0)).
    + simpl. left. reflexivity.
    + reflexivity.
  - apply (H3 (env_at 2 "v") "a0" "fp1" (mkPollData "p" "Q?" draft 1 1 None None 0));
      reflexivity.
Defined.

(** ** C9: the voter fingerprint *)

Lemma length_append (a b : string) :
  String.length (String.append a b) = String.length a + String.length b.
Proof. induction a as [|c a IH]; simpl; [reflexivity|]. now rewrite IH. Qed.

Lemma padStart2_toString16 (b : Byte.byte) :
  String.length (padStart2 (toString16 b)) = 2.
Proof. destruct b; reflexivity. Qed.

(** The digest is printed with two characters per byte. *)
Lemma hex_length (bytes : list Byte.byte) :
  String.length (hex bytes) = 2 * List.length bytes.
Proof.
  unfold hex. induction bytes as [|b bytes IH]; simpl; [reflexivity|].
  destruct bytes as [|b' bytes'].
  - simpl. apply padStart2_toString16.
  - change (map (fun b0 => padStart2 (toString16 b0)) (b' :: bytes'))
      with (padStart2 (toString16 b') ::
            map (fun b0 => padStart2 (toString16 b0)) bytes') in *.
    cbv iota. rewrite length_append, IH, padStart2_toString16.
    simpl. lia.
Qed.

Example hex_of_three_bytes :
  hex [Byte.x00; Byte.x0f; Byte.xab] = "000fab".
Proof. reflexivity. Qed.

(** A vote that the route answers with 200 was accepted by the actor. *)
Lemma vote_reply_200 (doResponse : Response) :
  api_status (vote_reply doResponse) = 200 -> ok doResponse = true.
Proof.
  unfold vote_reply. destruct (ok doResponse); [reflexivity|]. simpl.
  repeat match goal with
         | |- context [if ?c then _ else _] => destruct c; simpl
         end; discriminate.
Qed.

(** Once a voter is accepted, a request from the same address with the same
    browser and the same answer is refused as a duplicate whatever client
    token it carries. *)
Lemma other_token_is_duplicate (uuid : string -> bool)
      (generate : HttpRequest -> option string -> string)
      (ns : Namespace) (env1 env2 : Env) (pollId : string)
      (ip ua : option string) (answerId : string) (c1 c2 : option string)
      (reply1 : ApiResponse) :
  let r1 := mkHttpRequest ip ua (Some (mkVoteBody answerId c1)) in
  let r2 := mkHttpRequest ip ua (Some (mkVoteBody answerId c2)) in
  (forall c, generate r1 c = generate r2 c) ->
  fst (VoteRoute.handleVote uuid generate ns env1 pollId r1) = Return reply1 ->
  api_status reply1 = 200 ->
  fst (VoteRoute.handleVote uuid generate
         (snd (VoteRoute.handleVote uuid generate ns env1 pollId r1))
         env2 pollId r2) =
  Return (errorResponse "Already voted" 409 DUPLICATE_VOTE).
Proof.
  intros r1 r2 Hgen. unfold VoteRoute.handleVote. simpl.
  unfold VoteRoute.voteRequestSchema. simpl.
  destruct (uuid answerId); simpl; [|intros [= <-]; discriminate].
  unfold VoteRoute.clientId_of. rewrite <- (Hgen None).
  set (fp := generate r1 None).
  unfold callDO. simpl.
  destruct (handleVote env1 answerId fp (ns pollId)) as [[response|e] s1] eqn:Hv;
    simpl; [|discriminate].
  intros [= <-] H200. apply vote_reply_200 in H200.
  assert (Hr : fst (handleVote env1 answerId fp (ns pollId)) = Return response)
    by now rewrite Hv.
  destruct (handleVote_ok_inv env1 answerId fp (ns pollId) Hr H200)
    as ((row & Hrow & Hst) & Ha & _ & Hs).
  rewrite Hv in Hs. simpl in Hs. subst s1.
  unfold put at 1. rewrite String.eqb_refl.
  rewrite (@handleVote_duplicate env2 answerId fp
             (accept_vote env1 answerId fp (ns pollId)) row); simpl; auto.
  rewrite map_app, in_app_iff. simpl. auto.
Qed.

(** The test vector of FIPS 180-4 for the message "abc", and a message
    longer than one block. *)
Example SHA256_abc :
  hex (SHA256.digest (list_byte_of_string "abc")) =
  "ba7816bf8f01cfea414140de5dae2223b00361a396177a9cb410ff61f20015ad".
Proof. vm_compute. reflexivity. Qed.

Example SHA256_two_blocks :
  hex (SHA256.digest (repeat Byte.x61 70)) =
  "6bd5e5034855a11241f0dee8fc72850ffd9955b28347a86428b5fa19119f6ad0".
Proof. vm_compute. reflexivity. Qed.

(** The digest has 32 bytes. *)
Lemma SHA256_digest_length (message : list Byte.byte) :
  List.length (SHA256.digest message) = 32.
Proof. unfold SHA256.digest. rewrite length_map, !length_app. reflexivity. Qed.

(** C9, on the code.  The fingerprint the vote route sends to the actor is
    a function of the CF-Connecting-IP and User-Agent headers alone, printed
    as two hexadecimal characters per byte of the digest: two requests that
    agree on these headers and on the answer are served identically, with
    either [generateFingerprint], whatever client token each body carries;
    the token is not an input of the derivation.  With the
    [generateFingerprint] of lib/fingerprint.ts the digest is taken of
    "ip:userAgent"; with the two-parameter one, of "ip:undefined". *)
Theorem vote_ignores_client_token
        (SHA_256 : list Byte.byte -> list Byte.byte) (uuid : string -> bool)
        (ns : Namespace) (env : Env) (pollId : string)
        (ip ua : option string) (answerId : string) (c1 c2 : option string) :
  let r1 := mkHttpRequest ip ua (Some (mkVoteBody answerId c1)) in
  let r2 := mkHttpRequest ip ua (Some (mkVoteBody answerId c2)) in
  VoteRoute.handleVote_ip_userAgent SHA_256 uuid ns env pollId r1 =
  VoteRoute.handleVote_ip_userAgent SHA_256 uuid ns env pollId r2 /\
  VoteRoute.handleVote_ip_clientId SHA_256 uuid ns env pollId r1 =
  VoteRoute.handleVote_ip_clientId SHA_256 uuid ns env pollId r2 /\
  VoteRoute.generateFingerprint SHA_256 r1 =
  hex (SHA_256 (list_byte_of_string
                  (String.append (or_unknown ip)
                                 (String.append ":" (or_unknown ua))))) /\
  VoteRoute.generateFingerprint_clientId
    SHA_256 r1 (VoteRoute.clientId_of (mkVoteRequest answerId)) =
  hex (SHA_256 (list_byte_of_string
                  (String.append (or_unknown ip) ":undefined"))) /\
  String.length (VoteRoute.generateFingerprint SHA_256 r1) =
  2 * List.length (SHA_256 (list_byte_of_string
                              (String.append (or_unknown ip)
                                             (String.append ":" (or_unknown ua))))) /\
  String.length (VoteRoute.generateFingerprint SHA256.digest r1) = 64.
Proof.
  intros r1 r2. repeat match goal with |- _ /\ _ => split end;
    try reflexivity.
  - unfold VoteRoute.generateFingerprint. simpl. apply hex_length.
  - unfold VoteRoute.generateFingerprint. cbv zeta.
    now rewrite hex_length, SHA256_digest_length.
Qed.

(** Two voters behind the address 203.0.113.7 with the same browser and
    different client tokens get the same fingerprint; one voter with one
    token and two browsers gets two fingerprints. *)
Example fingerprints_at_the_failing_inputs :
  VoteRoute.generateFingerprint
    SHA256.digest
    (mkHttpRequest (Some "203.0.113.7") (Some "Firefox")
                   (Some (mkVoteBody "A" (Some "c1")))) =
  "1c445e0b98f848f2a4f37d9266a00d25c4d1f0f7406115f7d1d74b86460341cb" /\
  VoteRoute.generateFingerprint
    SHA256.digest
    (mkHttpRequest (Some "203.0.113.7") (Some "Firefox")
                   (Some (mkVoteBody "A" (Some "c2")))) =
  "1c445e0b98f848f2a4f37d9266a00d25c4d1f0f7406115f7d1d74b86460341cb" /\
  VoteRoute.generateFingerprint
    SHA256.digest
    (mkHttpRequest (Some "203.0.113.7") (Some "Safari")
                   (Some (mkVoteBody "A" (Some "c1")))) =
  "23635b40991104d3d102518032b464011f616bedc780823f8499cfc1f8ead331" /\
  VoteRoute.generateFingerprint_clientId
    SHA256.digest
    (mkHttpRequest (Some "203.0.113.7") (Some "Firefox")
                   (Some (mkVoteBody "A" (Some "c1"))))
    (VoteRoute.clientId_of (mkVoteRequest "A")) =
  "2e103516fcd892851324d3fe0ea54ed447097121b6c176bf068b77bc53aa3255".
Proof. split; [|split; [|split]]; vm_compute; reflexivity. Qed.

(** With lib/fingerprint.ts, two requests that agree on the address and on
    the client token but not on the User-Agent have different digest
    inputs. *)
Example same_token_other_browser :
  String.append (or_unknown (Some "203.0.113.7"))
                (String.append ":" (or_unknown (Some "Firefox"))) <>
  String.append (or_unknown (Some "203.0.113.7"))
                (String.append ":" (or_unknown (Some "Safari"))).
Proof. discriminate. Qed.

(** * Further properties of the actor *)

(** ** Refused requests have no effect *)

Lemma handleGet_found (s : PollVoteCounter) :
  poll (sql s) <> [] ->
  exists p, handleGet s = (Return (mkResponse 200 (JPoll p)), s).
Proof.
  intros Hp. unfold handleGet. run_do. unfold Sql.select_poll_limit_1.
  destruct (poll (sql s)) as [|row rest]; [contradiction|]. simpl. eauto.
Qed.

(** [update] on a draft either throws or ends with the projection. *)
Lemma handleUpdate_draft_result env q texts s row :
  Sql.select_poll_limit_1 (sql s) = Some row -> p_status row = draft ->
  (exists e, fst (handleUpdate env q texts s) = Throw e) \/
  (exists p, fst (handleUpdate env q texts s) = Return (mkResponse 200 (JPoll p))).
Proof.
  intros Hrow Hst.
  assert (Hne : poll (sql s) <> []).
  { intros E. apply select_poll_In in Hrow. rewrite E in Hrow. contradiction. }
  assert (Hq : forall f : PollData -> PollData, map f (poll (sql s)) <> []).
  { intros f E. apply map_eq_nil in E. contradiction. }
  unfold handleUpdate. run_do. rewrite Hrow, Hst. simpl.
  destruct q as [q|], texts as [l|]; simpl.
  all: try match goal with
       | |- context [insert_answers ?e 0 ?l ?s0] =>
           destruct (insert_answers_frame e l 0 s0) as (Fp & _);
           destruct (insert_answers e 0 l s0) as [c s3]; simpl in Fp;
           destruct c; simpl; [|left; eauto]
       end.
  all: right.
  all: match goal with
       | |- context [handleGet ?s0] =>
           destruct (handleGet_found s0) as (p & ->); [simpl|eauto]
       end.
  all: try rewrite Fp; simpl; eauto.
  rewrite <- Fp. intros E. apply map_eq_nil in E. rewrite Fp in E.
  now apply Hq in E.
Qed.

(** X1.  A request that the actor answers with an error status leaves the
    actor exactly as it was: every handler refuses before its first write. *)
Theorem refused_request_changes_nothing
        (env : Env) (request : Request) (s : PollVoteCounter) (response : Response) :
  fst (fetch env request s) = Return response -> ok response = false ->
  snd (fetch env request s) = s.
Proof.
  destruct request as [id q texts| |q texts| | | | |aid fp|fp| | |pid|pid| ];
    simpl.
  - unfold handleCreate. run_do.
    destruct (Sql.select_poll_limit_1 (sql s)); simpl; [reflexivity|].
    destruct (Sql.insert_poll _ _ _ _ _ (sql s)); simpl; [|discriminate].
    destruct (insert_answers env 0 texts _) as [[[]|e] s']; simpl;
      [intros [= <-]|]; discriminate.
  - intros _ _. apply handleGet_state.
  - destruct (Sql.select_poll_limit_1 (sql s)) as [row|] eqn:Hrow.
    + destruct (Status_eqb (p_status row) draft) eqn:Hst.
      * apply Status_eqb_eq in Hst.
        destruct (handleUpdate_draft_result env q texts s Hrow Hst)
          as [(e & ->)|(p & ->)]; [discriminate|].
        intros [= <-]. discriminate.
      * intros _ _. unfold handleUpdate. run_do. rewrite Hrow, Hst. reflexivity.
    + intros _ _. unfold handleUpdate. run_do. rewrite Hrow. reflexivity.
  - destruct (Sql.select_poll_limit_1 (sql s)) as [row|] eqn:Hrow.
    + destruct (p_status row) eqn:Hst.
      * rewrite (handlePublish_draft env s Hrow Hst).
        destruct (handleGet_found (published_at_now env s)) as (p & ->).
        -- simpl. intros E. apply map_eq_nil in E.
           apply select_poll_In in Hrow. rewrite E in Hrow. contradiction.
        -- intros [= <-]. discriminate.
      * rewrite (@handlePublish_not_draft env s row Hrow); [reflexivity|congruence].
      * rewrite (@handlePublish_not_draft env s row Hrow); [reflexivity|congruence].
    + intros _ _. unfold handlePublish. run_do. rewrite Hrow. reflexivity.
  - destruct (Sql.select_poll_limit_1 (sql s)) as [row|] eqn:Hrow.
    + destruct (p_status row) eqn:Hst.
      * rewrite (@handleClose_not_published env s row Hrow); [reflexivity|congruence].
      * rewrite (handleClose_published env s Hrow Hst).
        destruct (handleGet_found (closed_at_now env s)) as (p & ->).
        -- simpl. intros E. apply map_eq_nil in E.
           apply select_poll_In in Hrow. rewrite E in Hrow. contradiction.
        -- intros [= <-]. discriminate.
      * rewrite (@handleClose_not_published env s row Hrow); [reflexivity|congruence].
    + intros _ _. unfold handleClose. run_do. rewrite Hrow. reflexivity.
  - destruct (Sql.select_poll_limit_1 (sql s)) as [row|] eqn:Hrow.
    + rewrite (handleDelete_removes s Hrow). intros [= <-]. discriminate.
    + now rewrite (handleDelete_missing s Hrow).
  - destruct (Sql.select_poll_limit_1 (sql s)) as [row|] eqn:Hrow.
    + rewrite (handleReset_state env s Hrow).
      match goal with
      | |- context [handleGet ?s0] => destruct (handleGet_found s0) as (p & ->)
      end.
      * simpl. intros E. apply map_eq_nil in E.
        apply select_poll_In in Hrow. rewrite E in Hrow. contradiction.
      * intros [= <-]. discriminate.
    + intros _ _. unfold handleReset. run_do. rewrite Hrow. reflexivity.
  - intros Hr Hok.
    destruct (accepted (fst (handleVote env aid fp s))) eqn:Hacc.
    + rewrite Hr in Hacc. simpl in Hacc. congruence.
    + clear Hr Hok. revert Hacc. unfold handleVote. run_do.
      destruct (Sql.select_poll_limit_1 (sql s)) as [row|]; simpl; [|reflexivity].
      destruct (p_status row); simpl; try reflexivity.
      destruct (Sql.select_answer aid (sql s)); simpl; [|reflexivity].
      destruct (Sql.select_vote fp (sql s)); simpl; [reflexivity|].
      destruct (Sql.insert_vote _ _ _ _ (sql s)); simpl; [discriminate|reflexivity].
  - intros [= <-]. discriminate.
  - intros [= <-]. discriminate.
  - intros [= <-]. discriminate.
  - intros [= <-]. discriminate.
  - intros [= <-]. discriminate.
  - reflexivity.
Qed.

(** A vote against the draft of [draft_history] is refused and changes
    nothing. *)
Lemma refused_request_changes_nothing_witness :
  snd (fetch (env_at 2 "v") (vote "a0" "fp1") (run fresh draft_history)) =
  run fresh draft_history.
Proof.
  apply (refused_request_changes_nothing
           (env_at 2 "v") (vote "a0" "fp1") (run fresh draft_history)
           (response := InvalidState_vote)); reflexivity.
Defined.

(** ** [check-voted] against [vote] *)

Lemma find_fingerprint_snoc (fp : string) (vs : list VoteRow) (v : VoteRow) :
  ~ In fp (map v_voter_fingerprint vs) ->
  find (fun r => String.eqb (v_voter_fingerprint r) fp) (vs ++ [v]) =
  if String.eqb (v_voter_fingerprint v) fp then Some v else None.
Proof.
  induction vs as [|x vs IH]; simpl; intros H; [reflexivity|].
  destruct (String.eqb (v_voter_fingerprint x) fp) eqn:E.
  - apply String.eqb_eq in E. tauto.
  - apply IH. tauto.
Qed.

(** X2.  [check-voted] never changes the actor and answers [hasVoted] exactly
    when a vote row carries the fingerprint; a fingerprint it reports as
    having voted is never accepted by [vote].  When a vote is accepted,
    [check-voted] answered false for its fingerprint before, answers true with
    the answer voted for after, and answers as before for every other
    fingerprint. *)
Theorem check_voted_agrees_with_vote (fp : string) (s : PollVoteCounter) :
  snd (handleCheckVoted fp s) = s /\
  (fst (checkVoted fp s) = true <-> In fp (fingerprints s)) /\
  (fst (checkVoted fp s) = true ->
   forall env answerId, accepted (fst (handleVote env answerId fp s)) = false) /\
  (forall env answerId response,
      fst (handleVote env answerId fp s) = Return response -> ok response = true ->
      checkVoted fp s = (false, None) /\
      checkVoted fp (snd (handleVote env answerId fp s)) = (true, Some answerId) /\
      forall other, other <> fp ->
                    checkVoted other (snd (handleVote env answerId fp s)) =
                    checkVoted other s).
Proof.
  assert (Hiff : fst (checkVoted fp s) = true <-> In fp (fingerprints s)).
  { unfold checkVoted, handleCheckVoted, fingerprints. run_do.
    unfold Sql.select_vote.
    destruct (find _ (votes (sql s))) as [v|] eqn:E; simpl.
    - apply find_key_some in E. destruct E as [E1 E2]. split; [|reflexivity].
      intros _. apply in_map_iff. eauto.
    - apply find_key_none in E. split; [discriminate|tauto]. }
  repeat match goal with |- _ /\ _ => split end; try (apply Hiff).
  - reflexivity.
  - intros Hvoted env answerId. apply Hiff in Hvoted.
    destruct (handleVote_cases env answerId fp s) as [[H _]|(_ & _ & H)];
      [exact H|contradiction].
  - intros env answerId response Hr Hok.
    destruct (handleVote_ok_inv env answerId fp s Hr Hok) as (_ & _ & Hnew & ->).
    unfold checkVoted, handleCheckVoted. run_do. unfold Sql.select_vote. simpl.
    rewrite (find_key_not_in _ _ _ Hnew). rewrite find_fingerprint_snoc by exact Hnew.
    simpl.
    rewrite String.eqb_refl. repeat split.
    intros other Hne.
    assert (E : find (fun r => String.eqb (v_voter_fingerprint r) other)
                     (votes (sql s) ++
                      [mkVoteRow (randomUUID env 0) answerId fp (now env)]) =
                find (fun r => String.eqb (v_voter_fingerprint r) other)
                     (votes (sql s))).
    { clear - Hne. generalize (votes (sql s)). intros l.
      induction l as [|x vs IH]; simpl.
      - replace (String.eqb fp other) with false; [reflexivity|].
        symmetry. apply String.eqb_neq. intros E. now subst.
      - destruct (String.eqb (v_voter_fingerprint x) other); [reflexivity|exact IH]. }
    now rewrite E.
Qed.

(** In the history of [one_vote], fp1 has voted for a0. *)
Lemma check_voted_agrees_with_vote_witness :
  checkVoted "fp1" (run fresh (firstn 2 one_vote_history)) = (false, None) /\
  checkVoted "fp1" one_vote = (true, Some "a0").
Proof.
  destruct (check_voted_agrees_with_vote "fp1" (run fresh (firstn 2 one_vote_history)))
    as (_ & _ & _ & H).
  destruct (H (env_at 3 "v") "a0"
              (mkResponse 200 (JCounts (getVoteCountsData (sql one_vote)))))
    as (H1 & H2 & _); [reflexivity|reflexivity|].
  split; [exact H1|exact H2].
Defined.

(** ** What a published poll keeps *)

(** A vote leaves the actor as it was or adds its row. *)
Lemma handleVote_state env answerId fp s :
  snd (handleVote env answerId fp s) = s \/
  snd (handleVote env answerId fp s) = accept_vote env answerId fp s.
Proof.
  unfold handleVote. run_do.
  destruct (Sql.select_poll_limit_1 (sql s)) as [row|]; simpl; [|now left].
  destruct (p_status row); simpl; try (now left).
  destruct (Sql.select_answer answerId (sql s)); simpl; [|now left].
  destruct (Sql.select_vote fp (sql s)); simpl; [now left|].
  unfold Sql.insert_vote. destruct (existsb _ (votes (sql s))); simpl;
    [now left|now right].
Qed.

Ltac same_fields := intros; simpl; repeat split; reflexivity.

(** [update] rewrites the poll rows in their question and [updated_at]
    only. *)
Lemma handleUpdate_poll_fields env question texts s :
  exists f, (forall r, p_id (f r) = p_id r /\ p_created_at (f r) = p_created_at r /\
                       p_status (f r) = p_status r /\
                       p_published_at (f r) = p_published_at r /\
                       p_closed_at (f r) = p_closed_at r /\
                       p_reset_count (f r) = p_reset_count r) /\
            poll (sql (snd (handleUpdate env question texts s))) =
            map f (poll (sql s)).
Proof.
  assert (Hid : exists f,
             (forall r, p_id (f r) = p_id r /\ p_created_at (f r) = p_created_at r /\
                        p_status (f r) = p_status r /\
                        p_published_at (f r) = p_published_at r /\
                        p_closed_at (f r) = p_closed_at r /\
                        p_reset_count (f r) = p_reset_count r) /\
             poll (sql s) = map f (poll (sql s))).
  { exists (fun r => r). split; [same_fields|]. now rewrite map_id. }
  unfold handleUpdate. run_do.
  destruct (Sql.select_poll_limit_1 (sql s)) as [row|]; simpl; [|assumption].
  destruct (Status_eqb (p_status row) draft); simpl; [|assumption].
  destruct question as [q|], texts as [l|]; simpl;
    try rewrite handleGet_sql; simpl; try assumption.
  2: { exists (Sql.set_question q (now env)). split; [same_fields|reflexivity]. }
  all: match goal with
       | |- context [insert_answers ?e 0 ?l ?s0] =>
           destruct (insert_answers_frame e l 0 s0) as (Fp & _);
           destruct (insert_answers e 0 l s0) as [c s3]; simpl in Fp;
           destruct c; simpl; try rewrite handleGet_sql; simpl; rewrite Fp
       end.
  - exists (fun r => Sql.set_updated_at (now env) (Sql.set_question q (now env) r)).
    split; [same_fields|]. now rewrite map_map.
  - exists (Sql.set_question q (now env)). split; [same_fields|reflexivity].
  - exists (Sql.set_updated_at (now env)). split; [same_fields|reflexivity].
  - assumption.
Qed.

(** One event that is not [delete]: the poll keeps its id and creation time,
    and, once it is no longer a draft, its question, its publication time and
    its answers. *)
Lemma step_frozen (s : PollVoteCounter) (e : Event) (row : PollData) :
  is_delete e = false ->
  Sql.select_poll_limit_1 (sql s) = Some row ->
  exists row',
    Sql.select_poll_limit_1 (sql (step s e)) = Some row' /\
    p_id row' = p_id row /\ p_created_at row' = p_created_at row /\
    (p_status row <> draft ->
     p_status row' <> draft /\ p_question row' = p_question row /\
     p_published_at row' = p_published_at row /\
     answers (sql (step s e)) = answers (sql s)).
Proof.
  intros Hdel Hrow.
  assert (Hsame : exists row',
             Sql.select_poll_limit_1 (sql s) = Some row' /\
             p_id row' = p_id row /\ p_created_at row' = p_created_at row /\
             (p_status row <> draft ->
              p_status row' <> draft /\ p_question row' = p_question row /\
              p_published_at row' = p_published_at row /\
              answers (sql s) = answers (sql s)))
    by (exists row; repeat split; auto).
  destruct e as [env request|connectionId]; simpl; [|assumption].
  destruct request as [id q texts| |q texts| | | | |aid fp|fp| | |pid|pid| ];
    simpl; try assumption; try discriminate.
  - unfold handleCreate. run_do. rewrite Hrow. assumption.
  - now rewrite handleGet_state.
  - destruct (Status_eqb (p_status row) draft) eqn:Hst.
    + apply Status_eqb_eq in Hst.
      destruct (handleUpdate_poll_fields env q texts s) as (f & Hf & Hp).
      destruct (Hf row) as (F1 & F2 & F3 & _).
      exists (f row). repeat split; auto; try congruence.
      unfold Sql.select_poll_limit_1 in *. rewrite Hp.
      destruct (poll (sql s)); simpl in *; [discriminate|]. now injection Hrow as ->.
    + unfold handleUpdate. run_do. rewrite Hrow, Hst. assumption.
  - destruct (p_status row) eqn:Hst.
    + rewrite (handlePublish_draft env s Hrow Hst), handleGet_state. simpl.
      rewrite (select_poll_map _ _ Hrow). eexists. split; [reflexivity|].
      simpl. repeat split; congruence.
    + rewrite (@handlePublish_not_draft env s row Hrow); [rewrite <- Hst in *; assumption|congruence].
    + rewrite (@handlePublish_not_draft env s row Hrow); [rewrite <- Hst in *; assumption|congruence].
  - destruct (p_status row) eqn:Hst.
    + rewrite (@handleClose_not_published env s row Hrow); [rewrite <- Hst in *; assumption|congruence].
    + rewrite (handleClose_published env s Hrow Hst), handleGet_state. simpl.
      rewrite (select_poll_map _ _ Hrow). eexists. split; [reflexivity|].
      simpl. repeat split; congruence.
    + rewrite (@handleClose_not_published env s row Hrow); [rewrite <- Hst in *; assumption|congruence].
  - rewrite (handleReset_state env s Hrow), handleGet_state. simpl.
    exists (Sql.bump_reset_count (now env) row). simpl.
    split; [|repeat split; auto].
    unfold Sql.select_poll_limit_1 in *. simpl.
    destruct (poll (sql s)); simpl in *; [discriminate|]. now injection Hrow as ->.
  - destruct (handleVote_state env aid fp s) as [->| ->]; assumption.
  - unfold Sql.insert_or_ignore_index.
    destruct (existsb _ (poll_index (sql s))); assumption.
Qed.

(** X3.  Along every history without [delete], the poll an actor holds keeps
    its id and its creation time; and from the moment it is published (or
    closed) it also keeps its question, its publication time and its answer
    rows (ids, texts and order), and never becomes a draft again. *)
Theorem published_poll_is_frozen (history : list Event) :
  forall s row,
    forallb (fun e => negb (is_delete e)) history = true ->
    Sql.select_poll_limit_1 (sql s) = Some row ->
    exists row',
      Sql.select_poll_limit_1 (sql (run s history)) = Some row' /\
      p_id row' = p_id row /\ p_created_at row' = p_created_at row /\
      (p_status row <> draft ->
       p_status row' <> draft /\ p_question row' = p_question row /\
       p_published_at row' = p_published_at row /\
       answers (sql (run s history)) = answers (sql s)).
Proof.
  induction history as [|e history IH]; intros s row Hnd Hrow; simpl in *.
  - exists row. repeat split; auto.
  - apply andb_true_iff in Hnd. destruct Hnd as [He Hh].
    apply negb_true_iff in He.
    destruct (step_frozen s e He Hrow) as (row1 & Hrow1 & I1 & C1 & F1).
    destruct (IH (step s e) row1 Hh Hrow1) as (row2 & Hrow2 & I2 & C2 & F2).
    exists row2. split; [exact Hrow2|]. split; [congruence|]. split; [congruence|].
    intros Hst. destruct (F1 Hst) as (S1 & Q1 & P1 & A1).
    destruct (F2 S1) as (S2 & Q2 & P2 & A2).
    repeat split; congruence.
Qed.

(** An update attempt and a reset after the vote of [one_vote] leave the
    question and the answers of the published poll alone. *)
Lemma published_poll_is_frozen_witness :
  answers (sql (run one_vote
                    [Fetch (env_at 7 "u") (update (Some "New?") (Some ["X"; "Y"]));
                     Fetch (env_at 8 "r") reset])) =
  answers (sql one_vote).
Proof.
  destruct (published_poll_is_frozen
              [Fetch (env_at 7 "u") (update (Some "New?") (Some ["X"; "Y"]));
               Fetch (env_at 8 "r") reset]
              one_vote (row := one_vote_row))
    as (row' & _ & _ & _ & H).
  - reflexivity.
  - reflexivity.
  - apply H. discriminate.
Defined.

(** ** [reset_count] counts the resets *)

Lemma step_reset_count (s : PollVoteCounter) (e : Event) (row : PollData) :
  is_delete e = false ->
  Sql.select_poll_limit_1 (sql s) = Some row ->
  exists row',
    Sql.select_poll_limit_1 (sql (step s e)) = Some row' /\
    p_reset_count row' = p_reset_count row + (if is_reset e then 1 else 0).
Proof.
  intros Hdel Hrow.
  assert (Hsame : exists row', Sql.select_poll_limit_1 (sql s) = Some row' /\
                               p_reset_count row' = p_reset_count row + 0)
    by (exists row; split; [assumption|lia]).
  destruct e as [env request|connectionId]; simpl; [|assumption].
  destruct request as [id q texts| |q texts| | | | |aid fp|fp| | |pid|pid| ];
    simpl; try assumption; try discriminate.
  - unfold handleCreate. run_do. rewrite Hrow. assumption.
  - now rewrite handleGet_state.
  - destruct (handleUpdate_poll_fields env q texts s) as (f & Hf & Hp).
    destruct (Hf row) as (_ & _ & _ & _ & _ & F).
    exists (f row). split; [|lia].
    unfold Sql.select_poll_limit_1 in *. rewrite Hp.
    destruct (poll (sql s)); simpl in *; [discriminate|]. now injection Hrow as ->.
  - destruct (p_status row) eqn:Hst.
    + rewrite (handlePublish_draft env s Hrow Hst), handleGet_state. simpl.
      rewrite (select_poll_map _ _ Hrow). eexists. split; [reflexivity|].
      simpl. lia.
    + rewrite (@handlePublish_not_draft env s row Hrow); [assumption|congruence].
    + rewrite (@handlePublish_not_draft env s row Hrow); [assumption|congruence].
  - destruct (p_status row) eqn:Hst.
    + rewrite (@handleClose_not_published env s row Hrow); [assumption|congruence].
    + rewrite (handleClose_published env s Hrow Hst), handleGet_state. simpl.
      rewrite (select_poll_map _ _ Hrow). eexists. split; [reflexivity|].
      simpl. lia.
    + rewrite (@handleClose_not_published env s row Hrow); [assumption|congruence].
  - rewrite (handleReset_state env s Hrow), handleGet_state. simpl.
    exists (Sql.bump_reset_count (now env) row). split; [|reflexivity].
    unfold Sql.select_poll_limit_1 in *. simpl.
    destruct (poll (sql s)); simpl in *; [discriminate|]. now injection Hrow as ->.
  - destruct (handleVote_state env aid fp s) as [->| ->]; assumption.
  - unfold Sql.insert_or_ignore_index.
    destruct (existsb _ (poll_index (sql s))); assumption.
Qed.

(** X4.  Along every history without [delete], the [reset_count] of the poll
    grows by exactly the number of [reset] requests served, whatever the
    status of the poll: no other request changes it, and no reset is lost. *)
Theorem reset_count_counts_resets (history : list Event) :
  forall s row,
    forallb (fun e => negb (is_delete e)) history = true ->
    Sql.select_poll_limit_1 (sql s) = Some row ->
    exists row',
      Sql.select_poll_limit_1 (sql (run s history)) = Some row' /\
      p_reset_count row' = p_reset_count row + resets history.
Proof.
  induction history as [|e history IH]; intros s row Hnd Hrow; simpl in *.
  - exists row. split; [assumption|]. unfold resets. simpl. lia.
  - apply andb_true_iff in Hnd. destruct Hnd as [He Hh].
    apply negb_true_iff in He.
    destruct (step_reset_count s e He Hrow) as (row1 & Hrow1 & C1).
    destruct (IH (step s e) row1 Hh Hrow1) as (row2 & Hrow2 & C2).
    exists row2. split; [exact Hrow2|].
    rewrite C2, C1. unfold resets. simpl. destruct (is_reset e); simpl; lia.
Qed.

(** Two resets and a vote after the history of [one_vote]: the count is 2. *)
Lemma reset_count_counts_resets_witness :
  exists row',
    Sql.select_poll_limit_1
      (sql (run one_vote [Fetch (env_at 7 "r") reset;
                          Fetch (env_at 8 "v") (vote "a1" "fp9");
                          Fetch (env_at 9 "r") reset])) = Some row' /\
    p_reset_count row' = 2.
Proof.
  destruct (reset_count_counts_resets
              [Fetch (env_at 7 "r") reset;
               Fetch (env_at 8 "v") (vote "a1" "fp9");
               Fetch (env_at 9 "r") reset]
              one_vote (row := one_vote_row))
    as (row' & Hrow' & Hc).
  - reflexivity.
  - reflexivity.
  - exists row'. split; [exact Hrow'|exact Hc].
Defined.

(** ** The order of the answers *)

(** The insert loop numbers the rows it adds from [i] on. *)
Lemma insert_answers_orders (env : Env) (texts : list string) :
  forall i s,
    exists k,
      map a_display_order (answers (sql (snd (insert_answers env i texts s)))) =
      map a_display_order (answers (sql s)) ++ seq i k.
Proof.
  induction texts as [|text rest IH]; intros i s; simpl.
  - exists 0. simpl. now rewrite app_nil_r.
  - unfold bind, exec_insert, Sql.insert_answer.
    destruct (existsb _ (answers (sql s))); simpl.
    + exists 0. simpl. now rewrite app_nil_r.
    + match goal with
      | |- context [insert_answers env (S i) rest ?s0] =>
          destruct (IH (S i) s0) as (k & Hk);
          destruct (insert_answers env (S i) rest s0) as [c s']
      end.
      simpl in *. exists (S k).
      destruct c; simpl; rewrite Hk, map_app, <- app_assoc; reflexivity.
Qed.

Lemma orders_from_zero_after_insert (env : Env) (texts : list string) (s : PollVoteCounter) :
  answers (sql s) = [] ->
  orders_from_zero (sql (snd (insert_answers env 0 texts s))).
Proof.
  intros Ha. unfold orders_from_zero.
  destruct (insert_answers_orders env texts 0 s) as (k & Hk).
  rewrite Ha in Hk. simpl in Hk.
  assert (E : List.length (answers (sql (snd (insert_answers env 0 texts s)))) = k).
  { rewrite <- (length_map a_display_order), Hk. apply length_seq. }
  now rewrite E.
Qed.

Lemma step_orders_from_zero (s : PollVoteCounter) (e : Event) :
  Inv (sql s) -> orders_from_zero (sql s) -> orders_from_zero (sql (step s e)).
Proof.
  intros HI H0.
  destruct e as [env request|connectionId]; simpl; [|assumption].
  destruct request as [id q texts| |q texts| | | | |aid fp|fp| | |pid|pid| ];
    simpl; try assumption.
  - unfold handleCreate. run_do. unfold Sql.select_poll_limit_1, Sql.insert_poll.
    destruct s as [[p a v ix] cs]. simpl in *.
    destruct p as [|row rest]; simpl; [|assumption].
    destruct (inv_no_poll HI eq_refl) as [_ Ha]. simpl in Ha. subst a.
    match goal with
    | |- context [insert_answers env 0 texts ?s0] =>
        pose proof (@orders_from_zero_after_insert env texts s0 eq_refl) as Ho;
        destruct (insert_answers env 0 texts s0) as [c s']
    end.
    simpl in *. destruct c; simpl; assumption.
  - now rewrite handleGet_state.
  - unfold handleUpdate. run_do.
    destruct (Sql.select_poll_limit_1 (sql s)) as [row|]; simpl; [|assumption].
    destruct (Status_eqb (p_status row) draft); simpl; [|assumption].
    destruct q as [q|], texts as [l|]; simpl;
      try (rewrite handleGet_state; simpl; assumption).
    all: match goal with
         | |- context [insert_answers ?e 0 ?l ?s0] =>
             pose proof (@orders_from_zero_after_insert e l s0 eq_refl) as Ho;
             destruct (insert_answers e 0 l s0) as [c s3]; simpl in Ho;
             destruct c; simpl; try rewrite handleGet_state; simpl; assumption
         end.
  - unfold handlePublish. run_do.
    destruct (Sql.select_poll_limit_1 (sql s)) as [row|]; simpl; [|assumption].
    destruct (Status_eqb (p_status row) draft); simpl; [|assumption].
    now rewrite handleGet_state.
  - unfold handleClose. run_do.
    destruct (Sql.select_poll_limit_1 (sql s)) as [row|]; simpl; [|assumption].
    destruct (Status_eqb (p_status row) published); simpl; [|assumption].
    now rewrite handleGet_state.
  - unfold handleDelete. run_do.
    destruct (Sql.select_poll_limit_1 (sql s)) as [row|]; simpl; [|assumption].
    reflexivity.
  - unfold handleReset. run_do.
    destruct (Sql.select_poll_limit_1 (sql s)) as [row|]; simpl; [|assumption].
    now rewrite handleGet_state.
  - destruct (handleVote_state env aid fp s) as [->| ->]; assumption.
  - unfold Sql.insert_or_ignore_index.
    destruct (existsb _ (poll_index (sql s))); assumption.
Qed.

Lemma reachable_orders_from_zero (history : list Event) :
  forall s, Inv (sql s) -> orders_from_zero (sql s) ->
            orders_from_zero (sql (run s history)).
Proof.
  induction history as [|e history IH]; intros s HI H0; simpl; [assumption|].
  apply IH; [now apply step_Inv|now apply step_orders_from_zero].
Qed.

(** Rows numbered in increasing order are already in [ORDER BY] order. *)
Lemma order_by_numbered (l : list AnswerData) :
  forall i, map a_display_order l = seq i (List.length l) ->
            Sql.order_by_display_order l = l.
Proof.
  unfold Sql.order_by_display_order.
  induction l as [|x l IH]; intros i H; simpl; [reflexivity|].
  simpl in H. injection H as Hx Hl. rewrite (IH (S i) Hl).
  destruct l as [|y l']; simpl; [reflexivity|].
  simpl in Hl. injection Hl as Hy _.
  replace (a_display_order x <=? a_display_order y)%nat with true; [reflexivity|].
  symmetry. apply Nat.leb_le. lia.
Qed.

(** X5.  In every state the actor can reach, the answer rows are numbered
    0, 1, 2, ... in the order they were inserted, so [display_order] is
    unique within the poll, and [get()] and the vote counts list the answers
    in exactly that order, which is the order of the texts given to [create]
    or to the last [update]. *)
Theorem answers_keep_their_order (history : list Event) :
  let s := run fresh history in
  map a_display_order (answers (sql s)) = seq 0 (List.length (answers (sql s))) /\
  NoDup (map a_display_order (answers (sql s))) /\
  map fst (Sql.answers_with_counts (sql s)) = answers (sql s) /\
  map answerId (vc_answers (getVoteCountsData (sql s))) = map a_id (answers (sql s)) /\
  match fst (handleGet s) with
  | Return (mkResponse _ (JPoll p)) =>
      map answer_id (answers_of p) = map a_id (answers (sql s)) /\
      map answer_text (answers_of p) = map a_answer_text (answers (sql s)) /\
      map display_order (answers_of p) = seq 0 (List.length (answers (sql s)))
  | _ => poll (sql s) = []
  end.
Proof.
  intros s.
  assert (H0 : orders_from_zero (sql s)).
  { apply reachable_orders_from_zero; [apply Inv_empty|reflexivity]. }
  assert (Hsort : Sql.order_by_display_order (answers (sql s)) = answers (sql s))
    by (apply order_by_numbered with (i := 0); exact H0).
  assert (Hrows : map fst (Sql.answers_with_counts (sql s)) = answers (sql s)).
  { unfold Sql.answers_with_counts. rewrite Hsort, map_map. simpl. apply map_id. }
  repeat match goal with |- _ /\ _ => split end.
  - exact H0.
  - rewrite H0. apply seq_NoDup.
  - exact Hrows.
  - simpl. rewrite map_map. simpl. rewrite <- Hrows, map_map. reflexivity.
  - unfold handleGet. run_do. unfold Sql.select_poll_limit_1.
    destruct (poll (sql s)) as [|row rest]; simpl; [reflexivity|].
    rewrite !map_map. simpl. repeat split.
    + rewrite <- Hrows, map_map. reflexivity.
    + rewrite <- Hrows, map_map. reflexivity.
    + rewrite <- H0. rewrite <- Hrows, map_map. reflexivity.
Qed.

(** ** [update] *)

(** X6.  [update] answers NotFound without a poll and 400 "Can only update
    draft polls" once the poll is published or closed.  On a draft it
    replaces the question when one is given, and when answers are given it
    discards every answer row and inserts the new texts under new ids,
    numbered from 0 (the ids drawn being distinct); the status stays draft,
    the votes are untouched, [updated_at] takes the time of the request when
    anything was given, and a body with neither field changes nothing. *)
Theorem update_semantics (env : Env) (q : option string) (texts : option (list string))
        (s : PollVoteCounter) :
  (Sql.select_poll_limit_1 (sql s) = None ->
   handleUpdate env q texts s = (Return NotFound, s)) /\
  (forall row,
      Sql.select_poll_limit_1 (sql s) = Some row -> p_status row <> draft ->
      handleUpdate env q texts s = (Return InvalidState_update, s)) /\
  (forall row,
      Sql.select_poll_limit_1 (sql s) = Some row -> p_status row = draft ->
      NoDup (map (randomUUID env)
                 (seq 0 (List.length (match texts with Some l => l | None => [] end)))) ->
      let s' := snd (handleUpdate env q texts s) in
      (exists p, fst (handleUpdate env q texts s) =
                 Return (mkResponse 200 (JPoll p))) /\
      answers (sql s') =
        match texts with
        | Some l => new_answers env 0 l
        | None => answers (sql s)
        end /\
      votes (sql s') = votes (sql s) /\
      exists row',
        Sql.select_poll_limit_1 (sql s') = Some row' /\
        p_status row' = draft /\
        p_question row' = match q with Some x => x | None => p_question row end /\
        p_updated_at row' =
          match q, texts with
          | None, None => p_updated_at row
          | _, _ => now env
          end).
Proof.
  repeat match goal with |- _ /\ _ => split end.
  - intros Hrow. unfold handleUpdate. run_do. rewrite Hrow. reflexivity.
  - intros row Hrow Hst. unfold handleUpdate. run_do. rewrite Hrow.
    destruct (p_status row); simpl; [congruence|reflexivity|reflexivity].
  - intros row Hrow Hst Hnd s'. subst s'.
    assert (Hhd : forall f : PollData -> PollData,
               hd_error (map f (poll (sql s))) = Some (f row)).
    { intros f. unfold Sql.select_poll_limit_1 in Hrow.
      destruct (poll (sql s)); simpl in *; [discriminate|]. now injection Hrow as ->. }
    assert (Hne : forall f : PollData -> PollData, map f (poll (sql s)) <> []).
    { intros f E. specialize (Hhd f). rewrite E in Hhd. discriminate. }
    unfold handleUpdate. run_do. rewrite Hrow, Hst. simpl.
    destruct q as [q|], texts as [l|]; simpl.
    all: try (rewrite insert_answers_ok by (simpl; exact Hnd); simpl).
    all: match goal with
         | |- context [handleGet ?s0] =>
             destruct (handleGet_found s0) as (p & ->);
               [simpl; try rewrite map_map; try apply Hne;
                try (rewrite <- (map_id (poll (sql s))); apply Hne)|]
         end.
    all: simpl; split; [eauto|]; split; [reflexivity|]; split; [reflexivity|].
    all: unfold Sql.select_poll_limit_1; simpl; try rewrite map_map;
      try rewrite Hhd; eauto.
Qed.

(** Replacing the question and the answers of the draft of [draft_history]. *)
Lemma update_semantics_witness :
  map a_answer_text
      (answers (sql (snd (handleUpdate (env_at 5 "n") (Some "New?")
                                       (Some ["X"; "Y"; "Z"])
                                       (run fresh draft_history))))) =
  ["X"; "Y"; "Z"].
Proof.
  destruct (update_semantics (env_at 5 "n") (Some "New?") (Some ["X"; "Y"; "Z"])
                             (run fresh draft_history)) as (_ & _ & H).
  destruct (H (mkPollData "p" "Q?" draft 1 1 None None 0)) as (_ & Ha & _).
  - reflexivity.
  - reflexivity.
  - simpl. repeat constructor; simpl; intuition discriminate.
  - rewrite Ha. reflexivity.
Defined.

(** ** The subscribers *)




(** ** The storage does not depend on the subscribers *)












(** ** Adding to and removing from the index *)

Lemma listIndex_In (s : PollVoteCounter) (x : string) :
  In x (listIndex s) <-> In x (map i_poll_id (poll_index (sql s))).
Proof.
  unfold listIndex, handleGetIndex. run_do.
  pose proof (Permutation_map i_poll_id (select_index_perm (sql s))) as Hp.
  split; intros H.
  - eapply Permutation_in; [symmetry; exact Hp|exact H].
  - eapply Permutation_in; [exact Hp|exact H].
Qed.

Lemma filter_all_kept {A} (keep : A -> bool) (l : list A) :
  (forall x, In x l -> keep x = true) -> filter keep l = l.
Proof.
  induction l as [|x l IH]; simpl; intros H; [reflexivity|].
  rewrite (H x) by now left. f_equal. apply IH. intros y Hy. apply H. now right.
Qed.

(** X9.  [addToIndex] makes the identifier present and is idempotent: a
    second addition changes nothing, not even the recorded time.
    [removeFromIndex] makes it absent, is idempotent, and changes nothing
    when the identifier was not there.  Neither touches the presence of any
    other identifier. *)
Theorem index_add_remove (s : PollVoteCounter) (pollId : string) (env env' : Env) :
  let added := snd (handleAddToIndex env pollId s) in
  let removed := snd (handleRemoveFromIndex pollId s) in
  In pollId (listIndex added) /\
  snd (handleAddToIndex env' pollId added) = added /\
  (forall other, other <> pollId ->
                 (In other (listIndex added) <-> In other (listIndex s))) /\
  ~ In pollId (listIndex removed) /\
  snd (handleRemoveFromIndex pollId removed) = removed /\
  (forall other, other <> pollId ->
                 (In other (listIndex removed) <-> In other (listIndex s))) /\
  (~ In pollId (listIndex s) -> removed = s) /\
  (In pollId (listIndex s) -> added = s).
Proof.
  intros added removed. subst added removed.
  unfold handleAddToIndex, handleRemoveFromIndex. run_do.
  unfold Sql.insert_or_ignore_index, Sql.delete_index.
  destruct s as [[p a v ix] cs]. simpl.
  repeat match goal with |- _ /\ _ => split end.
  - rewrite listIndex_In. simpl.
    destruct (existsb _ ix) eqn:E; simpl.
    + now apply existsb_key_true.
    + rewrite map_app, in_app_iff. simpl. auto.
  - destruct (existsb _ ix) eqn:E; simpl.
    + now rewrite E.
    + rewrite existsb_app. simpl. rewrite String.eqb_refl, orb_true_r. reflexivity.
  - intros other Hne. rewrite !listIndex_In. simpl.
    destruct (existsb _ ix); simpl; [tauto|].
    rewrite map_app, in_app_iff. simpl. intuition congruence.
  - rewrite listIndex_In. simpl. rewrite in_map_iff.
    intros (r & Hr & Hin). apply filter_In in Hin. destruct Hin as [_ Hk].
    rewrite Hr, String.eqb_refl in Hk. discriminate.
  - f_equal. f_equal. apply filter_all_kept.
    intros x Hx. apply filter_In in Hx. tauto.
  - intros other Hne. rewrite !listIndex_In. simpl. rewrite !in_map_iff.
    split.
    + intros (r & Hr & Hin). apply filter_In in Hin. exists r. tauto.
    + intros (r & Hr & Hin). exists r. split; [exact Hr|].
      apply filter_In. split; [exact Hin|].
      apply negb_true_iff, String.eqb_neq. congruence.
  - rewrite listIndex_In. simpl. intros Habs. f_equal. f_equal.
    apply filter_all_kept. intros x Hx. apply negb_true_iff, String.eqb_neq.
    intros E. apply Habs. rewrite <- E. now apply in_map.
  - rewrite listIndex_In. simpl. intros Hin.
    destruct (existsb _ ix) eqn:E; [reflexivity|].
    apply existsb_key_false in E. contradiction.
Qed.

(** Adding p1 twice and removing it once leaves the index empty. *)
Lemma index_add_remove_witness :
  snd (handleRemoveFromIndex "p9" fresh) = fresh /\
  snd (handleAddToIndex (env_at 2 "") "p1"
                        (snd (handleAddToIndex (env_at 1 "") "p1" fresh))) =
  snd (handleAddToIndex (env_at 1 "") "p1" fresh).
Proof.
  destruct (index_add_remove fresh "p9" (env_at 1 "") (env_at 2 ""))
    as (_ & _ & _ & _ & _ & _ & H & _).
  destruct (index_add_remove fresh "p1" (env_at 1 "") (env_at 2 ""))
    as (_ & H2 & _).
  split; [|exact H2].
  apply H. simpl. tauto.
Defined.

(** ** A closed poll *)

Lemma step_closed (s : PollVoteCounter) (e : Event) (row : PollData) :
  is_delete e = false -> is_reset e = false ->
  Sql.select_poll_limit_1 (sql s) = Some row -> p_status row = closed ->
  sql (step s e) = sql s \/
  exists pollId t, sql (step s e) = Sql.insert_or_ignore_index pollId t (sql s) \/
                   sql (step s e) = Sql.delete_index pollId (sql s).
Proof.
  intros Hdel Hres Hrow Hst.
  destruct e as [env request|connectionId]; simpl; [|now left].
  destruct request as [id q texts| |q texts| | | | |aid fp|fp| | |pid|pid| ];
    simpl; try discriminate; try (now left).
  - left. unfold handleCreate. run_do. now rewrite Hrow.
  - left. now rewrite handleGet_state.
  - left. unfold handleUpdate. run_do. now rewrite Hrow, Hst.
  - left. rewrite (@handlePublish_not_draft env s row Hrow); [reflexivity|congruence].
  - left. rewrite (@handleClose_not_published env s row Hrow); [reflexivity|congruence].
  - left. now rewrite (handleVote_closed env aid fp s Hrow Hst).
  - right. exists pid, (now env). now left.
  - right. exists pid, 0%Z. now right.
Qed.

(** [get()] reads the poll, the answers and the votes only. *)
Lemma handleGet_tables (s1 s2 : PollVoteCounter) :
  poll (sql s1) = poll (sql s2) -> answers (sql s1) = answers (sql s2) ->
  votes (sql s1) = votes (sql s2) ->
  fst (handleGet s1) = fst (handleGet s2).
Proof.
  destruct s1 as [[p1 a1 v1 i1] c1], s2 as [[p2 a2 v2 i2] c2]. simpl.
  intros -> -> ->. unfold handleGet. run_do.
  unfold Sql.select_poll_limit_1, Sql.answers_with_counts, Sql.count_votes. simpl.
  destruct p2; reflexivity.
Qed.

(** X10.  Once a poll is closed its tally is final: along every history with
    neither [delete] nor [reset], the poll row, the answers and the votes of
    a closed poll stay exactly as they were at closing, so every later
    [get()] reports the same counts. *)
Theorem closed_poll_is_final (history : list Event) :
  forall s row,
    forallb (fun e => negb (is_delete e) && negb (is_reset e)) history = true ->
    Sql.select_poll_limit_1 (sql s) = Some row -> p_status row = closed ->
    poll (sql (run s history)) = poll (sql s) /\
    answers (sql (run s history)) = answers (sql s) /\
    votes (sql (run s history)) = votes (sql s) /\
    fst (handleGet (run s history)) = fst (handleGet s).
Proof.
  induction history as [|e history IH]; intros s row Hnd Hrow Hst; simpl in *.
  - auto.
  - apply andb_true_iff in Hnd. destruct Hnd as [He Hh].
    apply andb_true_iff in He. destruct He as [Hd Hr].
    apply negb_true_iff in Hd. apply negb_true_iff in Hr.
    assert (Hstep : poll (sql (step s e)) = poll (sql s) /\
                    answers (sql (step s e)) = answers (sql s) /\
                    votes (sql (step s e)) = votes (sql s)).
    { destruct (step_closed s e Hd Hr Hrow Hst) as [->|(pid & t & [->| ->])];
        auto.
      unfold Sql.insert_or_ignore_index.
      destruct (existsb _ (poll_index (sql s))); auto. }
    destruct Hstep as (Ep & Ea & Ev).
    assert (Hrow1 : Sql.select_poll_limit_1 (sql (step s e)) = Some row)
      by (unfold Sql.select_poll_limit_1 in *; now rewrite Ep).
    destruct (IH (step s e) row Hh Hrow1 Hst) as (Ip & Ia & Iv & Ig).
    repeat split; try congruence.
    rewrite Ig. now apply handleGet_tables.
Qed.

(** Votes, an update and a publish after closing change no count. *)
Lemma closed_poll_is_final_witness :
  votes (sql (run closed_poll
                  [Fetch (env_at 5 "v") (vote "a1" "fp2");
                   Fetch (env_at 6 "u") (update (Some "Q2") None);
                   Fetch (env_at 7 "p") publish])) =
  votes (sql closed_poll).
Proof.
  destruct (closed_poll_is_final
              [Fetch (env_at 5 "v") (vote "a1" "fp2");
               Fetch (env_at 6 "u") (update (Some "Q2") None);
               Fetch (env_at 7 "p") publish]
              closed_poll
              (row := mkPollData "p" "Q?" closed 1 4 (Some 2%Z) (Some 4%Z) 0))
    as (_ & _ & H & _); [reflexivity|reflexivity|reflexivity|exact H].
Defined.

(** * The routes in front of the actors *)

Lemma put_same (ns : Namespace) (name : string) : same_actors ns (put ns name (ns name)).
Proof.
  intro n. unfold put. destruct (String.eqb n name) eqn:E; [|reflexivity].
  apply String.eqb_eq in E. now subst.
Qed.

Lemma put_other (ns : Namespace) (name n : string) (s : PollVoteCounter) :
  n <> name -> put ns name s n = ns n.
Proof.
  intro H. unfold put. destruct (String.eqb n name) eqn:E; [|reflexivity].
  apply String.eqb_eq in E. contradiction.
Qed.

Lemma put_self (ns : Namespace) (name : string) (s : PollVoteCounter) :
  put ns name s name = s.
Proof. unfold put. now rewrite String.eqb_refl. Qed.

Lemma callDO_eq (ns : Namespace) (pollId : string) (env : Env) (request : Request) :
  callDO ns pollId env request =
  (fst (fetch env request (ns pollId)),
   put ns pollId (snd (fetch env request (ns pollId)))).
Proof. unfold callDO. now destruct (fetch env request (ns pollId)). Qed.

Lemma handleGet_missing (s : PollVoteCounter) :
  Sql.select_poll_limit_1 (sql s) = None -> handleGet s = (Return NotFound, s).
Proof. intro H. unfold handleGet, bind, query. now rewrite H. Qed.

Lemma handleGet_row (s : PollVoteCounter) (row : PollData) :
  Sql.select_poll_limit_1 (sql s) = Some row ->
  handleGet s =
  (Return (mkResponse 200 (JPoll (mkPollWithAnswers row
     (map (fun a => mkVoteCount (a_id (fst a)) (a_answer_text (fst a))
                                (a_display_order (fst a)) (snd a)
                                (percentage_of (snd a)
                                   (sum_votes (Sql.answers_with_counts (sql s)))))
          (Sql.answers_with_counts (sql s)))
     (sum_votes (Sql.answers_with_counts (sql s)))))), s).
Proof. intro H. unfold handleGet, bind, query. now rewrite H. Qed.

Lemma callDO_get (ns : Namespace) (pollId : string) (env : Env) :
  callDO ns pollId env get =
  (fst (handleGet (ns pollId)), put ns pollId (ns pollId)).
Proof. rewrite callDO_eq. cbn [fetch]. now rewrite handleGet_state. Qed.

(** X11. The public read of a poll, [handleGetPoll] of routes/poll.ts,
    changes no actor; it answers 404 [POLL_NOT_FOUND] when the actor holds
    no poll and 403 [POLL_NOT_PUBLISHED] when the poll is a draft, so a
    draft is never shown; otherwise it shows the stored row, the answers in
    display order each with its own count of votes, and, for an actor that
    was reached by requests, the number of stored votes as the total. *)
Theorem public_poll_never_shows_a_draft (ns : Namespace) (env : Env)
        (pollId : string) (history : list Event) :
  ns pollId = run fresh history ->
  let reply := fst (EmbedRoutes.handleGetPoll ns env pollId) in
  let db := sql (ns pollId) in
  same_actors ns (snd (EmbedRoutes.handleGetPoll ns env pollId)) /\
  match Sql.select_poll_limit_1 db with
  | None => reply = Return (EmbedRoutes.RError "Poll not found" 404 POLL_NOT_FOUND)
  | Some row =>
      if Status_eqb (p_status row) draft
      then reply = Return (EmbedRoutes.RError "Poll not published" 403
                                              POLL_NOT_PUBLISHED)
      else exists p,
          reply = Return (EmbedRoutes.RPoll p) /\
          EmbedRoutes.pp_id p = p_id row /\
          EmbedRoutes.pp_question p = p_question row /\
          EmbedRoutes.pp_status p = p_status row /\
          EmbedRoutes.pp_status p <> draft /\
          EmbedRoutes.pp_reset_count p = p_reset_count row /\
          EmbedRoutes.pp_totalVotes p = List.length (votes db) /\
          map aa_id (EmbedRoutes.pp_answers p) =
          map a_id (Sql.order_by_display_order (answers db)) /\
          Forall (fun a => aa_votes a = Sql.count_votes (aa_id a) db)
                 (EmbedRoutes.pp_answers p)
  end.
Proof.
  intros Hreach reply db. subst reply db.
  unfold EmbedRoutes.handleGetPoll. rewrite callDO_get.
  destruct (Sql.select_poll_limit_1 (sql (ns pollId))) as [row|] eqn:Hrow.
  - rewrite (handleGet_row _ Hrow). cbn [fst ok r_status r_body negb poll_row].
    change (negb (ok (mkResponse 200 _))) with false. cbv iota.
    destruct (Status_eqb (p_status row) draft) eqn:Hst; cbn [fst snd].
    + split; [apply put_same | reflexivity].
    + split; [apply put_same |].
      eexists. split; [reflexivity |].
      cbn [EmbedRoutes.pp_id EmbedRoutes.pp_question EmbedRoutes.pp_status
           EmbedRoutes.pp_reset_count EmbedRoutes.pp_totalVotes
           EmbedRoutes.pp_answers totalVotes answers_of].
      repeat split.
      * intro H. rewrite H in Hst. discriminate.
      * apply answers_with_counts_total. rewrite Hreach. apply reachable_Inv.
      * unfold Sql.answers_with_counts. rewrite !map_map. reflexivity.
      * rewrite Forall_map, Forall_map.
        generalize (answers_with_counts_rows (sql (ns pollId))).
        apply Forall_impl. intros a H. exact H.
  - rewrite (handleGet_missing _ Hrow). cbn [fst snd].
    split; [apply put_same | reflexivity].
Qed.

(** The poll of [one_vote], published with one vote, is shown with a total
    of one vote. *)
Lemma public_poll_never_shows_a_draft_witness :
  exists p,
    fst (EmbedRoutes.handleGetPoll (put no_actors "p" one_vote) (env_at 9 "g") "p")
    = Return (EmbedRoutes.RPoll p) /\
    EmbedRoutes.pp_status p = published /\ EmbedRoutes.pp_totalVotes p = 1.
Proof.
  destruct (@public_poll_never_shows_a_draft
              (put no_actors "p" one_vote) (env_at 9 "g") "p" one_vote_history
              eq_refl) as [_ H].
  vm_compute in H.
  destruct H as (p & Hp & _ & _ & Hs & _ & _ & Ht & _).
  exists p. split; [exact Hp | split; [exact Hs | exact Ht]].
Defined.

Lemma handleVote_outcome env answerId fp s :
  (accepted (fst (handleVote env answerId fp s)) = false /\
   snd (handleVote env answerId fp s) = s) \/
  (fst (handleVote env answerId fp s) =
   Return (mkResponse 200
             (JCounts (getVoteCountsData (sql (accept_vote env answerId fp s))))) /\
   snd (handleVote env answerId fp s) = accept_vote env answerId fp s).
Proof.
  unfold handleVote, getVoteCounts, broadcastUpdate, accept_vote. run_do.
  destruct (Sql.select_poll_limit_1 (sql s)) as [row|]; simpl; [|now left].
  destruct (p_status row); simpl; try (now left).
  destruct (Sql.select_answer answerId (sql s)); simpl; [|now left].
  destruct (Sql.select_vote fp (sql s)); simpl; [now left|].
  unfold Sql.insert_vote.
  destruct (existsb _ (votes (sql s))); simpl; [now left|].
  right. split; reflexivity.
Qed.



(** ** The admin routes of one poll *)

Lemma handleUpdate_missing env q texts s :
  Sql.select_poll_limit_1 (sql s) = None ->
  handleUpdate env q texts s = (Return NotFound, s).
Proof. intro H. unfold handleUpdate. run_do. now rewrite H. Qed.

Lemma handleUpdate_not_draft env q texts s row :
  Sql.select_poll_limit_1 (sql s) = Some row -> p_status row <> draft ->
  handleUpdate env q texts s = (Return InvalidState_update, s).
Proof.
  intros H Hst. unfold handleUpdate. run_do. rewrite H.
  destruct (p_status row); simpl; [congruence|reflexivity|reflexivity].
Qed.

Lemma handlePublish_missing env s :
  Sql.select_poll_limit_1 (sql s) = None ->
  handlePublish env s = (Return NotFound, s).
Proof. intro H. unfold handlePublish. run_do. now rewrite H. Qed.

Lemma handleClose_missing env s :
  Sql.select_poll_limit_1 (sql s) = None ->
  handleClose env s = (Return NotFound, s).
Proof. intro H. unfold handleClose. run_do. now rewrite H. Qed.

Lemma handleReset_missing env s :
  Sql.select_poll_limit_1 (sql s) = None ->
  handleReset env s = (Return NotFound, s).
Proof. intro H. unfold handleReset. run_do. now rewrite H. Qed.

Lemma update_poll_found (f : PollData -> PollData) (s : PollVoteCounter)
      (row : PollData) (db : SqlStorage) (cs : list string) :
  Sql.select_poll_limit_1 (sql s) = Some row -> poll db = map f (poll (sql s)) ->
  exists p, handleGet (mkDO db cs) = (Return (mkResponse 200 (JPoll p)), mkDO db cs) /\
            poll_row p = f row.
Proof.
  intros H Hdb.
  assert (Hsel : Sql.select_poll_limit_1 (sql (mkDO db cs)) = Some (f row)).
  { unfold Sql.select_poll_limit_1 in *. cbn [sql]. rewrite Hdb.
    destruct (poll (sql s)); [discriminate|]. cbn in *. congruence. }
  rewrite (handleGet_row _ Hsel). eexists. split; reflexivity.
Qed.

(** X13. The admin routes of one poll (read, update, delete, publish, close
    and reset, as the router of cms-worker/src/index.ts dispatches them,
    exceptions turned into replies by [onError]).  They touch no actor but
    the poll's and the index.  None of them ever answers with the code
    [INTERNAL_ERROR]: the branches that would are never taken.  With a body
    that passes its schema, a poll that does not exist is answered 404
    [POLL_NOT_FOUND] and nothing is changed; a poll that exists is answered
    200 by read, delete and reset, by update when it is a draft (unless the
    actor throws, which is answered 500) and 403 [POLL_IMMUTABLE] otherwise,
    by publish when it is a draft and by close when it is published, and
    400 [VALIDATION_ERROR] otherwise; a refusal changes nothing. *)
Theorem admin_routes_answer_for_the_actor
        (r : PollRoute) (ns : Namespace) (doEnv : nat -> Env) (pollId : string) :
  let reply := fst (app r ns doEnv pollId) in
  let ns' := snd (app r ns doEnv pollId) in
  (forall name, name <> pollId -> name <> POLL_INDEX_KEY -> ns' name = ns name) /\
  (forall e, api_body reply <> AError e (Some INTERNAL_ERROR)) /\
  (valid_body r = true -> Sql.select_poll_limit_1 (sql (ns pollId)) = None ->
   reply = errorResponse "Poll not found" 404 POLL_NOT_FOUND /\ same_actors ns ns') /\
  (forall row,
      valid_body r = true -> Sql.select_poll_limit_1 (sql (ns pollId)) = Some row ->
      match r with
      | GET_poll => api_status reply = 200 /\ same_actors ns ns'
      | POST_reset => api_status reply = 200
      | DELETE_poll => reply = mkApi 200 (AMessage "Poll deleted successfully")
      | PUT_poll _ =>
          if Status_eqb (p_status row) draft
          then api_status reply = 200 \/
               reply = mkApi 500 (AError "Internal server error" None)
          else reply = errorResponse "Cannot modify published poll" 403
                                     POLL_IMMUTABLE /\
               same_actors ns ns'
      | POST_publish =>
          if Status_eqb (p_status row) draft
          then api_status reply = 200
          else reply = errorResponse "Poll is not in draft status" 400
                                     VALIDATION_ERROR /\
               same_actors ns ns'
      | POST_close =>
          if Status_eqb (p_status row) published
          then api_status reply = 200
          else reply = errorResponse "Poll is not published" 400
                                     VALIDATION_ERROR /\
               same_actors ns ns'
      end).
Proof.
  intros reply ns'. subst reply ns'. unfold app, route.
  destruct (Sql.select_poll_limit_1 (sql (ns pollId))) as [row|] eqn:Hrow.
  - (* a poll is stored *)
    destruct r as [|[data|]| | | |].
    + (* read *)
      unfold handleGetPoll. rewrite callDO_get, (handleGet_row _ Hrow).
      cbn [fst snd]. change (negb (ok (mkResponse 200 _))) with false. cbv iota.
      cbn [fst snd onError api_body api_status].
      split; [intros name Hname _; now apply put_other|].
      split; [discriminate|]. split; [discriminate|].
      intros row0 _ _. split; [reflexivity | apply put_same].
    + (* update *)
      unfold handleUpdatePoll.
      destruct (updatePollSchema data) eqn:Hv; cbn [negb]; cbv iota.
      2:{ cbn. split; [reflexivity|]. split; [discriminate|].
          rewrite Hv. split; discriminate. }
      rewrite callDO_eq. cbn [fetch].
      destruct (Status_eqb (p_status row) draft) eqn:Hst.
      * assert (Hd : p_status row = draft) by (destruct (p_status row); now try discriminate).
        destruct (handleUpdate_draft_result (doEnv 0) (u_question data)
                                            (u_answers data) (ns pollId) Hrow Hd)
          as [[e He]|[p Hp]].
        -- rewrite He. cbn [fst snd onError api_body api_status].
           split; [intros name Hname _; now apply put_other|].
           split; [discriminate|]. split; [discriminate|].
           intros row0 _ E. injection E as <-. rewrite Hst. now right.
        -- rewrite Hp. cbn [fst snd]. change (negb (ok (mkResponse 200 _))) with false.
           cbv iota. cbn [fst snd onError api_body api_status].
           split; [intros name Hname _; now apply put_other|].
           split; [discriminate|]. split; [discriminate|].
           intros row0 _ E. injection E as <-. rewrite Hst. now left.
      * assert (Hd : p_status row <> draft) by (intro E; rewrite E in Hst; discriminate).
        rewrite (handleUpdate_not_draft _ _ _ _ Hrow Hd).
        cbn [fst snd onError api_body api_status InvalidState_update].
        cbn.
        split; [intros name Hname _; now apply put_other|].
        split; [discriminate|]. split; [discriminate|].
        intros row0 _ E. injection E as <-. rewrite Hst.
        split; [reflexivity | apply put_same].
    + (* a body that is not JSON *)
      cbn. split; [reflexivity|]. split; [discriminate|]. split; discriminate.
    + (* delete *)
      unfold handleDeletePoll. rewrite callDO_eq. cbn [fetch].
      rewrite (handleDelete_removes _ Hrow). cbn [fst snd].
      change (negb (ok (mkResponse 200 _))) with false. cbv iota.
      unfold removeFromPollIndex. rewrite callDO_eq. cbn [fetch].
      unfold handleRemoveFromIndex. run_do.
      split; [intros name Hname Hindex; now rewrite !put_other by assumption|].
      split; [discriminate|]. split; [discriminate|]. reflexivity.
    + (* publish *)
      unfold handlePublishPoll. rewrite callDO_eq. cbn [fetch].
      destruct (Status_eqb (p_status row) draft) eqn:Hst.
      * assert (Hd : p_status row = draft) by (destruct (p_status row); now try discriminate).
        rewrite (handlePublish_draft _ _ Hrow Hd). unfold published_at_now.
        destruct (@update_poll_found (Sql.set_published (now (doEnv 0))) (ns pollId) row
                    (Sql.update_poll (Sql.set_published (now (doEnv 0))) (sql (ns pollId)))
                    (connections (ns pollId)) Hrow eq_refl) as (p & -> & _).
        cbn [fst snd]. change (negb (ok (mkResponse 200 _))) with false.
        cbv iota. cbn [fst snd onError api_body api_status].
        split; [intros name Hname _; now apply put_other|].
        split; [discriminate|]. split; [discriminate|].
        intros row0 _ E. injection E as <-. rewrite Hst. reflexivity.
      * assert (Hd : p_status row <> draft) by (intro E; rewrite E in Hst; discriminate).
        rewrite (handlePublish_not_draft _ _ Hrow Hd). cbn.
        split; [intros name Hname _; now apply put_other|].
        split; [discriminate|]. split; [discriminate|].
        intros row0 _ E. injection E as <-. rewrite Hst.
        split; [reflexivity | apply put_same].
    + (* close *)
      unfold handleClosePoll. rewrite callDO_eq. cbn [fetch].
      destruct (Status_eqb (p_status row) published) eqn:Hst.
      * assert (Hd : p_status row = published) by (destruct (p_status row); now try discriminate).
        rewrite (handleClose_published _ _ Hrow Hd). unfold closed_at_now.
        destruct (@update_poll_found (Sql.set_closed (now (doEnv 0))) (ns pollId) row
                    (Sql.update_poll (Sql.set_closed (now (doEnv 0))) (sql (ns pollId)))
                    (connections (ns pollId)) Hrow eq_refl) as (p & -> & _).
        cbn [fst snd]. change (negb (ok (mkResponse 200 _))) with false.
        cbv iota. cbn [fst snd onError api_body api_status].
        split; [intros name Hname _; now apply put_other|].
        split; [discriminate|]. split; [discriminate|].
        intros row0 _ E. injection E as <-. rewrite Hst. reflexivity.
      * assert (Hd : p_status row <> published) by (intro E; rewrite E in Hst; discriminate).
        rewrite (handleClose_not_published _ _ Hrow Hd). cbn.
        split; [intros name Hname _; now apply put_other|].
        split; [discriminate|]. split; [discriminate|].
        intros row0 _ E. injection E as <-. rewrite Hst.
        split; [reflexivity | apply put_same].
    + (* reset *)
      unfold handleResetPoll. rewrite callDO_eq. cbn [fetch].
      rewrite (handleReset_state _ _ Hrow).
      destruct (@update_poll_found (Sql.bump_reset_count (now (doEnv 0))) (ns pollId) row
                  (Sql.update_poll (Sql.bump_reset_count (now (doEnv 0)))
                                   (Sql.delete_from_votes (sql (ns pollId))))
                  (connections (ns pollId)) Hrow eq_refl) as (p & -> & _).
      cbn [fst snd]. change (negb (ok (mkResponse 200 _))) with false.
      cbv iota. cbn [fst snd onError api_body api_status].
      split; [intros name Hname _; now apply put_other|].
      split; [discriminate|]. split; [discriminate|]. reflexivity.
  - (* no poll is stored *)
    destruct r as [|[data|]| | | |].
    + unfold handleGetPoll. rewrite callDO_get, (handleGet_missing _ Hrow). cbn.
      split; [intros name Hname _; now apply put_other|].
      split; [discriminate|]. split; [|discriminate].
      intros _ _. split; [reflexivity | apply put_same].
    + unfold handleUpdatePoll.
      destruct (updatePollSchema data) eqn:Hv; cbn [negb]; cbv iota.
      2:{ cbn. split; [reflexivity|]. split; [discriminate|].
          rewrite Hv. split; discriminate. }
      rewrite callDO_eq. cbn [fetch]. rewrite (handleUpdate_missing _ _ _ _ Hrow). cbn.
      split; [intros name Hname _; now apply put_other|].
      split; [discriminate|]. split; [|discriminate].
      intros _ _. split; [reflexivity | apply put_same].
    + cbn. split; [reflexivity|]. split; [discriminate|]. split; discriminate.
    + unfold handleDeletePoll. rewrite callDO_eq. cbn [fetch].
      rewrite (handleDelete_missing _ Hrow). cbn.
      split; [intros name Hname _; now apply put_other|].
      split; [discriminate|]. split; [|discriminate].
      intros _ _. split; [reflexivity | apply put_same].
    + unfold handlePublishPoll. rewrite callDO_eq. cbn [fetch].
      rewrite (handlePublish_missing _ _ Hrow). cbn.
      split; [intros name Hname _; now apply put_other|].
      split; [discriminate|]. split; [|discriminate].
      intros _ _. split; [reflexivity | apply put_same].
    + unfold handleClosePoll. rewrite callDO_eq. cbn [fetch].
      rewrite (handleClose_missing _ _ Hrow). cbn.
      split; [intros name Hname _; now apply put_other|].
      split; [discriminate|]. split; [|discriminate].
      intros _ _. split; [reflexivity | apply put_same].
    + unfold handleResetPoll. rewrite callDO_eq. cbn [fetch].
      rewrite (handleReset_missing _ _ Hrow). cbn.
      split; [intros name Hname _; now apply put_other|].
      split; [discriminate|]. split; [|discriminate].
      intros _ _. split; [reflexivity | apply put_same].
Qed.

(** Publishing the poll of [one_vote], which is published already, is
    refused with 400 [VALIDATION_ERROR]. *)
Lemma admin_routes_answer_for_the_actor_witness :
  fst (app POST_publish (put no_actors "p" one_vote) (doEnv_at 9) "p") =
  errorResponse "Poll is not in draft status" 400 VALIDATION_ERROR.
Proof.
  destruct (admin_routes_answer_for_the_actor
              POST_publish (put no_actors "p" one_vote) (doEnv_at 9) "p")
    as (_ & _ & _ & H).
  exact (proj1 (H one_vote_row eq_refl eq_refl)).
Defined.

(** ** The list of polls *)

Lemma handleGetIndex_eq (s : PollVoteCounter) :
  handleGetIndex s = (Return (mkResponse 200 (JIndex (listIndex s))), s).
Proof. reflexivity. Qed.

Lemma getPollIndex_eq (ns : Namespace) (env : Env) :
  fst (getPollIndex ns env) = indexed ns /\
  same_actors ns (snd (getPollIndex ns env)).
Proof.
  unfold getPollIndex, indexed. rewrite callDO_eq. cbn [fetch].
  rewrite handleGetIndex_eq. cbn [fst snd]. split; [reflexivity | apply put_same].
Qed.

Lemma handleGet_same (s1 s2 : PollVoteCounter) :
  s1 = s2 -> fst (handleGet s1) = fst (handleGet s2).
Proof. now intros ->. Qed.

Lemma get_polls_eq (ns : Namespace) (doEnv : nat -> Env) (pollIds : list string) :
  forall (ns1 : Namespace) (k : nat),
    same_actors ns ns1 ->
    fst (get_polls ns1 doEnv k pollIds) = stored_polls ns pollIds /\
    same_actors ns (snd (get_polls ns1 doEnv k pollIds)).
Proof.
  induction pollIds as [|pollId rest IH]; intros ns1 k Hsame; cbn [get_polls].
  - split; [reflexivity | exact Hsame].
  - rewrite callDO_get.
    assert (Hsame' : same_actors ns (put ns1 pollId (ns1 pollId))).
    { intro name. rewrite (put_same ns1 pollId name). apply Hsame. }
    destruct (IH _ (S k) Hsame') as [Hpolls Hns].
    destruct (get_polls (put ns1 pollId (ns1 pollId)) doEnv (S k) rest)
      as [polls ns2].
    cbn [fst snd] in *. split; [|exact Hns].
    unfold stored_polls. cbn [flat_map]. fold (stored_polls ns rest).
    rewrite <- Hpolls, (Hsame pollId).
    destruct (Sql.select_poll_limit_1 (sql (ns pollId))) as [row|] eqn:Hrow.
    + rewrite (handleGet_row _ Hrow). reflexivity.
    + rewrite (handleGet_missing _ Hrow). reflexivity.
Qed.

Lemma stored_polls_In (ns : Namespace) (pollIds : list string) (p : PollWithAnswers) :
  In p (stored_polls ns pollIds) ->
  exists pollId, In pollId pollIds /\
                 Sql.select_poll_limit_1 (sql (ns pollId)) = Some (poll_row p).
Proof.
  unfold stored_polls. rewrite in_flat_map. intros (pollId & Hin & Hp).
  exists pollId. split; [exact Hin|].
  destruct (Sql.select_poll_limit_1 (sql (ns pollId))) as [row|] eqn:Hrow.
  - rewrite (handleGet_row _ Hrow) in Hp. cbn in Hp.
    destruct Hp as [<-|[]]. reflexivity.
  - rewrite (handleGet_missing _ Hrow) in Hp. destruct Hp.
Qed.

Lemma insert_poll_newest_first_perm (p : PollWithAnswers) (l : list PollWithAnswers) :
  Permutation (p :: l) (insert_poll_newest_first p l).
Proof.
  induction l as [|x l IH]; simpl; [reflexivity|].
  destruct (p_created_at (poll_row x) <=? p_created_at (poll_row p))%Z;
    [reflexivity|].
  rewrite perm_swap. now apply perm_skip.
Qed.

Lemma sort_newest_first_perm (l : list PollWithAnswers) :
  Permutation l (sort_newest_first l).
Proof.
  unfold sort_newest_first.
  induction l as [|x l IH]; simpl; [constructor|].
  rewrite <- insert_poll_newest_first_perm. now apply perm_skip.
Qed.

Lemma sort_newest_first_sorted (l : list PollWithAnswers) :
  StronglySorted (fun a b => (p_created_at (poll_row b) <= p_created_at (poll_row a))%Z)
                 (sort_newest_first l).
Proof.
  unfold sort_newest_first.
  induction l as [|p l IH]; simpl; [constructor|].
  induction IH as [|x rest Hrest IHrest Hx]; simpl.
  - constructor; constructor.
  - destruct (p_created_at (poll_row x) <=? p_created_at (poll_row p))%Z eqn:E.
    + apply Z.leb_le in E. constructor; [now constructor|].
      constructor; [exact E|].
      eapply Forall_impl; [|exact Hx]. cbv beta. intros; lia.
    + apply Z.leb_gt in E. constructor; [exact IHrest|].
      eapply Permutation_Forall; [apply insert_poll_newest_first_perm|].
      constructor; [lia|exact Hx].
Qed.

Lemma StronglySorted_skipn {A} (R : A -> A -> Prop) (n : nat) :
  forall l, StronglySorted R l -> StronglySorted R (skipn n l).
Proof.
  induction n as [|n IH]; intros l H; [exact H|].
  destruct l as [|x l]; [exact H|]. cbn [skipn]. apply IH.
  now inversion H.
Qed.

Lemma firstn_subset {A} (n : nat) :
  forall (l : list A) (y : A), In y (firstn n l) -> In y l.
Proof.
  induction n as [|n IH]; intros [|x l] y H; cbn in *; try tauto.
  destruct H as [H|H]; [now left | right; now apply IH].
Qed.

Lemma skipn_subset {A} (n : nat) :
  forall (l : list A) (y : A), In y (skipn n l) -> In y l.
Proof.
  induction n as [|n IH]; intros [|x l] y H; cbn in *; try tauto.
  right. now apply IH.
Qed.

Lemma StronglySorted_firstn {A} (R : A -> A -> Prop) (n : nat) :
  forall l, StronglySorted R l -> StronglySorted R (firstn n l).
Proof.
  induction n as [|n IH]; intros l H; [constructor|].
  destruct l as [|x l]; [constructor|]. cbn [firstn].
  inversion H as [|? ? Hl Hx]; subst. constructor; [now apply IH|].
  rewrite Forall_forall in *. intros y Hy. apply Hx.
  eapply firstn_subset; exact Hy.
Qed.

Lemma StronglySorted_map_summary (l : list PollWithAnswers) :
  StronglySorted (fun a b => (p_created_at (poll_row b) <= p_created_at (poll_row a))%Z) l ->
  newest_first (map summary l).
Proof.
  unfold newest_first. induction 1 as [|x l Hl IH Hx]; cbn [map]; constructor;
    [exact IH|].
  rewrite Forall_map. exact Hx.
Qed.

Lemma coerce_int_bounds (Number_integer : string -> option Z) (lo hi : Z)
      (default : nat) (param : option string) (n : nat) :
  (0 <= lo)%Z -> (lo <= Z.of_nat default <= hi)%Z ->
  coerce_int Number_integer lo (Some hi) default param = Some n ->
  (lo <= Z.of_nat n <= hi)%Z.
Proof.
  intros Hlo Hb. unfold coerce_int. destruct param as [text|].
  - destruct (Number_integer text) as [z|]; [|discriminate].
    destruct (lo <=? z)%Z eqn:E1; [|discriminate].
    destruct (z <=? hi)%Z eqn:E2; [|discriminate].
    cbn. intro H. injection H as <-.
    apply Z.leb_le in E1, E2. rewrite Z2Nat.id by lia. lia.
  - intro H. injection H as <-. lia.
Qed.

(** X14. The list of polls, [handleListPolls], whatever [Number] makes of
    the texts of the query.  A query the schema rejects is answered 400
    [VALIDATION_ERROR] and no actor is called.  Otherwise no actor is
    changed, the limit is between 1 and 100, and the reply echoes limit and
    offset; [total] counts the polls of the wanted status among the polls
    stored by the actors the index names; the page holds
    [min limit (total - offset)] polls, newest first; every poll of the page
    has the wanted status and shows the row stored by an actor the index
    names. *)
Theorem list_polls_page (Number_integer : string -> option Z) (ns : Namespace)
        (doEnv : nat -> Env) (q : ListQuery) :
  let r := handleListPolls Number_integer ns doEnv q in
  match pollListQuerySchema Number_integer q with
  | None =>
      r = (LError "Invalid query parameters" 400 VALIDATION_ERROR, ns)
  | Some (status, limit, offset) =>
      same_actors ns (snd r) /\
      1 <= limit <= 100 /\
      exists l,
        fst r = LPolls l /\
        pl_limit l = limit /\ pl_offset l = offset /\
        pl_total l =
          List.length (filter (wanted status) (stored_polls ns (indexed ns))) /\
        List.length (pl_polls l) = Nat.min limit (pl_total l - offset) /\
        newest_first (pl_polls l) /\
        forall p, In p (pl_polls l) ->
          (forall st, status = Some st -> ps_status p = st) /\
          exists pollId row,
            In pollId (indexed ns) /\
            Sql.select_poll_limit_1 (sql (ns pollId)) = Some row /\
            ps_id p = p_id row /\ ps_question p = p_question row /\
            ps_status p = p_status row /\ ps_createdAt p = p_created_at row
  end.
Proof.
  intro r. subst r. unfold handleListPolls.
  destruct (pollListQuerySchema Number_integer q) as [[[status limit] offset]|] eqn:Hq;
    [|reflexivity].
  assert (Hlimit : 1 <= limit <= 100).
  { unfold pollListQuerySchema in Hq.
    assert (H : coerce_int Number_integer 1 (Some 100%Z) 50 (q_limit q) = Some limit).
    { destruct (q_status q) as [text|].
      - destruct (pollStatusSchema text); [|discriminate].
        destruct (coerce_int Number_integer 1 (Some 100%Z) 50 (q_limit q));
          [|discriminate].
        destruct (coerce_int Number_integer 0 None 0 (q_offset q)); [|discriminate].
        now injection Hq as _ -> _.
      - destruct (coerce_int Number_integer 1 (Some 100%Z) 50 (q_limit q));
          [|discriminate].
        destruct (coerce_int Number_integer 0 None 0 (q_offset q)); [|discriminate].
        now injection Hq as _ -> _. }
    apply coerce_int_bounds in H; lia. }
  destruct (getPollIndex_eq ns (doEnv 0)) as [Hids Hns1].
  destruct (getPollIndex ns (doEnv 0)) as [pollIds ns1]. cbn [fst snd] in Hids, Hns1.
  destruct (get_polls_eq doEnv pollIds 1 Hns1) as [Hpolls Hns2].
  destruct (get_polls ns1 doEnv 1 pollIds) as [allPolls ns2].
  cbn [fst snd] in Hpolls, Hns2 |- *. subst pollIds allPolls.
  set (kept := match status with
               | Some st => filter (fun p => Status_eqb (p_status (poll_row p)) st)
                                   (stored_polls ns (indexed ns))
               | None => stored_polls ns (indexed ns)
               end).
  assert (Hkept : kept = filter (wanted status) (stored_polls ns (indexed ns))).
  { subst kept. destruct status as [st|]; [reflexivity|].
    unfold wanted. clear. induction (stored_polls ns (indexed ns)) as [|x l IH];
      [reflexivity|]. cbn. now rewrite <- IH. }
  split; [exact Hns2|]. split; [exact Hlimit|].
  eexists. split; [reflexivity|].
  cbn [pl_limit pl_offset pl_total pl_polls].
  split; [reflexivity|]. split; [reflexivity|].
  split.
  { rewrite <- (Permutation_length (sort_newest_first_perm kept)). now rewrite Hkept. }
  split.
  { unfold slice. rewrite length_map, length_firstn, length_skipn. reflexivity. }
  split.
  { apply StronglySorted_map_summary. unfold slice.
    apply StronglySorted_firstn, StronglySorted_skipn, sort_newest_first_sorted. }
  intros p Hp. apply in_map_iff in Hp. destruct Hp as (x & <- & Hx).
  unfold slice in Hx. apply firstn_subset, skipn_subset in Hx.
  apply (Permutation_in _ (Permutation_sym (sort_newest_first_perm kept))) in Hx.
  rewrite Hkept in Hx. apply filter_In in Hx. destruct Hx as [Hin Hw].
  split.
  - intros st ->. cbn in Hw. cbn [summary ps_status].
    destruct (p_status (poll_row x)), st; now try discriminate.
  - destruct (stored_polls_In _ _ _ Hin) as (pollId & Hid & Hrow).
    exists pollId, (poll_row x). repeat split; assumption.
Qed.

(** The default query lists the one poll of [one_poll]. *)
Lemma list_polls_page_witness :
  exists l,
    fst (handleListPolls (fun _ => None) one_poll (doEnv_at 9)
                         (mkListQuery None None None)) = LPolls l /\
    map ps_id (pl_polls l) = ["p0"] /\ pl_total l = 1 /\ pl_limit l = 50.
Proof.
  generalize (list_polls_page (fun _ => None) one_poll (doEnv_at 9)
                              (mkListQuery None None None)).
  vm_compute. intros (_ & _ & l & Hl & _). exists l. vm_compute.
  injection Hl as <-. repeat split.
Defined.

(** ** The index follows creation and deletion *)

Lemma fetch_keeps_index (env : Env) (request : Request) (s : PollVoteCounter) :
  writes_index request = false ->
  poll_index (sql (snd (fetch env request s))) = poll_index (sql s).
Proof.
  destruct request as [id q texts| |q texts| | | | |aid fp|fp| | |pid|pid| ];
    simpl; intros Ht; try discriminate; try reflexivity.
  - unfold handleCreate. run_do.
    destruct (Sql.select_poll_limit_1 (sql s)); simpl; [reflexivity|].
    unfold Sql.insert_poll.
    destruct (existsb _ (poll (sql s))); simpl; [reflexivity|].
    match goal with
    | |- context [insert_answers env 0 texts ?s0] =>
        destruct (insert_answers_frame env texts 0 s0) as (_ & _ & Fi & _);
        destruct (insert_answers env 0 texts s0) as [c s']
    end.
    simpl in *. destruct c; simpl; exact Fi.
  - now rewrite handleGet_state.
  - unfold handleUpdate. run_do.
    destruct (Sql.select_poll_limit_1 (sql s)) as [row|]; simpl; [|reflexivity].
    destruct (Status_eqb (p_status row) draft); simpl; [|reflexivity].
    destruct q as [q|], texts as [l|]; simpl;
      try (rewrite handleGet_state; reflexivity).
    all: match goal with
         | |- context [insert_answers ?e 0 ?l ?s0] =>
             destruct (insert_answers_frame e l 0 s0) as (_ & _ & Fi & _);
             destruct (insert_answers e 0 l s0) as [c s3]; simpl in Fi;
             destruct c; simpl; try rewrite handleGet_state; simpl; exact Fi
         end.
  - unfold handlePublish. run_do.
    destruct (Sql.select_poll_limit_1 (sql s)) as [row|]; simpl; [|reflexivity].
    destruct (Status_eqb (p_status row) draft); simpl; [|reflexivity].
    now rewrite handleGet_state.
  - unfold handleClose. run_do.
    destruct (Sql.select_poll_limit_1 (sql s)) as [row|]; simpl; [|reflexivity].
    destruct (Status_eqb (p_status row) published); simpl; [|reflexivity].
    now rewrite handleGet_state.
  - unfold handleDelete. run_do.
    destruct (Sql.select_poll_limit_1 (sql s)); reflexivity.
  - unfold handleReset. run_do.
    destruct (Sql.select_poll_limit_1 (sql s)) as [row|]; simpl; [|reflexivity].
    now rewrite handleGet_state.
  - destruct (handleVote_state env aid fp s) as [-> | ->]; reflexivity.
Qed.

Lemma callDO_keeps_index (ns : Namespace) (pollId : string) (env : Env)
      (request : Request) :
  writes_index request = false ->
  poll_index (sql (snd (callDO ns pollId env request) POLL_INDEX_KEY)) =
  poll_index (sql (ns POLL_INDEX_KEY)).
Proof.
  intro H. rewrite callDO_eq. cbn [snd]. unfold put.
  destruct (String.eqb POLL_INDEX_KEY pollId) eqn:E; [|reflexivity].
  apply String.eqb_eq in E. rewrite <- E. now apply fetch_keeps_index.
Qed.

Lemma indexed_In (ns : Namespace) (x : string) :
  In x (indexed ns) <-> In x (map i_poll_id (poll_index (sql (ns POLL_INDEX_KEY)))).
Proof. apply listIndex_In. Qed.

Lemma insert_or_ignore_index_In (id : string) (t : Z) (db : SqlStorage) (x : string) :
  In x (map i_poll_id (poll_index (Sql.insert_or_ignore_index id t db))) <->
  In x (map i_poll_id (poll_index db)) \/ x = id.
Proof.
  unfold Sql.insert_or_ignore_index.
  destruct (existsb _ (poll_index db)) eqn:E.
  - apply existsb_key_true in E. split; [now left|]. intros [H| ->]; assumption.
  - cbn [poll_index]. rewrite map_app, in_app_iff. cbn. intuition congruence.
Qed.

Lemma delete_index_In (id : string) (db : SqlStorage) (x : string) :
  In x (map i_poll_id (poll_index (Sql.delete_index id db))) <->
  In x (map i_poll_id (poll_index db)) /\ x <> id.
Proof.
  unfold Sql.delete_index. cbn [poll_index]. rewrite !in_map_iff. split.
  - intros (r & <- & Hr). apply filter_In in Hr. destruct Hr as [Hin Hk].
    split; [eauto|]. intro E. rewrite E, String.eqb_refl in Hk. discriminate.
  - intros [(r & <- & Hin) Hne]. exists r. split; [reflexivity|].
    apply filter_In. split; [exact Hin|].
    destruct (String.eqb (i_poll_id r) id) eqn:E; [|reflexivity].
    apply String.eqb_eq in E. contradiction.
Qed.

Lemma handleGet_returns (s : PollVoteCounter) :
  exists response, fst (handleGet s) = Return response.
Proof.
  destruct (Sql.select_poll_limit_1 (sql s)) as [row|] eqn:Hrow.
  - rewrite (handleGet_row _ Hrow). eexists. reflexivity.
  - rewrite (handleGet_missing _ Hrow). eexists. reflexivity.
Qed.

Lemma handleRemoveFromIndex_eq (pollId : string) (s : PollVoteCounter) :
  handleRemoveFromIndex pollId s =
  (Return (mkResponse 200 JSuccess),
   mkDO (Sql.delete_index pollId (sql s)) (connections s)).
Proof. reflexivity. Qed.

Lemma handleCreatePoll_index (ns : Namespace) (env : Env) (doEnv : nat -> Env)
      (body : option CreatePollRequest) (id : string) :
  let r := handleCreatePoll ns env doEnv body in
  In id (indexed (snd r)) <->
  In id (indexed ns) \/
  (id = randomUUID env 0 /\ exists b, fst r = Return (mkApi 201 b)).
Proof.
  intros r. subst r. rewrite !indexed_In. unfold handleCreatePoll.
  assert (Hno : forall c : Completion ApiResponse,
             (forall b, c <> Return (mkApi 201 b)) ->
             forall P : Prop, P <-> P \/ (id = randomUUID env 0 /\
                                         exists b, c = Return (mkApi 201 b))).
  { intros c Hc P. split; [now left|]. intros [H|[_ [b Hb]]]; [exact H|].
    now apply Hc in Hb. }
  destruct body as [data|]; [|cbn [fst snd]; apply Hno; discriminate].
  destruct (createPollSchema data); cbn [negb]; cbv iota;
    [|cbn [fst snd]; apply Hno; discriminate].
  set (pollId := randomUUID env 0).
  pose proof (@callDO_keeps_index ns pollId (doEnv 0)
                (create pollId (question data) (answers_in data)) eq_refl) as H1.
  destruct (callDO ns pollId (doEnv 0)
                   (create pollId (question data) (answers_in data)))
    as [[response|e] ns1]; cbn [snd] in H1;
    [|cbn [fst snd]; rewrite H1; apply Hno; discriminate].
  destruct (ok response) eqn:Hok; cbn [negb]; cbv iota.
  2:{ cbn [fst snd]. rewrite H1. apply Hno. intros b E. injection E as E _.
      unfold ok in Hok. rewrite E in Hok. discriminate. }
  unfold addToPollIndex. rewrite (callDO_eq ns1). cbn [fetch].
  unfold handleAddToIndex. run_do.
  rewrite callDO_get.
  match goal with
  | |- context [handleGet ?s0] => destruct (handleGet_returns s0) as [pollResponse ->]
  end.
  cbn [fst snd]. rewrite (put_same _ pollId POLL_INDEX_KEY), put_self. cbn [sql].
  rewrite insert_or_ignore_index_In, H1.
  split; [intros [H|H]; [now left | right; split; [exact H | eauto]]|].
  intros [H|[H _]]; [now left | now right].
Qed.

Lemma handleDeletePoll_index (ns : Namespace) (doEnv : nat -> Env)
      (pollId id : string) :
  let r := handleDeletePoll ns doEnv pollId in
  In id (indexed (snd r)) <->
  In id (indexed ns) /\
  ~ (id = pollId /\ exists b, fst r = Return (mkApi 200 b)).
Proof.
  intros r. subst r. rewrite !indexed_In. unfold handleDeletePoll.
  pose proof (@callDO_keeps_index ns pollId (doEnv 0) delete eq_refl) as H1.
  destruct (callDO ns pollId (doEnv 0) delete) as [[response|e] ns1];
    cbn [snd] in H1.
  2:{ cbn [fst snd]. rewrite H1. split; [|tauto].
      intro H. split; [exact H|]. intros [_ [b Hb]]. discriminate. }
  destruct (ok response) eqn:Hok; cbn [negb]; cbv iota.
  2:{ destruct (r_status response =? 404)%nat; cbn [fst snd]; rewrite H1;
        (split; [|tauto]); intro H; (split; [exact H|]);
        intros [_ [b Hb]]; discriminate. }
  unfold removeFromPollIndex. rewrite (callDO_eq ns1). cbn [fetch].
  rewrite handleRemoveFromIndex_eq. cbn [fst snd]. rewrite put_self. cbn [sql].
  rewrite delete_index_In, H1. split.
  + intros [H Hne]. split; [exact H|]. intros [E _]. contradiction.
  + intros [H Hs]. split; [exact H|]. intro E. apply Hs. split; [exact E|eauto].
Qed.

(** X15. The index follows the admin routes that create and delete polls.
    After [handleCreatePoll] the index names what it named before, and the
    new identifier as well exactly when the reply is 201; after
    [handleDeletePoll] it names what it named before, the deleted
    identifier excepted exactly when the reply is 200. *)
Theorem index_follows_create_and_delete (ns : Namespace) (env : Env)
        (doEnv : nat -> Env) :
  (forall body id,
      let r := handleCreatePoll ns env doEnv body in
      In id (indexed (snd r)) <->
      In id (indexed ns) \/
      (id = randomUUID env 0 /\ exists b, fst r = Return (mkApi 201 b))) /\
  (forall pollId id,
      let r := handleDeletePoll ns doEnv pollId in
      In id (indexed (snd r)) <->
      In id (indexed ns) /\
      ~ (id = pollId /\ exists b, fst r = Return (mkApi 200 b))).
Proof.
  split.
  - intros body id. apply handleCreatePoll_index.
  - intros pollId id. apply handleDeletePoll_index.
Qed.

(** ** The public page and the streams *)


(** ** The fingerprint as a text *)

Lemma hex_cons (b : Byte.byte) (bytes : list Byte.byte) :
  hex (b :: bytes) = String.append (padStart2 (toString16 b)) (hex bytes).
Proof.
  unfold hex. destruct bytes as [|b' bytes]; cbn [map String.concat].
  - clear. induction (padStart2 (toString16 b)) as [|c s IH]; cbn; [reflexivity|].
    now rewrite <- IH.
  - reflexivity.
Qed.

Lemma hex_of_byte (b : Byte.byte) :
  exists c1 c2,
    padStart2 (toString16 b) = String c1 (String c2 "") /\
    Byte.of_N (16 * hex_value c1 + hex_value c2) = Some b /\
    lower_hex c1 = true /\ lower_hex c2 = true.
Proof. destruct b; do 2 eexists; repeat split. Qed.

Lemma unhex_hex (bytes : list Byte.byte) : unhex (hex bytes) = bytes.
Proof.
  induction bytes as [|b bytes IH]; [reflexivity|].
  rewrite hex_cons. destruct (hex_of_byte b) as (c1 & c2 & -> & Hb & _).
  cbn [String.append unhex]. now rewrite Hb, IH.
Qed.

Lemma hex_lower (bytes : list Byte.byte) :
  forallb lower_hex (list_ascii_of_string (hex bytes)) = true.
Proof.
  induction bytes as [|b bytes IH]; [reflexivity|].
  rewrite hex_cons. destruct (hex_of_byte b) as (c1 & c2 & -> & _ & H1 & H2).
  cbn [String.append list_ascii_of_string forallb]. now rewrite H1, H2, IH.
Qed.

(** X17. How the digest becomes the fingerprint.  The text that
    [generateFingerprint] returns has two characters per byte of the
    digest, every one a digit or a letter from a to f, and reading it back
    gives the digest: two requests have the same fingerprint exactly when
    the digests of their [ip:userAgent] data are equal, whatever the hash
    function.  With SHA-256 the fingerprint has 64 characters. *)
Theorem fingerprint_is_the_digest_in_hex (SHA_256 : list Byte.byte -> list Byte.byte) :
  (forall bytes,
      unhex (hex bytes) = bytes /\
      String.length (hex bytes) = 2 * List.length bytes /\
      forallb lower_hex (list_ascii_of_string (hex bytes)) = true) /\
  (forall request,
      unhex (VoteRoute.generateFingerprint SHA_256 request) =
      SHA_256 (fingerprint_data request)) /\
  (forall r1 r2,
      VoteRoute.generateFingerprint SHA_256 r1 = VoteRoute.generateFingerprint SHA_256 r2
      <-> SHA_256 (fingerprint_data r1) = SHA_256 (fingerprint_data r2)) /\
  (forall request,
      String.length (VoteRoute.generateFingerprint SHA256.digest request) = 64).
Proof.
  split; [|split; [|split]].
  - intro bytes. split; [apply unhex_hex|]. split; [apply hex_length | apply hex_lower].
  - intro request. unfold VoteRoute.generateFingerprint, fingerprint_data.
    cbv zeta. apply unhex_hex.
  - intros r1 r2. unfold VoteRoute.generateFingerprint, fingerprint_data. cbv zeta.
    split; [|now intros ->].
    intro H. apply (f_equal unhex) in H. now rewrite !unhex_hex in H.
  - intro request. unfold VoteRoute.generateFingerprint. cbv zeta.
    rewrite hex_length, SHA256_digest_length. reflexivity.
Qed.

(** ** Requests the fingerprint cannot tell apart *)

Lemma or_unknown_nonempty (value : string) :
  value <> "" -> or_unknown (Some value) = value.
Proof.
  intro H. unfold or_unknown. destruct (String.eqb value "") eqn:E; [|reflexivity].
  apply String.eqb_eq in E. contradiction.
Qed.

Lemma append_assoc (a b c : string) :
  String.append (String.append a b) c = String.append a (String.append b c).
Proof. induction a as [|x a IH]; cbn; [reflexivity|]. now rewrite IH. Qed.

Lemma append_colon_nonempty (a b : string) : String.append a (String.append ":" b) <> "".
Proof. destruct a; discriminate. Qed.

Lemma same_fingerprint_is_duplicate (uuid : string -> bool)
      (generate : HttpRequest -> option string -> string)
      (ns : Namespace) (env1 env2 : Env) (pollId : string)
      (r1 r2 : HttpRequest) (b2 : VoteBody) (reply1 : ApiResponse) :
  generate r1 None = generate r2 None ->
  json_body r2 = Some b2 -> uuid (body_answerId b2) = true ->
  In (body_answerId b2) (map a_id (answers (sql (ns pollId)))) ->
  fst (VoteRoute.handleVote uuid generate ns env1 pollId r1) = Return reply1 ->
  api_status reply1 = 200 ->
  fst (VoteRoute.handleVote uuid generate
         (snd (VoteRoute.handleVote uuid generate ns env1 pollId r1))
         env2 pollId r2) =
  Return (errorResponse "Already voted" 409 DUPLICATE_VOTE).
Proof.
  intros Hgen Hb2 Hu2 Hin. unfold VoteRoute.handleVote at 1 3.
  unfold VoteRoute.voteRequestSchema, VoteRoute.clientId_of.
  destruct (json_body r1) as [b1|]; [|intros [= <-]; discriminate].
  destruct (uuid (body_answerId b1)); [|intros [= <-]; discriminate].
  cbn [vr_answerId]. rewrite callDO_eq. cbn [fetch fst snd].
  set (fp := generate r1 None).
  destruct (fst (handleVote env1 (body_answerId b1) fp (ns pollId)))
    as [response|e] eqn:Hv; [|discriminate].
  intros [= <-] H200. apply vote_reply_200 in H200.
  destruct (handleVote_ok_inv env1 (body_answerId b1) fp (ns pollId) Hv H200)
    as ((row & Hrow & Hst) & _ & _ & Hs).
  cbn [fst snd]. rewrite Hs.
  unfold VoteRoute.handleVote, VoteRoute.voteRequestSchema, VoteRoute.clientId_of.
  rewrite Hb2, Hu2. cbn [vr_answerId]. rewrite callDO_eq, put_self. cbn [fetch].
  rewrite <- Hgen. fold fp.
  rewrite (@handleVote_duplicate env2 (body_answerId b2) fp
             (accept_vote env1 (body_answerId b1) fp (ns pollId)) row);
    [reflexivity | exact Hrow | exact Hst | exact Hin |].
  cbn [accept_vote sql votes]. rewrite map_app, in_app_iff. right. now left.
Qed.

(** X18. What the fingerprint of lib/fingerprint.ts cannot tell apart,
    whatever the hash function.  A header that is missing, empty or equal
    to the text unknown gives the same data, and so does moving a colon
    from the user agent to the address.  When two requests give the same
    data and the vote of the first is accepted, the vote of the second on
    the same poll, for any answer of the poll, is answered 409
    [DUPLICATE_VOTE]. *)
Theorem one_vote_for_requests_with_the_same_data
        (SHA_256 : list Byte.byte -> list Byte.byte) (uuid : string -> bool) :
  (forall ua b b',
      fingerprint_data (mkHttpRequest None ua b) =
      fingerprint_data (mkHttpRequest (Some "") ua b') /\
      fingerprint_data (mkHttpRequest None ua b) =
      fingerprint_data (mkHttpRequest (Some "unknown") ua b')) /\
  (forall ip b b',
      fingerprint_data (mkHttpRequest ip None b) =
      fingerprint_data (mkHttpRequest ip (Some "") b') /\
      fingerprint_data (mkHttpRequest ip None b) =
      fingerprint_data (mkHttpRequest ip (Some "unknown") b')) /\
  (forall x y z b b',
      x <> "" -> z <> "" ->
      fingerprint_data
        (mkHttpRequest (Some x) (Some (String.append y (String.append ":" z))) b) =
      fingerprint_data
        (mkHttpRequest (Some (String.append x (String.append ":" y))) (Some z) b')) /\
  (forall ns env1 env2 pollId r1 r2 b2 reply1,
      fingerprint_data r1 = fingerprint_data r2 ->
      json_body r2 = Some b2 -> uuid (body_answerId b2) = true ->
      In (body_answerId b2) (map a_id (answers (sql (ns pollId)))) ->
      fst (VoteRoute.handleVote_ip_userAgent SHA_256 uuid ns env1 pollId r1)
      = Return reply1 ->
      api_status reply1 = 200 ->
      fst (VoteRoute.handleVote_ip_userAgent SHA_256 uuid
             (snd (VoteRoute.handleVote_ip_userAgent SHA_256 uuid ns env1 pollId r1))
             env2 pollId r2) =
      Return (errorResponse "Already voted" 409 DUPLICATE_VOTE)).
Proof.
  split; [|split; [|split]].
  - intros ua b b'. split; reflexivity.
  - intros ip b b'. split; reflexivity.
  - intros x y z b b' Hx Hz. unfold fingerprint_data.
    cbn [CF_Connecting_IP User_Agent].
    rewrite !or_unknown_nonempty by
        (try assumption; apply append_colon_nonempty).
    now rewrite !append_assoc.
  - intros ns env1 env2 pollId r1 r2 b2 reply1 Hdata Hb2 Hu2 Hin.
    unfold VoteRoute.handleVote_ip_userAgent.
    apply same_fingerprint_is_duplicate with (b2 := b2); try assumption.
    unfold VoteRoute.generateFingerprint. cbv zeta.
    fold (fingerprint_data r1). fold (fingerprint_data r2). now rewrite Hdata.
Qed.

(** A request without headers votes on the poll of [one_vote]; a request
    whose address is the text unknown and whose user agent is empty is then
    refused, for the other answer as well. *)
Lemma one_vote_for_requests_with_the_same_data_witness :
  let r1 := mkHttpRequest None None (Some (mkVoteBody "a0" None)) in
  let r2 := mkHttpRequest (Some "unknown") (Some "") (Some (mkVoteBody "a1" None)) in
  let ns := put no_actors "p" one_vote in
  fst (VoteRoute.handleVote_ip_userAgent SHA256.digest (fun _ => true)
         (snd (VoteRoute.handleVote_ip_userAgent SHA256.digest (fun _ => true)
                 ns (env_at 5 "w") "p" r1))
         (env_at 6 "z") "p" r2) =
  Return (errorResponse "Already voted" 409 DUPLICATE_VOTE).
Proof.
  cbv zeta.
  destruct (one_vote_for_requests_with_the_same_data SHA256.digest (fun _ => true))
    as (_ & _ & _ & H).
  eapply H with (b2 := mkVoteBody "a1" None).
  - reflexivity.
  - reflexivity.
  - reflexivity.
  - vm_compute. right. left. reflexivity.
  - vm_compute. reflexivity.
  - reflexivity.
Defined.

(** ** The times the actor records *)

Lemma times_ok_later (t t' : Z) (db db' : SqlStorage) :
  poll db' = poll db -> votes db' = votes db -> (t <= t')%Z ->
  times_ok t db -> times_ok t' db'.
Proof.
  intros Hp Hv Ht H row Hin. rewrite Hp in Hin. rewrite Hv.
  destruct (H row Hin) as (H1 & H2 & H3 & H4).
  split; [lia|]. split; [exact H2|]. split; [exact H3|].
  intros v Hvin. destruct (H4 v Hvin) as (Ha & Hb & Hc). split; [lia|]. now split.
Qed.

Lemma handleUpdate_times env question texts s :
  exists f, (forall r, p_created_at (f r) = p_created_at r /\
                       p_published_at (f r) = p_published_at r /\
                       p_closed_at (f r) = p_closed_at r /\
                       (p_updated_at (f r) = p_updated_at r \/
                        p_updated_at (f r) = now env)) /\
            poll (sql (snd (handleUpdate env question texts s))) =
            map f (poll (sql s)) /\
            votes (sql (snd (handleUpdate env question texts s))) = votes (sql s).
Proof.
  assert (Hid : exists f,
             (forall r, p_created_at (f r) = p_created_at r /\
                        p_published_at (f r) = p_published_at r /\
                        p_closed_at (f r) = p_closed_at r /\
                        (p_updated_at (f r) = p_updated_at r \/
                         p_updated_at (f r) = now env)) /\
             poll (sql s) = map f (poll (sql s)) /\ votes (sql s) = votes (sql s)).
  { exists (fun r => r). split; [intros; repeat split; now left|].
    now rewrite map_id. }
  unfold handleUpdate. run_do.
  destruct (Sql.select_poll_limit_1 (sql s)) as [row|]; simpl; [|assumption].
  destruct (Status_eqb (p_status row) draft); simpl; [|assumption].
  destruct question as [q|], texts as [l|]; simpl;
    try rewrite handleGet_sql; simpl; try assumption.
  2: { exists (Sql.set_question q (now env)).
       split; [intros; cbn; repeat split; now right|]. now split. }
  all: match goal with
       | |- context [insert_answers ?e 0 ?l ?s0] =>
           destruct (insert_answers_frame e l 0 s0) as (Fp & Fv & _);
           destruct (insert_answers e 0 l s0) as [c s3]; simpl in Fp, Fv;
           destruct c; simpl; try rewrite handleGet_sql; simpl; rewrite Fp, Fv
       end.
  - exists (fun r => Sql.set_updated_at (now env) (Sql.set_question q (now env) r)).
    split; [intros; cbn; repeat split; now right|]. now rewrite map_map.
  - exists (Sql.set_question q (now env)).
    split; [intros; cbn; repeat split; now right|]. now split.
  - exists (Sql.set_updated_at (now env)).
    split; [intros; cbn; repeat split; now right|]. now split.
  - exists (fun r => r). split; [intros; repeat split; now left|].
    now rewrite map_id.
Qed.

Lemma stamps_draft (row : PollData) :
  stamps_ok row -> p_status row = draft ->
  p_published_at row = None /\ p_closed_at row = None.
Proof.
  intros [Hp Hc] Hst. split.
  - destruct (p_published_at row); [|reflexivity].
    assert (H : Some z <> None) by discriminate. apply Hp in H.
    rewrite Hst in H. destruct H; discriminate.
  - destruct (p_closed_at row); [|reflexivity].
    assert (H : Some z <> None) by discriminate. apply Hc in H.
    rewrite Hst in H. discriminate.
Qed.

Lemma stamps_published (row : PollData) :
  stamps_ok row -> p_status row = published ->
  (exists p, p_published_at row = Some p) /\ p_closed_at row = None.
Proof.
  intros [Hp Hc] Hst. split.
  - destruct (p_published_at row); [eauto|]. exfalso.
    apply (proj2 Hp); [now left | reflexivity].
  - destruct (p_closed_at row); [|reflexivity].
    assert (H : Some z <> None) by discriminate. apply Hc in H.
    rewrite Hst in H. discriminate.
Qed.

Lemma fetch_times (env : Env) (request : Request) (s : PollVoteCounter) (t : Z) :
  Inv (sql s) -> times_ok t (sql s) -> (t <= now env)%Z ->
  times_ok (now env) (sql (snd (fetch env request s))).
Proof.
  intros HI HT Ht.
  assert (Hsame : forall s', poll (sql s') = poll (sql s) ->
                             votes (sql s') = votes (sql s) ->
                             times_ok (now env) (sql s'))
    by (intros s' Hp Hv; now apply (@times_ok_later t (now env) (sql s) (sql s'))).
  assert (Hone : forall row r, Sql.select_poll_limit_1 (sql s) = Some row ->
                               In r (poll (sql s)) -> r = row)
    by (intros row r; apply single_row, (inv_single HI)).
  destruct request as [id q texts| |q texts| | | | |aid fp|fp| | |pid|pid| ];
    cbn [fetch].
  - (* create *)
    unfold handleCreate. run_do.
    destruct (Sql.select_poll_limit_1 (sql s)) eqn:Hrow; simpl; [now apply Hsame|].
    unfold Sql.insert_poll.
    destruct (existsb _ (poll (sql s))); simpl; [now apply Hsame|].
    assert (Hnil : poll (sql s) = [])
      by (unfold Sql.select_poll_limit_1 in Hrow; now destruct (poll (sql s))).
    destruct (inv_no_poll HI Hnil) as [Hv _].
    match goal with
    | |- context [insert_answers env 0 texts ?s0] =>
        destruct (insert_answers_frame env texts 0 s0) as (Fp & Fv & _);
        destruct (insert_answers env 0 texts s0) as [c s']
    end.
    simpl in Fp, Fv. rewrite Hnil in Fp. rewrite Hv in Fv.
    assert (H : times_ok (now env) (sql s')).
    { intros row Hin. rewrite Fp in Hin. destruct Hin as [<-|[]]. rewrite Fv. cbn.
      split; [lia|]. split; [discriminate|]. split; [discriminate|]. intros v []. }
    destruct c; exact H.
  - (* get *)
    rewrite handleGet_state. now apply Hsame.
  - (* update *)
    destruct (handleUpdate_times env q texts s) as (f & Hf & Hp & Hv).
    intros row' Hin. rewrite Hp in Hin. apply in_map_iff in Hin.
    destruct Hin as (row & <- & Hin). rewrite Hv.
    destruct (HT row Hin) as (H1 & H2 & H3 & H4).
    destruct (Hf row) as (-> & -> & -> & Hu).
    split; [destruct Hu as [-> | ->]; lia|].
    split; [intros p Hp'; specialize (H2 p Hp'); destruct Hu as [-> | ->]; lia|].
    split.
    + intros c Hc. destruct (H3 c Hc) as [Hle Hex]. split; [|exact Hex].
      destruct Hu as [-> | ->]; lia.
    + intros v Hvin. destruct (H4 v Hvin) as (Ha & Hb & Hc). split; [lia|]. now split.
  - (* publish *)
    destruct (Sql.select_poll_limit_1 (sql s)) as [row|] eqn:Hrow.
    2:{ rewrite (handlePublish_missing _ _ Hrow). now apply Hsame. }
    destruct (Status_eqb (p_status row) draft) eqn:Hst.
    2:{ rewrite (@handlePublish_not_draft env s row Hrow); [now apply Hsame|].
        intro E. rewrite E in Hst. discriminate. }
    assert (Hd : p_status row = draft) by (destruct (p_status row); now try discriminate).
    rewrite (handlePublish_draft _ _ Hrow Hd), handleGet_state.
    unfold published_at_now. intros row' Hin.
    cbn [sql Sql.update_poll poll votes] in Hin |- *.
    rewrite (inv_draft HI row (select_poll_In _ Hrow) Hd).
    apply in_map_iff in Hin. destruct Hin as (r & <- & Hin).
    assert (r = row) by (apply Hone; [reflexivity | exact Hin]). subst r.
    destruct (HT row Hin) as (H1 & _).
    destruct (stamps_draft (inv_stamps HI row Hin) Hd) as [_ Hc].
    cbn. split; [lia|]. split; [intros p [= <-]; lia|].
    split; [rewrite Hc; discriminate | intros v []].
  - (* close *)
    destruct (Sql.select_poll_limit_1 (sql s)) as [row|] eqn:Hrow.
    2:{ rewrite (handleClose_missing _ _ Hrow). now apply Hsame. }
    destruct (Status_eqb (p_status row) published) eqn:Hst.
    2:{ rewrite (@handleClose_not_published env s row Hrow); [now apply Hsame|].
        intro E. rewrite E in Hst. discriminate. }
    assert (Hd : p_status row = published)
      by (destruct (p_status row); now try discriminate).
    rewrite (handleClose_published _ _ Hrow Hd), handleGet_state.
    unfold closed_at_now. intros row' Hin.
    cbn [sql Sql.update_poll poll votes] in Hin |- *.
    apply in_map_iff in Hin. destruct Hin as (r & <- & Hin).
    assert (r = row) by (apply Hone; [reflexivity | exact Hin]). subst r.
    destruct (HT row Hin) as (H1 & H2 & _ & H4).
    destruct (stamps_published (inv_stamps HI row Hin) Hd) as [[p Hp] _].
    specialize (H2 p Hp).
    cbn. split; [lia|]. split; [intros p' Hp'; rewrite Hp in Hp'; injection Hp' as <-; lia|].
    split.
    + intros c [= <-]. split; [lia|]. exists p. split; [exact Hp | lia].
    + intros v Hvin. destruct (H4 v Hvin) as (Ha & Hb & _). split; [lia|].
      split; [exact Hb|]. intros c [= <-]. lia.
  - (* delete *)
    destruct (Sql.select_poll_limit_1 (sql s)) as [row|] eqn:Hrow.
    + rewrite (handleDelete_removes _ Hrow). intros r [].
    + rewrite (handleDelete_missing _ Hrow). now apply Hsame.
  - (* reset *)
    destruct (Sql.select_poll_limit_1 (sql s)) as [row|] eqn:Hrow.
    2:{ rewrite (handleReset_missing _ _ Hrow). now apply Hsame. }
    rewrite (handleReset_state _ _ Hrow), handleGet_state.
    intros row' Hin.
    cbn [sql Sql.update_poll Sql.delete_from_votes poll votes] in Hin |- *.
    apply in_map_iff in Hin. destruct Hin as (r & <- & Hin).
    destruct (HT r Hin) as (H1 & H2 & H3 & _).
    cbn. split; [lia|]. split; [intros p Hp; specialize (H2 p Hp); lia|].
    split; [|intros v []].
    intros c Hc. destruct (H3 c Hc) as [Hle Hex]. split; [lia | exact Hex].
  - (* vote *)
    destruct (handleVote_outcome env aid fp s) as [[_ ->]|[Hr Hs]];
      [now apply Hsame|].
    destruct (@handleVote_ok_inv env aid fp s _ Hr eq_refl)
      as ((row & Hrow & Hst) & _).
    rewrite Hs. unfold accept_vote. intros r Hin. cbn [sql poll votes] in Hin |- *.
    assert (r = row) by now apply Hone. subst r.
    destruct (HT row Hin) as (H1 & H2 & H3 & H4).
    destruct (stamps_published (inv_stamps HI row Hin) Hst) as [[p Hp] Hc].
    specialize (H2 p Hp).
    split; [lia|]. split; [intros p' Hp'; rewrite Hp in Hp'; injection Hp' as <-; lia|].
    split; [exact H3|].
    intros v Hvin. apply in_app_iff in Hvin. destruct Hvin as [Hvin|[<-|[]]].
    + destruct (H4 v Hvin) as (Ha & Hb & Hc'). split; [lia|]. now split.
    + cbn. split; [lia|]. split; [exists p; split; [exact Hp | lia]|].
      rewrite Hc. discriminate.
  - (* check-voted *)
    now apply Hsame.
  - (* stream *)
    now apply Hsame.
  - (* get-index *)
    now apply Hsame.
  - (* add-to-index *)
    apply Hsame; unfold handleAddToIndex; run_do; unfold Sql.insert_or_ignore_index;
      destruct (existsb _ (poll_index (sql s))); reflexivity.
  - (* remove-from-index *)
    now apply Hsame.
  - now apply Hsame.
Qed.

Lemma run_times (history : list Event) :
  forall s t,
    Inv (sql s) -> times_ok t (sql s) -> in_time_order t history ->
    times_ok (last_clock t history) (sql (run s history)).
Proof.
  induction history as [|e history IH]; intros s t HI HT Ho; [exact HT|].
  destruct e as [env request|connectionId]; cbn [in_time_order] in Ho.
  - destruct Ho as [Ht Ho]. apply IH; [| |exact Ho].
    + apply (step_Inv s (Fetch env request) HI).
    + now apply fetch_times with (t := t).
  - apply IH; [| |exact Ho].
    + apply (step_Inv s (Disconnect connectionId) HI).
    + exact HT.
Qed.

(** X19. The times the actor records.  Along every history whose requests
    carry a clock that never goes back, in the state reached: the poll was
    created, then published, then closed, then last written, in that order
    and not after the last request; and every stored vote was cast after
    the publication of the poll, not after the last request, and, when the
    poll is closed, not after its closing. *)
Theorem recorded_times_are_ordered (history : list Event) (t0 : Z) :
  in_time_order t0 history ->
  times_ok (last_clock t0 history) (sql (run fresh history)).
Proof.
  intro Ho. apply run_times; [apply Inv_empty | | exact Ho].
  intros row [].
Qed.

(** The poll of [one_vote], closed at time 4. *)
Lemma recorded_times_are_ordered_witness :
  times_ok 4 (sql (run fresh (one_vote_history ++ [Fetch (env_at 4 "c") close]))).
Proof.
  apply (recorded_times_are_ordered
           (one_vote_history ++ [Fetch (env_at 4 "c") close]) 0).
  simpl. lia.
Defined.

(** ** The index and the polls, along the calls to the workers *)

Lemma fetch_keeps_poll (env : Env) (request : Request) (s : PollVoteCounter) :
  is_delete (Fetch env request) = false ->
  holds_poll s = true -> holds_poll (snd (fetch env request s)) = true.
Proof.
  unfold holds_poll. intros Hd H.
  destruct (Sql.select_poll_limit_1 (sql s)) as [row|] eqn:Hrow; [|discriminate].
  destruct (@step_keeps s (Fetch env request) row Hd Hrow) as (row' & Hrow' & _).
  cbn [step] in Hrow'. now rewrite Hrow'.
Qed.

Lemma callDO_keeps_poll (ns : Namespace) (pollId : string) (env : Env)
      (request : Request) (name : string) :
  is_delete (Fetch env request) = false ->
  holds_poll (ns name) = true ->
  holds_poll (snd (callDO ns pollId env request) name) = true.
Proof.
  intros Hd H. rewrite callDO_eq. cbn [snd]. unfold put.
  destruct (String.eqb name pollId) eqn:E; [|exact H].
  apply String.eqb_eq in E. subst name. now apply fetch_keeps_poll.
Qed.

(** The index sound: every identifier it names is that of an actor that
    stores a poll. *)
Lemma sound_after_call (ns ns' : Namespace) :
  (forall name, holds_poll (ns name) = true -> holds_poll (ns' name) = true) ->
  poll_index (sql (ns' POLL_INDEX_KEY)) = poll_index (sql (ns POLL_INDEX_KEY)) ->
  (forall id, In id (indexed ns) -> holds_poll (ns id) = true) ->
  forall id, In id (indexed ns') -> holds_poll (ns' id) = true.
Proof.
  intros Hk Hi H id Hin. apply Hk, H. rewrite indexed_In in *. now rewrite <- Hi.
Qed.

Lemma sound_after_callDO (ns : Namespace) (pollId : string) (env : Env)
      (request : Request) :
  is_delete (Fetch env request) = false -> writes_index request = false ->
  (forall id, In id (indexed ns) -> holds_poll (ns id) = true) ->
  forall id, In id (indexed (snd (callDO ns pollId env request))) ->
             holds_poll (snd (callDO ns pollId env request) id) = true.
Proof.
  intros Hd Hw. apply sound_after_call.
  - intros name. now apply callDO_keeps_poll.
  - now apply callDO_keeps_index.
Qed.

Lemma sound_same_actors (ns ns' : Namespace) :
  same_actors ns ns' ->
  (forall id, In id (indexed ns) -> holds_poll (ns id) = true) ->
  forall id, In id (indexed ns') -> holds_poll (ns' id) = true.
Proof.
  intros Hs. apply sound_after_call.
  - intros name. now rewrite (Hs name).
  - now rewrite (Hs POLL_INDEX_KEY).
Qed.

Lemma handleCreate_ok_holds env id q texts s response :
  fst (handleCreate env id q texts s) = Return response -> ok response = true ->
  holds_poll (snd (handleCreate env id q texts s)) = true.
Proof.
  unfold handleCreate, holds_poll. run_do.
  destruct (Sql.select_poll_limit_1 (sql s)) eqn:Hrow; simpl;
    [intros [= <-]; discriminate|].
  unfold Sql.insert_poll.
  destruct (existsb _ (poll (sql s))); simpl; [discriminate|].
  match goal with
  | |- context [insert_answers env 0 texts ?s0] =>
      destruct (insert_answers_frame env texts 0 s0) as (Fp & _);
      destruct (insert_answers env 0 texts s0) as [c s']
  end.
  simpl in Fp. destruct c; simpl; [|discriminate].
  intros _ _. unfold Sql.select_poll_limit_1. rewrite Fp.
  now destruct (poll (sql s)).
Qed.

Lemma handleCreatePoll_keeps_polls (ns : Namespace) (env : Env) (doEnv : nat -> Env)
      (body : option CreatePollRequest) (name : string) :
  holds_poll (ns name) = true ->
  holds_poll (snd (handleCreatePoll ns env doEnv body) name) = true.
Proof.
  intro H. unfold handleCreatePoll.
  destruct body as [data|]; [|exact H].
  destruct (createPollSchema data); cbn [negb]; cbv iota; [|exact H].
  set (pollId := randomUUID env 0).
  pose proof (@callDO_keeps_poll ns pollId (doEnv 0)
                (create pollId (question data) (answers_in data)) name eq_refl H) as H1.
  destruct (callDO ns pollId (doEnv 0)
                   (create pollId (question data) (answers_in data)))
    as [[response|e] ns1]; cbn [snd] in H1; [|exact H1].
  destruct (negb (ok response)); [exact H1|].
  unfold addToPollIndex.
  pose proof (@callDO_keeps_poll ns1 POLL_INDEX_KEY (doEnv 1)
                (add_to_index pollId) name eq_refl H1) as H2.
  destruct (callDO ns1 POLL_INDEX_KEY (doEnv 1) (add_to_index pollId))
    as [[response2|e] ns2]; cbn [snd] in H2; [|exact H2].
  pose proof (@callDO_keeps_poll ns2 pollId (doEnv 2) get name eq_refl H2) as H3.
  destruct (callDO ns2 pollId (doEnv 2) get) as [[response3|e] ns3];
    cbn [snd] in H3; exact H3.
Qed.

Lemma handleCreatePoll_created (ns : Namespace) (env : Env) (doEnv : nat -> Env)
      (body : option CreatePollRequest) (b : ApiJson) :
  fst (handleCreatePoll ns env doEnv body) = Return (mkApi 201 b) ->
  holds_poll (snd (handleCreatePoll ns env doEnv body) (randomUUID env 0)) = true.
Proof.
  unfold handleCreatePoll.
  destruct body as [data|]; [|discriminate].
  destruct (createPollSchema data); cbn [negb]; cbv iota; [|discriminate].
  set (pollId := randomUUID env 0).
  rewrite (callDO_eq ns). cbn [fetch].
  destruct (fst (handleCreate (doEnv 0) pollId (question data) (answers_in data)
                              (ns pollId))) as [response|e] eqn:Hc; [|discriminate].
  destruct (ok response) eqn:Hok; cbn [negb]; cbv iota.
  2:{ intros [= E _]. unfold ok in Hok. rewrite E in Hok. discriminate. }
  pose proof (handleCreate_ok_holds _ _ _ _ _ Hc Hok) as H1.
  set (ns1 := put ns pollId _) in *.
  assert (H1' : holds_poll (ns1 pollId) = true)
    by (subst ns1; now rewrite put_self).
  unfold addToPollIndex.
  pose proof (@callDO_keeps_poll ns1 POLL_INDEX_KEY (doEnv 1)
                (add_to_index pollId) pollId eq_refl H1') as H2.
  destruct (callDO ns1 POLL_INDEX_KEY (doEnv 1) (add_to_index pollId))
    as [[response2|e] ns2]; cbn [snd] in H2; [|discriminate].
  pose proof (@callDO_keeps_poll ns2 pollId (doEnv 2) get pollId eq_refl H2) as H3.
  destruct (callDO ns2 pollId (doEnv 2) get) as [[response3|e] ns3];
    cbn [snd] in H3; [|discriminate].
  intros _. exact H3.
Qed.

Lemma handleDeletePoll_keeps_polls (ns : Namespace) (doEnv : nat -> Env)
      (pollId name : string) :
  holds_poll (ns name) = true ->
  ~ (name = pollId /\
     exists b, fst (handleDeletePoll ns doEnv pollId) = Return (mkApi 200 b)) ->
  holds_poll (snd (handleDeletePoll ns doEnv pollId) name) = true.
Proof.
  intros H Hnot. revert Hnot. unfold handleDeletePoll.
  rewrite (callDO_eq ns). cbn [fetch].
  destruct (Sql.select_poll_limit_1 (sql (ns pollId))) as [row|] eqn:Hrow.
  - rewrite (handleDelete_removes _ Hrow). cbn [fst snd].
    change (negb (ok (mkResponse 200 JDeleted))) with false. cbv iota.
    unfold removeFromPollIndex. rewrite callDO_eq. cbn [fetch].
    rewrite handleRemoveFromIndex_eq. cbn [fst snd]. intros Hnot.
    assert (Hne : name <> pollId) by (intro E; apply Hnot; eauto).
    unfold put. destruct (String.eqb name POLL_INDEX_KEY) eqn:E.
    + apply String.eqb_eq in E. subst name.
      apply String.eqb_neq in Hne. rewrite Hne. exact H.
    + apply String.eqb_neq in Hne. rewrite Hne. exact H.
  - rewrite (handleDelete_missing _ Hrow). cbn. intros _.
    now rewrite (put_same ns pollId name).
Qed.

Lemma handleListPolls_same_actors (Number_integer : string -> option Z)
      (ns : Namespace) (doEnv : nat -> Env) (q : ListQuery) :
  same_actors ns (snd (handleListPolls Number_integer ns doEnv q)).
Proof.
  unfold handleListPolls.
  destruct (pollListQuerySchema Number_integer q) as [[[status limit] offset]|];
    [|intro name; reflexivity].
  destruct (getPollIndex_eq ns (doEnv 0)) as [_ Hns1].
  destruct (getPollIndex ns (doEnv 0)) as [pollIds ns1]. cbn [snd] in Hns1.
  destruct (get_polls_eq doEnv pollIds 1 Hns1) as [_ Hns2].
  destruct (get_polls ns1 doEnv 1 pollIds) as [allPolls ns2]. exact Hns2.
Qed.

Ltac one_call ns pollId env request H :=
  let H1 := fresh "H1" in
  pose proof (@sound_after_callDO ns pollId env request eq_refl eq_refl H) as H1;
  destruct (callDO ns pollId env request) as [[? | ?] ?]; cbn [snd] in H1 |- *;
  repeat match goal with
         | |- context [if ?b then _ else _] => destruct b
         | |- context [match ?x with _ => _ end] => destruct x
         end;
  cbn [snd]; exact H1.

Lemma serve_sound (ns : Namespace) (call : ApiCall) :
  (forall id, In id (indexed ns) -> holds_poll (ns id) = true) ->
  forall id, In id (indexed (serve ns call)) -> holds_poll (serve ns call id) = true.
Proof.
  intro H.
  destruct call as [env doEnv body|N doEnv q|r doEnv pollId|env pollId
                    |uuid generate env pollId request|env pollId|env pollId];
    cbn [serve].
  - intros id Hin. apply handleCreatePoll_index in Hin. destruct Hin as [Hin|[-> [b Hb]]].
    + now apply handleCreatePoll_keeps_polls, H.
    + now apply handleCreatePoll_created with (b := b).
  - apply (sound_same_actors (handleListPolls_same_actors N ns doEnv q) H).
  - unfold app.
    assert (E : snd (let (c, ns') := route r ns doEnv pollId in (onError c, ns')) =
                snd (route r ns doEnv pollId))
      by now destruct (route r ns doEnv pollId).
    rewrite E. clear E.
    destruct r as [|[data|]| | | |]; cbn [route].
    + unfold handleGetPoll. one_call ns pollId (doEnv 0) get H.
    + unfold handleUpdatePoll.
      destruct (negb (updatePollSchema data)); [exact H|].
      one_call ns pollId (doEnv 0) (update (u_question data) (u_answers data)) H.
    + exact H.
    + intros id Hin. apply handleDeletePoll_index in Hin. destruct Hin as [Hin Hnot].
      apply handleDeletePoll_keeps_polls; [now apply H | exact Hnot].
    + unfold handlePublishPoll. one_call ns pollId (doEnv 0) publish H.
    + unfold handleClosePoll. one_call ns pollId (doEnv 0) close H.
    + unfold handleResetPoll. one_call ns pollId (doEnv 0) reset H.
  - unfold EmbedRoutes.handleGetPoll. one_call ns pollId env get H.
  - unfold VoteRoute.handleVote.
    destruct (json_body request) as [body|]; [|exact H].
    destruct (VoteRoute.voteRequestSchema uuid body) as [data|]; [|exact H].
    cbv zeta.
    one_call ns pollId env (vote (vr_answerId data)
                                 (generate request (VoteRoute.clientId_of data))) H.
  - unfold EmbedRoutes.handleStream. one_call ns pollId env stream H.
  - unfold EmbedRoutes.handleEmbed. one_call ns pollId env get H.
Qed.

Lemma serve_all_sound (calls : list ApiCall) :
  forall ns,
    (forall id, In id (indexed ns) -> holds_poll (ns id) = true) ->
    forall id, In id (indexed (serve_all ns calls)) ->
               holds_poll (serve_all ns calls id) = true.
Proof.
  induction calls as [|call calls IH]; intros ns H; [exact H|].
  cbn [serve_all fold_left]. apply IH. now apply serve_sound.
Qed.

Lemma stored_polls_length (ns : Namespace) (pollIds : list string) :
  (forall id, In id pollIds -> holds_poll (ns id) = true) ->
  List.length (stored_polls ns pollIds) = List.length pollIds.
Proof.
  induction pollIds as [|id rest IH]; intros H; [reflexivity|].
  unfold stored_polls in *. cbn [flat_map]. rewrite length_app, IH.
  - specialize (H id (or_introl eq_refl)). unfold holds_poll in H.
    destruct (Sql.select_poll_limit_1 (sql (ns id))) as [row|] eqn:Hrow;
      [|discriminate].
    rewrite (handleGet_row _ Hrow). reflexivity.
  - intros x Hx. apply H. now right.
Qed.

(** X20. The index and the polls, along every history of calls to the
    admin routes and to the public routes, from the empty namespace: every
    identifier the index names is that of an actor that stores a poll, so
    the list of polls reads one poll for every identifier of the index, in
    the order of the index. *)
Theorem index_names_only_stored_polls (calls : list ApiCall) :
  let ns := serve_all no_actors calls in
  (forall id, In id (indexed ns) -> holds_poll (ns id) = true) /\
  List.length (stored_polls ns (indexed ns)) = List.length (indexed ns).
Proof.
  intro ns.
  assert (H : forall id, In id (indexed ns) -> holds_poll (ns id) = true).
  { subst ns. apply serve_all_sound. intros id []. }
  split; [exact H|]. now apply stored_polls_length.
Qed.

(** After one creation through the admin API the index names the poll, and
    its actor stores it. *)
Lemma index_names_only_stored_polls_witness :
  In "p0" (indexed one_poll) /\ holds_poll (one_poll "p0") = true.
Proof.
  assert (Hin : In "p0" (indexed one_poll)) by (vm_compute; now left).
  split; [exact Hin|].
  exact (proj1 (index_names_only_stored_polls
                  [POST_polls (env_at 0 "p") (doEnv_at 1)
                              (Some (mkCreatePollRequest "Q?" ["A"; "B"]))])
               "p0" Hin).
Defined.

(** ** The form of the admin UI and the schema of the server *)

Lemma trimmed_nonempty (trim : string -> string) (text : string) :
  (forall s, String.length (trim s) <= String.length s) ->
  String.eqb (trim text) "" = false -> 1 <= String.length text.
Proof.
  intros Htrim H. specialize (Htrim text).
  destruct (trim text) as [|c rest] eqn:E; [discriminate|]. cbn in Htrim. lia.
Qed.

(** X21. The form of the admin UI against the schema of the server,
    whatever [trim] does as long as it never lengthens a text.  When the
    form submits (its own validation passes), the body it sends has a
    question of 1 to 500 characters and 2 to 10 distinct answers, none of
    them empty; the form does not look at the length of an answer, so the
    server's [createPollSchema] accepts the body exactly when no answer has
    more than 200 characters. *)
Theorem form_submission_and_schema (trim : string -> string) (st : FormState)
        (body : CreatePollRequest) :
  (forall s, String.length (trim s) <= String.length s) ->
  handleSubmit trim st = Some body ->
  (1 <= String.length (question body) <= 500) /\
  (2 <= List.length (answers_in body) <= 10) /\
  NoDup (answers_in body) /\
  (forall a, In a (answers_in body) -> 1 <= String.length a) /\
  createPollSchema body =
  forallb (fun a => (String.length a <=? 200)%nat) (answers_in body).
Proof.
  intros Htrim. unfold handleSubmit, validateForm.
  destruct (String.eqb (trim (f_question st)) "") eqn:Hq; [discriminate|].
  destruct (500 <? String.length (f_question st))%nat eqn:Hlen; [discriminate|].
  destruct (List.length (validAnswers trim (f_answers st)) <? 2)%nat eqn:Hmin;
    [discriminate|].
  destruct (10 <? List.length (validAnswers trim (f_answers st)))%nat eqn:Hmax;
    [discriminate|].
  destruct (unique_answers (validAnswers trim (f_answers st))) eqn:Hu;
    [|discriminate].
  cbn [negb andb]. intros [= <-]. cbn [question answers_in].
  apply Nat.ltb_ge in Hlen, Hmin, Hmax.
  assert (Hq1 : 1 <= String.length (trim (f_question st))).
  { destruct (trim (f_question st)); [discriminate | cbn; lia]. }
  assert (Hq2 : String.length (trim (f_question st)) <= 500)
    by (specialize (Htrim (f_question st)); lia).
  assert (Hne : forall a, In a (validAnswers trim (f_answers st)) ->
                          1 <= String.length a).
  { intros a Ha. apply filter_In in Ha. destruct Ha as [_ Ha].
    apply negb_true_iff in Ha. now apply trimmed_nonempty with (trim := trim). }
  split; [lia|]. split; [lia|].
  split; [now apply unique_answers_NoDup|]. split; [exact Hne|].
  unfold createPollSchema. cbn [question answers_in]. rewrite Hu, andb_true_r.
  unfold string_min_max, POLL_CONSTRAINTS.QUESTION_MIN_LENGTH,
    POLL_CONSTRAINTS.QUESTION_MAX_LENGTH, POLL_CONSTRAINTS.MIN_ANSWERS,
    POLL_CONSTRAINTS.MAX_ANSWERS, POLL_CONSTRAINTS.ANSWER_MIN_LENGTH,
    POLL_CONSTRAINTS.ANSWER_MAX_LENGTH.
  replace (1 <=? String.length (trim (f_question st)))%nat with true
    by (symmetry; now apply Nat.leb_le).
  replace (String.length (trim (f_question st)) <=? 500)%nat with true
    by (symmetry; now apply Nat.leb_le).
  replace (2 <=? List.length (validAnswers trim (f_answers st)))%nat with true
    by (symmetry; now apply Nat.leb_le).
  replace (List.length (validAnswers trim (f_answers st)) <=? 10)%nat with true
    by (symmetry; now apply Nat.leb_le).
  cbn [andb]. rewrite !andb_true_r.
  revert Hne. generalize (validAnswers trim (f_answers st)). clear.
  induction l as [|a l IH]; intros Hne; [reflexivity|]. cbn [forallb].
  rewrite IH by (intros x Hx; apply Hne; now right).
  replace (1 <=? String.length a)%nat with true; [reflexivity|].
  symmetry. apply Nat.leb_le, Hne. now left.
Qed.

Lemma trimStart_length (text : string) :
  String.length (trimStart text) <= String.length text.
Proof.
  induction text as [|c rest IH]; cbn; [lia|].
  destruct (white_space c); cbn; lia.
Qed.

Lemma trimEnd_length (text : string) :
  String.length (trimEnd text) <= String.length text.
Proof.
  induction text as [|c rest IH]; cbn; [lia|].
  destruct (trimEnd rest) as [|c' kept]; [destruct (white_space c)|]; cbn in *; lia.
Qed.

Lemma trim_ascii_length (text : string) :
  String.length (trim_ascii text) <= String.length text.
Proof.
  unfold trim_ascii. etransitivity; [apply trimEnd_length | apply trimStart_length].
Qed.

(** A form with a padded question and a blank answer field submits the
    trimmed question and the two answers, which the server accepts. *)
Lemma form_submission_and_schema_witness :
  handleSubmit trim_ascii (mkFormState " Q? " ["A"; "  "; "B"]) =
  Some (mkCreatePollRequest "Q?" ["A"; "B"]) /\
  createPollSchema (mkCreatePollRequest "Q?" ["A"; "B"]) = true.
Proof.
  split; [reflexivity|].
  destruct (@form_submission_and_schema
              trim_ascii (mkFormState " Q? " ["A"; "  "; "B"])
              (mkCreatePollRequest "Q?" ["A"; "B"]) trim_ascii_length eq_refl)
    as (_ & _ & _ & _ & H).
  exact H.
Defined.

(** ** The two reads of a poll *)

(** X22. The read of the admin API and the read of the public API agree.
    Neither throws nor answers 500.  On an actor without a poll both answer
    404 [POLL_NOT_FOUND].  On a draft the public read answers 403 while the
    admin read shows the draft.  On a published or closed poll both show
    the same identifier, question, status, times, total and answers (with
    the same counts and percentages). *)
Theorem admin_and_public_reads_agree (ns : Namespace) (env : Env)
        (doEnv : nat -> Env) (pollId : string) :
  let admin := fst (handleGetPoll ns doEnv pollId) in
  match fst (EmbedRoutes.handleGetPoll ns env pollId) with
  | Return (EmbedRoutes.RPoll shown) =>
      exists p, admin = Return (mkApi 200 (APoll (Some p))) /\
                ap_id p = EmbedRoutes.pp_id shown /\
                ap_question p = EmbedRoutes.pp_question shown /\
                ap_status p = EmbedRoutes.pp_status shown /\
                ap_created_at p = EmbedRoutes.pp_created_at shown /\
                ap_updated_at p = EmbedRoutes.pp_updated_at shown /\
                ap_published_at p = EmbedRoutes.pp_published_at shown /\
                ap_closed_at p = EmbedRoutes.pp_closed_at shown /\
                ap_totalVotes p = EmbedRoutes.pp_totalVotes shown /\
                ap_answers p = EmbedRoutes.pp_answers shown /\
                ap_status p <> draft
  | Return (EmbedRoutes.RError error status code) =>
      (status = 404 /\ code = POLL_NOT_FOUND /\
       admin = Return (errorResponse "Poll not found" 404 POLL_NOT_FOUND)) \/
      (status = 403 /\ code = POLL_NOT_PUBLISHED /\
       exists p, admin = Return (mkApi 200 (APoll (Some p))) /\ ap_status p = draft)
  | _ => False
  end.
Proof.
  intro admin. subst admin. unfold EmbedRoutes.handleGetPoll, handleGetPoll.
  rewrite !callDO_get.
  destruct (Sql.select_poll_limit_1 (sql (ns pollId))) as [row|] eqn:Hrow.
  - rewrite (handleGet_row _ Hrow). cbn [fst r_body r_status poll_row].
    change (negb (ok (mkResponse 200 _))) with false. cbv iota.
    destruct (Status_eqb (p_status row) draft) eqn:Hst; cbn [fst].
    + right. repeat split. eexists. split; [reflexivity|]. cbn.
      destruct (p_status row); now try discriminate.
    + eexists. split; [reflexivity|]. cbn. repeat split.
      intro E. rewrite E in Hst. discriminate.
  - rewrite (handleGet_missing _ Hrow). cbn. left. repeat split.
Qed.

(** ** A vote and the next read *)

Lemma count_votes_after_vote env answerId fp s (id : string) :
  Sql.count_votes id (sql (accept_vote env answerId fp s)) =
  Sql.count_votes id (sql s) + (if String.eqb answerId id then 1 else 0).
Proof.
  unfold Sql.count_votes, accept_vote. cbn [sql votes].
  rewrite filter_app, length_app. cbn [filter v_answer_id].
  destruct (String.eqb answerId id); reflexivity.
Qed.

(** X23. A vote accepted by the public route shows in the next public
    read.  For an actor reached by requests: when the vote route answers
    200, the public read showed the poll before and shows it after, with
    the same answers in the same order; the total has grown by one, the
    count of the answer voted for has grown by one, and no other count has
    changed. *)
Theorem accepted_vote_shows_in_the_next_read
        (uuid : string -> bool) (generate : HttpRequest -> option string -> string)
        (ns : Namespace) (env env0 env1 : Env) (pollId : string)
        (request : HttpRequest) (history : list Event) (reply : ApiResponse) :
  ns pollId = run fresh history ->
  fst (VoteRoute.handleVote uuid generate ns env pollId request) = Return reply ->
  api_status reply = 200 ->
  let ns' := snd (VoteRoute.handleVote uuid generate ns env pollId request) in
  exists body before after,
    json_body request = Some body /\
    fst (EmbedRoutes.handleGetPoll ns env0 pollId) = Return (EmbedRoutes.RPoll before) /\
    fst (EmbedRoutes.handleGetPoll ns' env1 pollId) = Return (EmbedRoutes.RPoll after) /\
    EmbedRoutes.pp_totalVotes after = EmbedRoutes.pp_totalVotes before + 1 /\
    map aa_id (EmbedRoutes.pp_answers after) =
    map aa_id (EmbedRoutes.pp_answers before) /\
    map aa_votes (EmbedRoutes.pp_answers after) =
    map (fun a => aa_votes a +
                  (if String.eqb (body_answerId body) (aa_id a) then 1 else 0))
        (EmbedRoutes.pp_answers before) /\
    In (body_answerId body) (map aa_id (EmbedRoutes.pp_answers before)).
Proof.
  intros Hreach Hreply H200 ns'. subst ns'. revert Hreply.
  unfold VoteRoute.handleVote, VoteRoute.voteRequestSchema, VoteRoute.clientId_of.
  destruct (json_body request) as [body|]; [|intros [= <-]; discriminate].
  destruct (uuid (body_answerId body)); [|intros [= <-]; discriminate].
  cbn [vr_answerId]. rewrite callDO_eq. cbn [fetch fst snd].
  set (fp := generate request None). set (answerId := body_answerId body).
  destruct (fst (handleVote env answerId fp (ns pollId))) as [response|e] eqn:Hv;
    [|discriminate].
  intros [= <-]. apply vote_reply_200 in H200.
  destruct (handleVote_ok_inv env answerId fp (ns pollId) Hv H200)
    as ((row & Hrow & Hst) & Hin & _ & Hs).
  rewrite Hs.
  assert (HI : Inv (sql (ns pollId))) by (rewrite Hreach; apply reachable_Inv).
  assert (HI' : Inv (sql (accept_vote env answerId fp (ns pollId)))).
  { rewrite <- Hs. apply (step_Inv (ns pollId) (Fetch env (vote answerId fp)) HI). }
  assert (Hrow' : Sql.select_poll_limit_1 (sql (accept_vote env answerId fp (ns pollId)))
                  = Some row) by exact Hrow.
  cbn [snd]. exists body. unfold EmbedRoutes.handleGetPoll.
  rewrite !callDO_get, put_self.
  rewrite (handleGet_row _ Hrow), (handleGet_row _ Hrow').
  cbn [fst r_body r_status poll_row].
  change (negb (ok (mkResponse 200 _))) with false. cbv iota.
  rewrite Hst. cbn [Status_eqb fst].
  do 2 eexists. split; [reflexivity|]. split; [reflexivity|]. split; [reflexivity|].
  cbn [EmbedRoutes.pp_totalVotes EmbedRoutes.pp_answers totalVotes answers_of].
  split; [|split; [|split]].
  - rewrite (answers_with_counts_total HI'), (answers_with_counts_total HI).
    unfold accept_vote. cbn [sql votes]. rewrite length_app. reflexivity.
  - unfold Sql.answers_with_counts. rewrite !map_map. reflexivity.
  - unfold Sql.answers_with_counts. rewrite !map_map. cbn [fst snd aa_votes aa_id
      votes_of answer_id]. apply map_ext. intro a. apply count_votes_after_vote.
  - unfold Sql.answers_with_counts. rewrite !map_map. cbn [fst aa_id answer_id].
    change (fun x : AnswerData => a_id x) with a_id.
    apply (Permutation_in _ (Permutation_map a_id (order_by_display_order_perm _))).
    exact Hin.
Qed.

(** A second voter on the poll of [one_vote], voting for the other answer:
    the counts go from 1 and 0 to 1 and 1. *)
Lemma accepted_vote_shows_in_the_next_read_witness :
  let request := mkHttpRequest None None (Some (mkVoteBody "a1" None)) in
  let ns := put no_actors "p" one_vote in
  let ns' := snd (VoteRoute.handleVote (fun _ => true) (fun _ _ => "fp2")
                                       ns (env_at 5 "w") "p" request) in
  exists before after,
    fst (EmbedRoutes.handleGetPoll ns (env_at 6 "g") "p")
    = Return (EmbedRoutes.RPoll before) /\
    fst (EmbedRoutes.handleGetPoll ns' (env_at 7 "h") "p")
    = Return (EmbedRoutes.RPoll after) /\
    map aa_votes (EmbedRoutes.pp_answers before) = [1; 0] /\
    map aa_votes (EmbedRoutes.pp_answers after) = [1; 1].
Proof.
  cbv zeta.
  edestruct (@accepted_vote_shows_in_the_next_read
               (fun _ => true) (fun _ _ => "fp2") (put no_actors "p" one_vote)
               (env_at 5 "w") (env_at 6 "g") (env_at 7 "h") "p"
               (mkHttpRequest None None (Some (mkVoteBody "a1" None)))
               one_vote_history)
    as (body & before & after & Hb & H1 & H2 & _ & _ & Hvotes & _).
  - reflexivity.
  - vm_compute. reflexivity.
  - reflexivity.
  - exists before, after. split; [exact H1|]. split; [exact H2|].
    injection Hb as <-. rewrite Hvotes. clear Hvotes H2.
    vm_compute in H1. injection H1 as <-. split; reflexivity.
Defined.

(** ** From creation to closing, through the routes *)

Lemma handleCreate_ok_draft env id q texts s response :
  fst (handleCreate env id q texts s) = Return response -> ok response = true ->
  exists row, Sql.select_poll_limit_1 (sql (snd (handleCreate env id q texts s)))
              = Some row /\
              p_status row = draft /\ p_id row = id /\ p_question row = q.
Proof.
  unfold handleCreate. run_do.
  destruct (Sql.select_poll_limit_1 (sql s)) eqn:Hrow; simpl;
    [intros [= <-]; discriminate|].
  unfold Sql.insert_poll.
  destruct (existsb _ (poll (sql s))); simpl; [discriminate|].
  match goal with
  | |- context [insert_answers env 0 texts ?s0] =>
      destruct (insert_answers_frame env texts 0 s0) as (Fp & _);
      destruct (insert_answers env 0 texts s0) as [c s']
  end.
  simpl in Fp. destruct c; simpl; [|discriminate].
  intros _ _. unfold Sql.select_poll_limit_1 in *. rewrite Fp.
  destruct (poll (sql s)); [|discriminate]. cbn. eexists. repeat split.
Qed.

Lemma fetch_add_to_index_poll (env : Env) (pollId : string) (s : PollVoteCounter) :
  Sql.select_poll_limit_1 (sql (snd (fetch env (add_to_index pollId) s))) =
  Sql.select_poll_limit_1 (sql s).
Proof.
  cbn [fetch]. unfold handleAddToIndex. run_do. unfold Sql.insert_or_ignore_index.
  destruct (existsb _ (poll_index (sql s))); reflexivity.
Qed.

Lemma handleCreatePoll_draft (ns : Namespace) (env : Env) (doEnv : nat -> Env)
      (body : option CreatePollRequest) (b : ApiJson) :
  fst (handleCreatePoll ns env doEnv body) = Return (mkApi 201 b) ->
  shown_status (Return (mkApi 201 b)) = Some draft /\
  exists row,
    Sql.select_poll_limit_1
      (sql (snd (handleCreatePoll ns env doEnv body) (randomUUID env 0))) = Some row /\
    p_status row = draft /\ p_id row = randomUUID env 0.
Proof.
  unfold handleCreatePoll.
  destruct body as [data|]; [|discriminate].
  destruct (createPollSchema data); cbn [negb]; cbv iota; [|discriminate].
  set (pollId := randomUUID env 0).
  rewrite (callDO_eq ns). cbn [fetch].
  destruct (fst (handleCreate (doEnv 0) pollId (question data) (answers_in data)
                              (ns pollId))) as [response|e] eqn:Hc; [|discriminate].
  destruct (ok response) eqn:Hok; cbn [negb]; cbv iota.
  2:{ intros [= E _]. unfold ok in Hok. rewrite E in Hok. discriminate. }
  destruct (handleCreate_ok_draft _ _ _ _ _ Hc Hok) as (row & Hrow & Hst & Hid & _).
  set (ns1 := put ns pollId _) in *.
  assert (H1 : Sql.select_poll_limit_1 (sql (ns1 pollId)) = Some row)
    by (subst ns1; now rewrite put_self).
  unfold addToPollIndex. rewrite (callDO_eq ns1).
  set (ns2 := put ns1 POLL_INDEX_KEY _).
  assert (H2 : Sql.select_poll_limit_1 (sql (ns2 pollId)) = Some row).
  { subst ns2. unfold put at 1.
    destruct (String.eqb pollId POLL_INDEX_KEY) eqn:E; [|exact H1].
    apply String.eqb_eq in E. rewrite <- E. now rewrite fetch_add_to_index_poll. }
  cbn [fetch].
  assert (Hadd : forall e i s,
             fst (handleAddToIndex e i s) = Return (mkResponse 200 JSuccess))
    by reflexivity.
  rewrite Hadd, callDO_get, (handleGet_row _ H2). cbn [fst snd r_body].
  intros [= <-]. split; [cbn; now rewrite Hst|].
  exists row. rewrite (put_same ns2 pollId pollId). now split.
Qed.

Lemma handlePublishPoll_draft (ns : Namespace) (doEnv : nat -> Env) (pollId : string)
      (row : PollData) :
  Sql.select_poll_limit_1 (sql (ns pollId)) = Some row -> p_status row = draft ->
  shown_status (fst (handlePublishPoll ns doEnv pollId)) = Some published /\
  Sql.select_poll_limit_1 (sql (snd (handlePublishPoll ns doEnv pollId) pollId)) =
  Some (Sql.set_published (now (doEnv 0)) row).
Proof.
  intros Hrow Hd. unfold handlePublishPoll. rewrite callDO_eq. cbn [fetch].
  rewrite (handlePublish_draft _ _ Hrow Hd). unfold published_at_now.
  destruct (@update_poll_found (Sql.set_published (now (doEnv 0))) (ns pollId) row
              (Sql.update_poll (Sql.set_published (now (doEnv 0))) (sql (ns pollId)))
              (connections (ns pollId)) Hrow eq_refl) as (p & -> & Hp).
  cbn [fst snd]. change (negb (ok (mkResponse 200 _))) with false. cbv iota.
  cbn [fst snd]. rewrite put_self. cbn [sql]. split.
  - cbn. now rewrite Hp.
  - now apply select_poll_map.
Qed.

Lemma handleClosePoll_published (ns : Namespace) (doEnv : nat -> Env) (pollId : string)
      (row : PollData) :
  Sql.select_poll_limit_1 (sql (ns pollId)) = Some row -> p_status row = published ->
  shown_status (fst (handleClosePoll ns doEnv pollId)) = Some closed /\
  Sql.select_poll_limit_1 (sql (snd (handleClosePoll ns doEnv pollId) pollId)) =
  Some (Sql.set_closed (now (doEnv 0)) row).
Proof.
  intros Hrow Hd. unfold handleClosePoll. rewrite callDO_eq. cbn [fetch].
  rewrite (handleClose_published _ _ Hrow Hd). unfold closed_at_now.
  destruct (@update_poll_found (Sql.set_closed (now (doEnv 0))) (ns pollId) row
              (Sql.update_poll (Sql.set_closed (now (doEnv 0))) (sql (ns pollId)))
              (connections (ns pollId)) Hrow eq_refl) as (p & -> & Hp).
  cbn [fst snd]. change (negb (ok (mkResponse 200 _))) with false. cbv iota.
  cbn [fst snd]. rewrite put_self. cbn [sql]. split.
  - cbn. now rewrite Hp.
  - now apply select_poll_map.
Qed.

Lemma vote_route_on (uuid : string -> bool)
      (generate : HttpRequest -> option string -> string)
      (ns : Namespace) (env : Env) (pollId : string) (request : HttpRequest)
      (body : VoteBody) :
  json_body request = Some body -> uuid (body_answerId body) = true ->
  fst (VoteRoute.handleVote uuid generate ns env pollId request) =
  match fst (handleVote env (body_answerId body) (generate request None) (ns pollId)) with
  | Return doResponse => Return (vote_reply doResponse)
  | Throw e => Throw e
  end.
Proof.
  intros Hb Hu. unfold VoteRoute.handleVote, VoteRoute.voteRequestSchema,
                VoteRoute.clientId_of.
  rewrite Hb, Hu. cbn [vr_answerId]. rewrite callDO_eq. cbn [fetch fst].
  now destruct (fst (handleVote env (body_answerId body) (generate request None)
                                (ns pollId))).
Qed.

(** X24. From creation to closing, through the routes.  When the admin
    route has created a poll (201), the reply shows a draft; while it is a
    draft the public read, the page of the widget and a vote are refused
    with 403 [POLL_NOT_PUBLISHED]; publishing it answers with the poll
    published; closing it then answers with the poll closed; after that a
    vote is refused with 403 [POLL_CLOSED], and publishing or closing again
    is refused with 400 [VALIDATION_ERROR]. *)
Theorem from_creation_to_closing
        (ns : Namespace) (env : Env) (doEnv doEnv1 doEnv2 doEnv3 : nat -> Env)
        (body : option CreatePollRequest) (b : ApiJson) :
  fst (handleCreatePoll ns env doEnv body) = Return (mkApi 201 b) ->
  let pollId := randomUUID env 0 in
  let ns1 := snd (handleCreatePoll ns env doEnv body) in
  let ns2 := snd (handlePublishPoll ns1 doEnv1 pollId) in
  let ns3 := snd (handleClosePoll ns2 doEnv2 pollId) in
  let refused_vote ns' code :=
    forall uuid generate env' request vote_body,
      json_body request = Some vote_body -> uuid (body_answerId vote_body) = true ->
      exists e, fst (VoteRoute.handleVote uuid generate ns' env' pollId request) =
                Return (errorResponse e 403 code) in
  shown_status (Return (mkApi 201 b)) = Some draft /\
  (forall env', fst (EmbedRoutes.handleGetPoll ns1 env' pollId) =
                Return (EmbedRoutes.RError "Poll not published" 403 POLL_NOT_PUBLISHED)) /\
  (forall env', fst (EmbedRoutes.handleEmbed ns1 env' pollId) =
                Return (EmbedRoutes.RError "Poll not published" 403 POLL_NOT_PUBLISHED)) /\
  refused_vote ns1 POLL_NOT_PUBLISHED /\
  shown_status (fst (handlePublishPoll ns1 doEnv1 pollId)) = Some published /\
  shown_status (fst (handleClosePoll ns2 doEnv2 pollId)) = Some closed /\
  refused_vote ns3 POLL_CLOSED /\
  error_code (fst (handlePublishPoll ns3 doEnv3 pollId)) = Some (400, VALIDATION_ERROR) /\
  error_code (fst (handleClosePoll ns3 doEnv3 pollId)) = Some (400, VALIDATION_ERROR).
Proof.
  intros Hcreate pollId ns1 ns2 ns3 refused_vote.
  destruct (handleCreatePoll_draft _ _ _ _ Hcreate) as (Hshown & row & Hrow & Hst & _).
  fold pollId ns1 in Hrow.
  destruct (handlePublishPoll_draft ns1 doEnv1 pollId Hrow Hst) as [Hpub Hrow2].
  fold ns2 in Hrow2.
  destruct (@handleClosePoll_published ns2 doEnv2 pollId _ Hrow2 eq_refl)
    as [Hclo Hrow3].
  fold ns3 in Hrow3.
  split; [exact Hshown|].
  split.
  { intro env'. unfold EmbedRoutes.handleGetPoll.
    rewrite callDO_get, (handleGet_row _ Hrow). cbn [fst r_body poll_row].
    change (negb (ok (mkResponse 200 _))) with false. cbv iota.
    rewrite Hst. reflexivity. }
  split.
  { intro env'. unfold EmbedRoutes.handleEmbed.
    rewrite callDO_get, (handleGet_row _ Hrow). cbn [fst r_body poll_row].
    change (negb (ok (mkResponse 200 _))) with false. cbv iota.
    rewrite Hst. reflexivity. }
  split.
  { intros uuid generate env' request vote_body Hb Hu.
    rewrite (vote_route_on _ _ _ _ _ _ Hb Hu).
    rewrite (@handleVote_draft env' _ _ (ns1 pollId) row Hrow Hst).
    eexists. reflexivity. }
  split; [exact Hpub|]. split; [exact Hclo|].
  split.
  { intros uuid generate env' request vote_body Hb Hu.
    rewrite (vote_route_on _ _ _ _ _ _ Hb Hu).
    rewrite (@handleVote_closed env' _ _ (ns3 pollId) _ Hrow3 eq_refl).
    eexists. reflexivity. }
  split.
  - unfold handlePublishPoll. rewrite callDO_eq. cbn [fetch].
    rewrite (@handlePublish_not_draft (doEnv3 0) (ns3 pollId) _ Hrow3);
      [reflexivity | discriminate].
  - unfold handleClosePoll. rewrite callDO_eq. cbn [fetch].
    rewrite (@handleClose_not_published (doEnv3 0) (ns3 pollId) _ Hrow3);
      [reflexivity | discriminate].
Qed.

(** The poll of [one_poll], published and closed through the routes. *)
Lemma from_creation_to_closing_witness :
  shown_status
    (fst (handleClosePoll
            (snd (handlePublishPoll one_poll (doEnv_at 5) "p0")) (doEnv_at 7) "p0"))
  = Some closed.
Proof.
  edestruct (@from_creation_to_closing
               no_actors (env_at 0 "p") (doEnv_at 1) (doEnv_at 5) (doEnv_at 7)
               (doEnv_at 9) (Some (mkCreatePollRequest "Q?" ["A"; "B"])))
    as (_ & _ & _ & _ & _ & H & _).
  - vm_compute. reflexivity.
  - exact H.
Defined.
